(** * xai-voice-agent: the call-session bridge and its tool dispatcher

    A shallow embedding of [examples/agent/telephony/xai/src]:
    - [user-auth.ts]: the per-call authorization store;
    - [tools.ts]: [executeToolCall] and the three user-context handlers;
    - [index.ts]: the handlers that the [/media-stream/:callId] endpoint
      registers on the Twilio socket and on the x.ai socket, and the
      [/twiml] route;
    - [x-api.ts]: the searches, the trends and the posts of a user.

    JavaScript strings are sequences of UTF-16 code units, so a string is a
    [list N] here and [length] is the [.length] of the source.  The event
    loop runs one handler at a time: a call is a list of events, each
    handled by a function from state to state and emitted effects.  To the
    bridge, the wrapper of the Twilio socket ([twilio.ts]), the [ws]
    sockets, the providers of [x-api.ts] and the backend are outside: what
    it sends to them is an effect, what they deliver is an event.  The
    functions of [x-api.ts] are modelled on their own, in [XApi], from the
    replies of the X API to the requests they make and the value they
    stringify. *)

From stdpp Require Import gmap strings list.
From Stdlib Require Import NArith ZArith Lia DecimalString Sorted.

Set Warnings "-register-all".

(** ** Strings *)

Definition jsstring := list N.

(** The code units of an ASCII literal of the source. *)
Definition u (s : string) : jsstring :=
  map Ascii.N_of_ascii (String.list_ascii_of_string s).

Fixpoint str_eqb (a b : jsstring) : bool :=
  match a, b with
  | [], [] => true
  | x :: a', y :: b' => N.eqb x y && str_eqb a' b'
  | _, _ => false
  end.

(** [if (s)] on a string: every string but the empty one is truthy. *)
Definition nonempty (s : jsstring) : bool :=
  match s with [] => false | _ :: _ => true end.

(** [if (x)] on an optional string field ([undefined], [null] and [''] are
    falsy). *)
Definition truthy_str (x : option jsstring) : bool :=
  match x with Some s => nonempty s | None => false end.

(** [x || ''] on an optional string field. *)
Definition or_empty (x : option jsstring) : jsstring :=
  match x with Some s => s | None => [] end.

(** Decimal rendering of a count, as a template literal prints it. *)
Definition decimal (n : nat) : jsstring :=
  u (DecimalString.NilEmpty.string_of_uint (Nat.to_uint n)).

(** ** JSON values, [JSON.parse] and [JSON.stringify]

    A number keeps the text of its literal: the double it denotes, and the
    coercions of doubles, are primitives of the platform (see [Numbers]). *)

Inductive json : Type :=
| JNull
| JBool (b : bool)
| JNum (lexeme : jsstring)
| JStr (s : jsstring)
| JArr (items : list json)
| JObj (members : list (jsstring * json)).

(** A JavaScript value that came out of [JSON.parse], or [undefined],
    which is [None]. *)
Definition value := option json.

Module Json.

Local Open Scope N_scope.

Inductive parsed (A : Type) : Type :=
| Ok (a : A) (rest : jsstring)
| SyntaxError
| OutOfFuel.
Arguments Ok {A} a rest.
Arguments SyntaxError {A}.
Arguments OutOfFuel {A}.

Definition is_ws (c : N) : bool :=
  (c =? 32) || (c =? 9) || (c =? 10) || (c =? 13).

Fixpoint skip_ws (l : jsstring) : jsstring :=
  match l with
  | c :: r => if is_ws c then skip_ws r else l
  | [] => []
  end.

Definition is_digit (c : N) : bool := (48 <=? c) && (c <=? 57).

Definition hex_val (c : N) : option N :=
  if is_digit c then Some (c - 48)
  else if (97 <=? c) && (c <=? 102) then Some (c - 87)
  else if (65 <=? c) && (c <=? 70) then Some (c - 55)
  else None.

Definition hex4 (a b c d : N) : option N :=
  match hex_val a, hex_val b, hex_val c, hex_val d with
  | Some x, Some y, Some z, Some w => Some (((x * 16 + y) * 16 + z) * 16 + w)
  | _, _, _, _ => None
  end.

(** The single-character escapes: quote, backslash, slash, b, f, n, r, t. *)
Definition unescape (e : N) : option N :=
  if e =? 34 then Some 34 else if e =? 92 then Some 92
  else if e =? 47 then Some 47 else if e =? 98 then Some 8
  else if e =? 102 then Some 12 else if e =? 110 then Some 10
  else if e =? 114 then Some 13 else if e =? 116 then Some 9
  else None.

(** The characters of a string literal, after its opening quote. *)
Fixpoint parse_chars (l acc : jsstring) : option (jsstring * jsstring) :=
  match l with
  | [] => None
  | c :: r =>
      if c =? 34 then Some (rev acc, r)
      else if c =? 92 then
        match r with
        | [] => None
        | e :: r1 =>
            if e =? 117 then
              match r1 with
              | h1 :: h2 :: h3 :: h4 :: r2 =>
                  match hex4 h1 h2 h3 h4 with
                  | Some n => parse_chars r2 (n :: acc)
                  | None => None
                  end
              | _ => None
              end
            else
              match unescape e with
              | Some x => parse_chars r1 (x :: acc)
              | None => None
              end
        end
      else if c <? 32 then None
      else parse_chars r (c :: acc)
  end.

Fixpoint span_digits (l : jsstring) : jsstring * jsstring :=
  match l with
  | c :: r =>
      if is_digit c then let '(ds, r') := span_digits r in (c :: ds, r')
      else ([], l)
  | [] => ([], [])
  end.

(** A number literal: an optional minus sign; then a single 0, or a digit
    from 1 to 9 and any digits; then optionally a dot and one digit or more;
    then optionally e or E, an optional sign and one digit or more. *)
Definition parse_int (l : jsstring) : option (jsstring * jsstring) :=
  match l with
  | c :: r =>
      if c =? 48 then Some ([c], r)
      else if is_digit c then let '(ds, r') := span_digits r in Some (c :: ds, r')
      else None
  | [] => None
  end.

Definition parse_frac (l : jsstring) : option (jsstring * jsstring) :=
  match l with
  | c :: r =>
      if c =? 46 then
        match span_digits r with
        | ([], _) => None
        | (ds, r') => Some (c :: ds, r')
        end
      else Some ([], l)
  | [] => Some ([], l)
  end.

Definition parse_exp (l : jsstring) : option (jsstring * jsstring) :=
  match l with
  | c :: r =>
      if (c =? 101) || (c =? 69) then
        let '(sign, r1) :=
          match r with
          | s :: r1 => if (s =? 43) || (s =? 45) then ([s], r1) else ([], r)
          | [] => ([], r)
          end in
        match span_digits r1 with
        | ([], _) => None
        | (ds, r') => Some (c :: sign ++ ds, r')
        end
      else Some ([], l)
  | [] => Some ([], l)
  end.

Definition parse_number (l : jsstring) : option (jsstring * jsstring) :=
  let '(sign, l1) :=
    match l with
    | c :: r => if c =? 45 then ([c], r) else ([], l)
    | [] => ([], l)
    end in
  match parse_int l1 with
  | None => None
  | Some (i, l2) =>
      match parse_frac l2 with
      | None => None
      | Some (f, l3) =>
          match parse_exp l3 with
          | None => None
          | Some (e, l4) => Some (sign ++ i ++ f ++ e, l4)
          end
      end
  end.

Definition lift {A B} (f : A -> B) (x : option (A * jsstring)) : parsed B :=
  match x with
  | Some (a, r) => Ok (f a) r
  | None => SyntaxError
  end.

(** Whether [l] starts with the keyword [k]; the rest after it. *)
Fixpoint strip (k l : jsstring) : option jsstring :=
  match k, l with
  | [], _ => Some l
  | x :: k', y :: l' => if x =? y then strip k' l' else None
  | _ :: _, [] => None
  end.

Fixpoint parse_value (fuel : nat) (l : jsstring) : parsed json :=
  match fuel with
  | O => OutOfFuel
  | S f =>
      match skip_ws l with
      | [] => SyntaxError
      | c :: r =>
          if c =? 123 then
            match skip_ws r with
            | d :: r' => if d =? 125 then Ok (JObj []) r' else parse_members f r []
            | [] => SyntaxError
            end
          else if c =? 91 then
            match skip_ws r with
            | d :: r' => if d =? 93 then Ok (JArr []) r' else parse_elements f r []
            | [] => SyntaxError
            end
          else if c =? 34 then lift JStr (parse_chars r [])
          else if c =? 116 then lift (fun _ => JBool true) (option_map (pair tt) (strip (u "rue") r))
          else if c =? 102 then lift (fun _ => JBool false) (option_map (pair tt) (strip (u "alse") r))
          else if c =? 110 then lift (fun _ => JNull) (option_map (pair tt) (strip (u "ull") r))
          else lift JNum (parse_number (c :: r))
      end
  end
with parse_elements (fuel : nat) (l : jsstring) (acc : list json) : parsed json :=
  match fuel with
  | O => OutOfFuel
  | S f =>
      match parse_value f l with
      | Ok v r =>
          match skip_ws r with
          | d :: r' =>
              if d =? 44 then parse_elements f r' (v :: acc)
              else if d =? 93 then Ok (JArr (rev (v :: acc))) r'
              else SyntaxError
          | [] => SyntaxError
          end
      | SyntaxError => SyntaxError
      | OutOfFuel => OutOfFuel
      end
  end
with parse_members (fuel : nat) (l : jsstring) (acc : list (jsstring * json)) : parsed json :=
  match fuel with
  | O => OutOfFuel
  | S f =>
      match skip_ws l with
      | q :: r =>
          if q =? 34 then
            match parse_chars r [] with
            | Some (k, r1) =>
                match skip_ws r1 with
                | c :: r2 =>
                    if c =? 58 then
                      match parse_value f r2 with
                      | Ok v r3 =>
                          match skip_ws r3 with
                          | d :: r4 =>
                              if d =? 44 then parse_members f r4 ((k, v) :: acc)
                              else if d =? 125 then Ok (JObj (rev ((k, v) :: acc))) r4
                              else SyntaxError
                          | [] => SyntaxError
                          end
                      | SyntaxError => SyntaxError
                      | OutOfFuel => OutOfFuel
                      end
                    else SyntaxError
                | [] => SyntaxError
                end
            | None => SyntaxError
            end
          else SyntaxError
      | [] => SyntaxError
      end
  end.

(** [JSON.parse(s)]: one value, then only white space.  [None] is the
    [SyntaxError] the source catches. *)
Definition parse (s : jsstring) : option json :=
  match parse_value (2 * length s + 2) s with
  | Ok v r => match skip_ws r with [] => Some v | _ :: _ => None end
  | SyntaxError => None
  | OutOfFuel => None
  end.

(** *** [JSON.stringify] *)

(** The doubles behind number literals are not modelled: what the source
    asks of a number is a parameter of the development. *)
Class Numbers := {
  (** [ToBoolean] of the number a literal denotes *)
  number_nonzero : jsstring -> bool;
  (** whether it is finite ([1e999] is not) *)
  number_finite : jsstring -> bool;
  (** [String(x)] of the number *)
  number_to_string : jsstring -> jsstring;
  (** [x > 280] for the number *)
  number_gt_280 : jsstring -> bool;
  (** [s > 280] for a string [s], compared as the number it reads as *)
  string_gt_280 : jsstring -> bool
}.

Definition hex_digit (n : N) : N := if n <? 10 then 48 + n else 87 + n.

(** The six characters of a [\uXXXX] escape, in lower case. *)
Definition escape_u (c : N) : jsstring :=
  [92; 117; hex_digit (c / 4096 mod 16); hex_digit (c / 256 mod 16);
   hex_digit (c / 16 mod 16); hex_digit (c mod 16)].

Definition is_high (c : N) : bool := (55296 <=? c) && (c <=? 56319).
Definition is_low (c : N) : bool := (56320 <=? c) && (c <=? 57343).

(** The body of a quoted string: quote, backslash and the control
    characters are escaped, and so is a surrogate that has no partner. *)
Fixpoint quote_chars (l : jsstring) : jsstring :=
  match l with
  | [] => []
  | c :: r =>
      if c =? 34 then [92; 34] ++ quote_chars r
      else if c =? 92 then [92; 92] ++ quote_chars r
      else if c =? 8 then [92; 98] ++ quote_chars r
      else if c =? 9 then [92; 116] ++ quote_chars r
      else if c =? 10 then [92; 110] ++ quote_chars r
      else if c =? 12 then [92; 102] ++ quote_chars r
      else if c =? 13 then [92; 114] ++ quote_chars r
      else if c <? 32 then escape_u c ++ quote_chars r
      else if is_high c then
        match r with
        | d :: r' =>
            if is_low d then c :: d :: quote_chars r'
            else escape_u c ++ quote_chars r
        | [] => escape_u c
        end
      else if is_low c then escape_u c ++ quote_chars r
      else c :: quote_chars r
  end.

Definition quote (s : jsstring) : jsstring := [34] ++ quote_chars s ++ [34].

Section Stringify.
Context `{Numbers}.

Fixpoint stringify (v : json) : jsstring :=
  match v with
  | JNull => u "null"
  | JBool true => u "true"
  | JBool false => u "false"
  | JNum x => if number_finite x then number_to_string x else u "null"
  | JStr s => quote s
  | JArr items =>
      [91] ++
      (fix elements (l : list json) : jsstring :=
         match l with
         | [] => []
         | [x] => stringify x
         | x :: r => stringify x ++ [44] ++ elements r
         end) items ++ [93]
  | JObj members =>
      [123] ++
      (fix pairs (l : list (jsstring * json)) : jsstring :=
         match l with
         | [] => []
         | [(k, x)] => quote k ++ [58] ++ stringify x
         | (k, x) :: r => quote k ++ [58] ++ stringify x ++ [44] ++ pairs r
         end) members ++ [125]
  end.

End Stringify.

End Json.

(** ** Coercions and property reads of the values the tools receive *)

(** What an expression evaluates to: a value, or a thrown error, kept as
    the text [String(error)] that the catch blocks of the source print. *)
Inductive completion (A : Type) : Type :=
| Normal (a : A)
| Throw (error : jsstring).
Arguments Normal {A} a.
Arguments Throw {A} error.

(** The own property [k] of a parsed object: the last member named [k]. *)
Fixpoint member (k : jsstring) (ms : list (jsstring * json)) : value :=
  match ms with
  | [] => None
  | (k', v) :: r =>
      match member k r with
      | Some w => Some w
      | None => if str_eqb k k' then Some v else None
      end
  end.

(** The message of Node's [TypeError] for a property read on [null] or
    [undefined]. *)
Definition cannot_read (what k : jsstring) : jsstring :=
  u "TypeError: Cannot read properties of " ++ what ++ u " (reading '" ++ k ++ u "')".

(** [v.k] for one of the argument names the tools read ([topic], [country],
    [username], [recipient_username], [message], [text]): no primitive and
    no array has such a property. *)
Definition get_prop (v : value) (k : jsstring) : completion value :=
  match v with
  | None => Throw (cannot_read (u "undefined") k)
  | Some JNull => Throw (cannot_read (u "null") k)
  | Some (JObj ms) => Normal (member k ms)
  | Some _ => Normal None
  end.

(** [v.length]: a count for a string or an array, the [length] member of an
    object, [undefined] for a number or a boolean. *)
Inductive length_value : Type :=
| Count (n : nat)
| NotCount (v : value).

Definition get_length (v : value) : completion length_value :=
  match v with
  | None => Throw (cannot_read (u "undefined") (u "length"))
  | Some JNull => Throw (cannot_read (u "null") (u "length"))
  | Some (JStr s) => Normal (Count (length s))
  | Some (JArr l) => Normal (Count (length l))
  | Some (JObj ms) => Normal (NotCount (member (u "length") ms))
  | Some _ => Normal (NotCount None)
  end.

Section Coercions.
Context `{Json.Numbers}.

(** [if (v)] *)
Definition truthy (v : value) : bool :=
  match v with
  | None | Some JNull => false
  | Some (JBool b) => b
  | Some (JNum x) => Json.number_nonzero x
  | Some (JStr s) => nonempty s
  | Some (JArr _) | Some (JObj _) => true
  end.

(** The message of Node's [TypeError] for an object that has no primitive
    value. *)
Definition cannot_convert : jsstring :=
  u "TypeError: Cannot convert object to primitive value".

(** [Array.prototype.join], on the conversions of the items: the texts
    with commas between them, or the first error. *)
Fixpoint join_items (l : list (completion jsstring)) : completion jsstring :=
  match l with
  | [] => Normal []
  | [x] => x
  | x :: r =>
      match x with
      | Normal first =>
          match join_items r with
          | Normal rest => Normal (first ++ u "," ++ rest)
          | Throw error => Throw error
          end
      | Throw error => Throw error
      end
  end.

(** [String(v)], as a template literal inserts [v].  A parsed object
    inherits [toString] and [valueOf] of [Object.prototype], which give
    ['[object Object]'] and the object itself; an own member [toString]
    hides the first, and being no function leaves the object without a
    primitive value: the conversion throws.  An array is joined with
    commas, [null] giving the empty text and every other item its own
    conversion, which may throw. *)
Fixpoint json_to_string (v : json) : completion jsstring :=
  match v with
  | JNull => Normal (u "null")
  | JBool true => Normal (u "true")
  | JBool false => Normal (u "false")
  | JNum x => Normal (Json.number_to_string x)
  | JStr s => Normal s
  | JArr items =>
      join_items
        (map (fun x => match x with JNull => Normal [] | _ => json_to_string x end) items)
  | JObj members =>
      match member (u "toString") members with
      | Some _ => Throw cannot_convert
      | None => Normal (u "[object Object]")
      end
  end.

Definition to_string (v : value) : completion jsstring :=
  match v with
  | None => Normal (u "undefined")
  | Some j => json_to_string j
  end.

(** [v > 280]: an array or an object is compared by its primitive value,
    which is its text when it has one. *)
Definition value_gt_280 (v : value) : completion bool :=
  match v with
  | None | Some JNull | Some (JBool _) => Normal false
  | Some (JNum x) => Normal (Json.number_gt_280 x)
  | Some (JStr s) => Normal (Json.string_gt_280 s)
  | Some (JArr _ as j) | Some (JObj _ as j) =>
      match json_to_string j with
      | Normal s => Normal (Json.string_gt_280 s)
      | Throw error => Throw error
      end
  end.

Definition length_gt_280 (x : length_value) : completion bool :=
  match x with
  | Count n => Normal (280 <? n)
  | NotCount v => value_gt_280 v
  end.

Definition length_to_string (x : length_value) : completion jsstring :=
  match x with
  | Count n => Normal (decimal n)
  | NotCount v => to_string v
  end.

End Coercions.

(** ** user-auth.ts *)

Record LikedTweet := {
  tweet_id : jsstring;
  tweet_text : jsstring;
  author_username : jsstring;
  author_name : jsstring
}.

Record Followed := {
  followed_id : jsstring;
  followed_username : jsstring;
  followed_name : jsstring
}.

Record UserAuth := {
  authenticated : bool;
  access_token : option jsstring;
  x_user_id : option jsstring;
  x_username : option jsstring;
  x_name : option jsstring;
  following : option (list Followed);
  liked_tweets : option (list LikedTweet);
  seeded_at : option jsstring
}.

Record UserContext := {
  phoneNumber : jsstring;
  auth : UserAuth
}.

(** [{ authenticated: false }] *)
Definition not_authenticated : UserAuth :=
  {| authenticated := false; access_token := None; x_user_id := None;
     x_username := None; x_name := None; following := None;
     liked_tweets := None; seeded_at := None |}.

(** What the backend answered to [GET /api/users/token]: the request or the
    decoding of its body failed, or a status and a body arrived. *)
Inductive token_response : Type :=
| FetchFailed
| Response (ok : bool) (data : UserAuth).

Definition getUserAuth (r : token_response) : UserAuth :=
  match r with
  | FetchFailed => not_authenticated
  | Response false _ => not_authenticated
  | Response true data => data
  end.

(** [activeCallContexts], keyed by call id. *)
Definition initUserContext (r : token_response) (callId phone : jsstring)
    (contexts : gmap jsstring UserContext) : UserContext * gmap jsstring UserContext :=
  let context := {| phoneNumber := phone; auth := getUserAuth r |} in
  (context, <[callId := context]> contexts).

Definition getCallContext (contexts : gmap jsstring UserContext) (callId : jsstring)
    : option UserContext :=
  contexts !! callId.

Definition cleanupCallContext (callId : jsstring)
    (contexts : gmap jsstring UserContext) : gmap jsstring UserContext :=
  delete callId contexts.

(** ** tools.ts

    The requests to the X API are what a tool does to the world; the log
    lines of this file are left out. *)

(** The requests of [x-api.ts] that answer with a text. *)
Inductive provider_call : Type :=
| SearchNewsTopic (topic : value)
| GetTrendingNews (country : value)
| GetUserPosts (username : value)
| GetMyFollowing (token : jsstring) (x_user_id : option jsstring)
| SendDM (token recipient_id : jsstring) (message : value)
| PostTweet (token : jsstring) (text : value).

(** What [lookupUserByUsername] answers with, when it finds the user. *)
Record XUser := { user_id : jsstring; username : jsstring }.

(** An [async] function, up to the replies of the providers: it has
    finished, or it awaits the reply to a request it has issued. *)
Inductive task (A : Type) : Type :=
| Done (a : A)
| AwaitText (c : provider_call) (k : completion jsstring -> task A)
| AwaitUser (token : jsstring) (username : value)
    (k : completion (option XUser) -> task A).
Arguments Done {A} a.
Arguments AwaitText {A} c k.
Arguments AwaitUser {A} token username k.

(** A promise: it is fulfilled with a value or rejected with an error. *)
Definition Async (A : Type) := task (completion A).

Fixpoint bind {A B : Type} (m : Async A) (f : A -> Async B) : Async B :=
  match m with
  | Done (Normal a) => f a
  | Done (Throw e) => Done (Throw e)
  | AwaitText c k => AwaitText c (fun r => bind (k r) f)
  | AwaitUser t n k => AwaitUser t n (fun r => bind (k r) f)
  end.

Notation "'let!' x ':=' m 'in' k" := (bind m (fun x => k))
  (at level 10, x name, m at level 100, k at level 200).

Definition ret {A : Type} (a : A) : Async A := Done (Normal a).
Definition eval {A : Type} (x : completion A) : Async A := Done x.
Definition await_text (c : provider_call) : Async jsstring := AwaitText c Done.
Definition await_user (token : jsstring) (name : value) : Async (option XUser) :=
  AwaitUser token name Done.

(** [try { ... return result } catch (error) { return handler(error) }] *)
Fixpoint try_catch {A : Type} (m : Async A) (handler : jsstring -> A) : Async A :=
  match m with
  | Done (Normal a) => Done (Normal a)
  | Done (Throw e) => Done (Normal (handler e))
  | AwaitText c k => AwaitText c (fun r => try_catch (k r) handler)
  | AwaitUser t n k => AwaitUser t n (fun r => try_catch (k r) handler)
  end.

Section Tools.
Context `{Json.Numbers}.

(** [!userContext?.auth.authenticated || !userContext.auth.access_token] *)
Definition not_linked (userContext : option UserContext) : bool :=
  match userContext with
  | None => true
  | Some c => negb (authenticated (auth c)) || negb (truthy_str (access_token (auth c)))
  end.

Definition token_of (userContext : option UserContext) : jsstring :=
  match userContext with
  | Some c => or_empty (access_token (auth c))
  | None => []
  end.

Definition connect_first : jsstring :=
  u "You need to connect your X account first. Visit our website to log in with X, then call back.".

Definition handleGetMyFollowing (callId : jsstring) (userContext : option UserContext)
    : Async jsstring :=
  if not_linked userContext then
    ret (Json.stringify (JObj [(u "success", JBool false);
                               (u "message", JStr connect_first);
                               (u "users", JArr [])]))
  else
    await_text (GetMyFollowing (token_of userContext)
                  (match userContext with Some c => x_user_id (auth c) | None => None end)).

Definition handleSendDM (callId : jsstring) (userContext : option UserContext)
    (args : json) : Async jsstring :=
  if not_linked userContext then
    ret (Json.stringify (JObj [(u "success", JBool false);
                               (u "message", JStr connect_first)]))
  else
    let! recipient_username := eval (get_prop (Some args) (u "recipient_username")) in
    let! recipient := await_user (token_of userContext) recipient_username in
    match recipient with
    | None =>
        let! printed := eval (to_string recipient_username) in
        ret (Json.stringify (JObj [(u "success", JBool false);
               (u "message", JStr (u "Could not find user @" ++ printed
                                   ++ u ". Please check the username and try again."))]))
    | Some r =>
        let! message := eval (get_prop (Some args) (u "message")) in
        await_text (SendDM (token_of userContext) (user_id r) message)
    end.

Definition handlePostTweet (callId : jsstring) (userContext : option UserContext)
    (args : json) : Async jsstring :=
  if not_linked userContext then
    ret (Json.stringify (JObj [(u "success", JBool false);
                               (u "message", JStr connect_first)]))
  else
    let! text := eval (get_prop (Some args) (u "text")) in
    let! len := eval (get_length text) in
    let! long := eval (length_gt_280 len) in
    if long then
      let! printed := eval (length_to_string len) in
      ret (Json.stringify (JObj [(u "success", JBool false);
             (u "message", JStr (u "Your tweet is " ++ printed
                                 ++ u " characters, but the maximum is 280. Please shorten it."))]))
    else
      await_text (PostTweet (token_of userContext) text).

Definition executeToolCall (contexts : gmap jsstring UserContext)
    (callId toolName : jsstring) (args : json) : Async jsstring :=
  let userContext := getCallContext contexts callId in
  try_catch
    (if str_eqb toolName (u "search_news_topic") then
       let! topic := eval (get_prop (Some args) (u "topic")) in
       await_text (SearchNewsTopic topic)
     else if str_eqb toolName (u "get_trending_news") then
       let! country := eval (get_prop (Some args) (u "country")) in
       await_text (GetTrendingNews (if truthy country then country else Some (JStr (u "US"))))
     else if str_eqb toolName (u "get_user_posts") then
       let! name := eval (get_prop (Some args) (u "username")) in
       await_text (GetUserPosts name)
     else if str_eqb toolName (u "get_my_following") then
       handleGetMyFollowing callId userContext
     else if str_eqb toolName (u "send_dm") then
       handleSendDM callId userContext args
     else if str_eqb toolName (u "post_tweet") then
       handlePostTweet callId userContext args
     else
       ret (Json.stringify (JObj [(u "error", JStr (u "Unknown tool: " ++ toolName))])))
    (fun error =>
       Json.stringify (JObj [(u "success", JBool false);
                             (u "error", JStr (u "Tool execution failed: " ++ error))])).

End Tools.

(** ** index.ts: the state of one call

    The three module-level maps of [index.ts] and the map of [user-auth.ts],
    then the variables that the closure of the [/media-stream/:callId]
    endpoint captures. *)

(** Where the endpoint is: awaiting the lookups and the x.ai socket, with
    only the Twilio [start] handler registered; bridging, with every handler
    registered; or aborted, the x.ai socket having failed to open. *)
Inductive Phase : Type := Connecting | Bridging | Aborted.

(** [xaiWs.readyState] *)
Inductive ReadyState : Type := CONNECTING | OPEN | CLOSING | CLOSED.

(** [functionCallState]; [null] and [undefined] are both [None]. *)
Record FunctionCallState := {
  fc_callId : option jsstring;
  fc_name : option jsstring;
  fc_arguments : jsstring
}.

Definition no_function_call : FunctionCallState :=
  {| fc_callId := None; fc_name := None; fc_arguments := [] |}.

Record Session := {
  callPhoneNumbers : gmap jsstring jsstring;
  callConversationIds : gmap jsstring jsstring;
  botTranscriptBuffers : gmap jsstring jsstring;
  activeCallContexts : gmap jsstring UserContext;
  phase : Phase;
  streamSid : option jsstring;
  twilioReady : bool;
  pendingTwilioReady : bool;
  userContext : option UserContext;
  readyState : ReadyState;
  functionCallState : FunctionCallState;
  sessionReady : bool;
  greetingSent : bool;
  audioPacketCount : N;
  pollers : list bool;
  inflight : list (Async jsstring);
  closing : nat
}.

Definition set_callPhoneNumbers (x : gmap jsstring jsstring) (s : Session) : Session :=
  {| callPhoneNumbers := x;
     callConversationIds := callConversationIds s;
     botTranscriptBuffers := botTranscriptBuffers s;
     activeCallContexts := activeCallContexts s;
     phase := phase s;
     streamSid := streamSid s;
     twilioReady := twilioReady s;
     pendingTwilioReady := pendingTwilioReady s;
     userContext := userContext s;
     readyState := readyState s;
     functionCallState := functionCallState s;
     sessionReady := sessionReady s;
     greetingSent := greetingSent s;
     audioPacketCount := audioPacketCount s;
     pollers := pollers s;
     inflight := inflight s;
     closing := closing s |}.

Definition set_callConversationIds (x : gmap jsstring jsstring) (s : Session) : Session :=
  {| callPhoneNumbers := callPhoneNumbers s;
     callConversationIds := x;
     botTranscriptBuffers := botTranscriptBuffers s;
     activeCallContexts := activeCallContexts s;
     phase := phase s;
     streamSid := streamSid s;
     twilioReady := twilioReady s;
     pendingTwilioReady := pendingTwilioReady s;
     userContext := userContext s;
     readyState := readyState s;
     functionCallState := functionCallState s;
     sessionReady := sessionReady s;
     greetingSent := greetingSent s;
     audioPacketCount := audioPacketCount s;
     pollers := pollers s;
     inflight := inflight s;
     closing := closing s |}.

Definition set_botTranscriptBuffers (x : gmap jsstring jsstring) (s : Session) : Session :=
  {| callPhoneNumbers := callPhoneNumbers s;
     callConversationIds := callConversationIds s;
     botTranscriptBuffers := x;
     activeCallContexts := activeCallContexts s;
     phase := phase s;
     streamSid := streamSid s;
     twilioReady := twilioReady s;
     pendingTwilioReady := pendingTwilioReady s;
     userContext := userContext s;
     readyState := readyState s;
     functionCallState := functionCallState s;
     sessionReady := sessionReady s;
     greetingSent := greetingSent s;
     audioPacketCount := audioPacketCount s;
     pollers := pollers s;
     inflight := inflight s;
     closing := closing s |}.

Definition set_activeCallContexts (x : gmap jsstring UserContext) (s : Session) : Session :=
  {| callPhoneNumbers := callPhoneNumbers s;
     callConversationIds := callConversationIds s;
     botTranscriptBuffers := botTranscriptBuffers s;
     activeCallContexts := x;
     phase := phase s;
     streamSid := streamSid s;
     twilioReady := twilioReady s;
     pendingTwilioReady := pendingTwilioReady s;
     userContext := userContext s;
     readyState := readyState s;
     functionCallState := functionCallState s;
     sessionReady := sessionReady s;
     greetingSent := greetingSent s;
     audioPacketCount := audioPacketCount s;
     pollers := pollers s;
     inflight := inflight s;
     closing := closing s |}.

Definition set_phase (x : Phase) (s : Session) : Session :=
  {| callPhoneNumbers := callPhoneNumbers s;
     callConversationIds := callConversationIds s;
     botTranscriptBuffers := botTranscriptBuffers s;
     activeCallContexts := activeCallContexts s;
     phase := x;
     streamSid := streamSid s;
     twilioReady := twilioReady s;
     pendingTwilioReady := pendingTwilioReady s;
     userContext := userContext s;
     readyState := readyState s;
     functionCallState := functionCallState s;
     sessionReady := sessionReady s;
     greetingSent := greetingSent s;
     audioPacketCount := audioPacketCount s;
     pollers := pollers s;
     inflight := inflight s;
     closing := closing s |}.

Definition set_streamSid (x : option jsstring) (s : Session) : Session :=
  {| callPhoneNumbers := callPhoneNumbers s;
     callConversationIds := callConversationIds s;
     botTranscriptBuffers := botTranscriptBuffers s;
     activeCallContexts := activeCallContexts s;
     phase := phase s;
     streamSid := x;
     twilioReady := twilioReady s;
     pendingTwilioReady := pendingTwilioReady s;
     userContext := userContext s;
     readyState := readyState s;
     functionCallState := functionCallState s;
     sessionReady := sessionReady s;
     greetingSent := greetingSent s;
     audioPacketCount := audioPacketCount s;
     pollers := pollers s;
     inflight := inflight s;
     closing := closing s |}.

Definition set_twilioReady (x : bool) (s : Session) : Session :=
  {| callPhoneNumbers := callPhoneNumbers s;
     callConversationIds := callConversationIds s;
     botTranscriptBuffers := botTranscriptBuffers s;
     activeCallContexts := activeCallContexts s;
     phase := phase s;
     streamSid := streamSid s;
     twilioReady := x;
     pendingTwilioReady := pendingTwilioReady s;
     userContext := userContext s;
     readyState := readyState s;
     functionCallState := functionCallState s;
     sessionReady := sessionReady s;
     greetingSent := greetingSent s;
     audioPacketCount := audioPacketCount s;
     pollers := pollers s;
     inflight := inflight s;
     closing := closing s |}.

Definition set_pendingTwilioReady (x : bool) (s : Session) : Session :=
  {| callPhoneNumbers := callPhoneNumbers s;
     callConversationIds := callConversationIds s;
     botTranscriptBuffers := botTranscriptBuffers s;
     activeCallContexts := activeCallContexts s;
     phase := phase s;
     streamSid := streamSid s;
     twilioReady := twilioReady s;
     pendingTwilioReady := x;
     userContext := userContext s;
     readyState := readyState s;
     functionCallState := functionCallState s;
     sessionReady := sessionReady s;
     greetingSent := greetingSent s;
     audioPacketCount := audioPacketCount s;
     pollers := pollers s;
     inflight := inflight s;
     closing := closing s |}.

Definition set_userContext (x : option UserContext) (s : Session) : Session :=
  {| callPhoneNumbers := callPhoneNumbers s;
     callConversationIds := callConversationIds s;
     botTranscriptBuffers := botTranscriptBuffers s;
     activeCallContexts := activeCallContexts s;
     phase := phase s;
     streamSid := streamSid s;
     twilioReady := twilioReady s;
     pendingTwilioReady := pendingTwilioReady s;
     userContext := x;
     readyState := readyState s;
     functionCallState := functionCallState s;
     sessionReady := sessionReady s;
     greetingSent := greetingSent s;
     audioPacketCount := audioPacketCount s;
     pollers := pollers s;
     inflight := inflight s;
     closing := closing s |}.

Definition set_readyState (x : ReadyState) (s : Session) : Session :=
  {| callPhoneNumbers := callPhoneNumbers s;
     callConversationIds := callConversationIds s;
     botTranscriptBuffers := botTranscriptBuffers s;
     activeCallContexts := activeCallContexts s;
     phase := phase s;
     streamSid := streamSid s;
     twilioReady := twilioReady s;
     pendingTwilioReady := pendingTwilioReady s;
     userContext := userContext s;
     readyState := x;
     functionCallState := functionCallState s;
     sessionReady := sessionReady s;
     greetingSent := greetingSent s;
     audioPacketCount := audioPacketCount s;
     pollers := pollers s;
     inflight := inflight s;
     closing := closing s |}.

Definition set_functionCallState (x : FunctionCallState) (s : Session) : Session :=
  {| callPhoneNumbers := callPhoneNumbers s;
     callConversationIds := callConversationIds s;
     botTranscriptBuffers := botTranscriptBuffers s;
     activeCallContexts := activeCallContexts s;
     phase := phase s;
     streamSid := streamSid s;
     twilioReady := twilioReady s;
     pendingTwilioReady := pendingTwilioReady s;
     userContext := userContext s;
     readyState := readyState s;
     functionCallState := x;
     sessionReady := sessionReady s;
     greetingSent := greetingSent s;
     audioPacketCount := audioPacketCount s;
     pollers := pollers s;
     inflight := inflight s;
     closing := closing s |}.

Definition set_sessionReady (x : bool) (s : Session) : Session :=
  {| callPhoneNumbers := callPhoneNumbers s;
     callConversationIds := callConversationIds s;
     botTranscriptBuffers := botTranscriptBuffers s;
     activeCallContexts := activeCallContexts s;
     phase := phase s;
     streamSid := streamSid s;
     twilioReady := twilioReady s;
     pendingTwilioReady := pendingTwilioReady s;
     userContext := userContext s;
     readyState := readyState s;
     functionCallState := functionCallState s;
     sessionReady := x;
     greetingSent := greetingSent s;
     audioPacketCount := audioPacketCount s;
     pollers := pollers s;
     inflight := inflight s;
     closing := closing s |}.

Definition set_greetingSent (x : bool) (s : Session) : Session :=
  {| callPhoneNumbers := callPhoneNumbers s;
     callConversationIds := callConversationIds s;
     botTranscriptBuffers := botTranscriptBuffers s;
     activeCallContexts := activeCallContexts s;
     phase := phase s;
     streamSid := streamSid s;
     twilioReady := twilioReady s;
     pendingTwilioReady := pendingTwilioReady s;
     userContext := userContext s;
     readyState := readyState s;
     functionCallState := functionCallState s;
     sessionReady := sessionReady s;
     greetingSent := x;
     audioPacketCount := audioPacketCount s;
     pollers := pollers s;
     inflight := inflight s;
     closing := closing s |}.

Definition set_audioPacketCount (x : N) (s : Session) : Session :=
  {| callPhoneNumbers := callPhoneNumbers s;
     callConversationIds := callConversationIds s;
     botTranscriptBuffers := botTranscriptBuffers s;
     activeCallContexts := activeCallContexts s;
     phase := phase s;
     streamSid := streamSid s;
     twilioReady := twilioReady s;
     pendingTwilioReady := pendingTwilioReady s;
     userContext := userContext s;
     readyState := readyState s;
     functionCallState := functionCallState s;
     sessionReady := sessionReady s;
     greetingSent := greetingSent s;
     audioPacketCount := x;
     pollers := pollers s;
     inflight := inflight s;
     closing := closing s |}.

Definition set_pollers (x : list bool) (s : Session) : Session :=
  {| callPhoneNumbers := callPhoneNumbers s;
     callConversationIds := callConversationIds s;
     botTranscriptBuffers := botTranscriptBuffers s;
     activeCallContexts := activeCallContexts s;
     phase := phase s;
     streamSid := streamSid s;
     twilioReady := twilioReady s;
     pendingTwilioReady := pendingTwilioReady s;
     userContext := userContext s;
     readyState := readyState s;
     functionCallState := functionCallState s;
     sessionReady := sessionReady s;
     greetingSent := greetingSent s;
     audioPacketCount := audioPacketCount s;
     pollers := x;
     inflight := inflight s;
     closing := closing s |}.

Definition set_inflight (x : list (Async jsstring)) (s : Session) : Session :=
  {| callPhoneNumbers := callPhoneNumbers s;
     callConversationIds := callConversationIds s;
     botTranscriptBuffers := botTranscriptBuffers s;
     activeCallContexts := activeCallContexts s;
     phase := phase s;
     streamSid := streamSid s;
     twilioReady := twilioReady s;
     pendingTwilioReady := pendingTwilioReady s;
     userContext := userContext s;
     readyState := readyState s;
     functionCallState := functionCallState s;
     sessionReady := sessionReady s;
     greetingSent := greetingSent s;
     audioPacketCount := audioPacketCount s;
     pollers := pollers s;
     inflight := x;
     closing := closing s |}.

Definition set_closing (x : nat) (s : Session) : Session :=
  {| callPhoneNumbers := callPhoneNumbers s;
     callConversationIds := callConversationIds s;
     botTranscriptBuffers := botTranscriptBuffers s;
     activeCallContexts := activeCallContexts s;
     phase := phase s;
     streamSid := streamSid s;
     twilioReady := twilioReady s;
     pendingTwilioReady := pendingTwilioReady s;
     userContext := userContext s;
     readyState := readyState s;
     functionCallState := functionCallState s;
     sessionReady := sessionReady s;
     greetingSent := greetingSent s;
     audioPacketCount := audioPacketCount s;
     pollers := pollers s;
     inflight := inflight s;
     closing := x |}.

(** ** index.ts: events, effects and handlers *)

(** A message of the x.ai socket, after [JSON.parse]: its [type] and the
    fields that the handler reads outside of log lines. *)
Record message := {
  type : jsstring;
  delta : option jsstring;
  call_id : option jsstring;
  name : option jsstring;
  transcript : option jsstring
}.

(** What the backend answered to [POST /api/conversations/]. *)
Inductive create_response : Type :=
| CreateFailed
| CreateResponse (ok : bool) (id : jsstring).

(** What happens to a call.  The replies of providers and of the backend
    are events as the sockets' messages are: the handlers run one at a
    time, in the order of the list. *)
Inductive event : Type :=
| TwilioStart (sid : jsstring)
| Connected (user : token_response) (conversation : create_response)
| ConnectFailed (user : token_response) (conversation : create_response) (timeout : bool)
| XaiMessage (data : option message)
| TwilioMedia (track payload : jsstring)
| PollTick (i : nat)
| PollTimeout (i : nat)
| ProviderText (i : nat) (reply : completion jsstring)
| ProviderUser (i : nat) (reply : completion (option XUser))
| XaiError
| XaiClose
| TwilioError
| TwilioClose
| ConversationEnded (failed : bool).

Inductive level : Type := Debug | Info | Warn | Error.

(** The messages the bridge sends on the x.ai socket. *)
Inductive xai_out : Type :=
| UserMessageItem (text : jsstring)
| ResponseCreate
| FunctionCallOutput (call : option jsstring) (output : jsstring)
| SessionUpdate
| InputAudioBufferAppend (audio : jsstring).

(** The messages the bridge sends on the Twilio socket. *)
Inductive twilio_out : Type :=
| Media (payload sid : jsstring)
| Clear (sid : option jsstring).

Inductive role : Type := User | Assistant.

Inductive backend_call : Type :=
| SaveTranscript (conversation : jsstring) (r : role) (content : jsstring)
| EndConversation (conversation : jsstring).

(** What a handler does to the world, in order.  A log line keeps the
    fixed text of its template. *)
Inductive effect : Type :=
| Log (l : level) (text : string)
| XaiSend (m : xai_out)
| XaiCloseCall
| TwilioSend (m : twilio_out)
| Provider (c : provider_call)
| ProviderLookup (token : jsstring) (username : value)
| Backend (c : backend_call).

Definition action := Session -> Session * list effect.

Definition skip : action := fun s => (s, []).
Definition emit (o : list effect) : action := fun s => (s, o).
Definition modify (f : Session -> Session) : action := fun s => (f s, []).
Definition andThen (a b : action) : action := fun s =>
  let '(s1, o1) := a s in
  let '(s2, o2) := b s1 in
  (s2, o1 ++ o2).

Notation "a >>> b" := (andThen a b) (at level 62, right associativity).

(** The white space that [trim] removes. *)
Definition js_space (c : N) : bool :=
  ((9 <=? c) && (c <=? 13) || (c =? 32) || (c =? 160) || (c =? 5760)
   || (8192 <=? c) && (c <=? 8202) || (c =? 8232) || (c =? 8233)
   || (c =? 8239) || (c =? 8287) || (c =? 12288) || (c =? 65279))%N.

(** [if (s.trim())] *)
Definition has_text (s : jsstring) : bool := negb (forallb js_space s).

Definition createConversation (r : create_response) : option jsstring * list effect :=
  match r with
  | CreateFailed => (None, [Log Error "Error creating conversation"])
  | CreateResponse true id => (Some id, [Log Info "Conversation created"])
  | CreateResponse false _ => (None, [Log Warn "Failed to create conversation"])
  end.

Definition logWebSocketEvent (direction : string) (type : jsstring) : list effect :=
  if str_eqb type (u "input_audio_buffer.append")
     || str_eqb type (u "response.output_audio.delta")
  then [] else [Log Debug direction].

(** The distinct strings of [l], in the order of their first occurrence,
    as [[...new Set(l)]] lists them. *)
Fixpoint unique (seen l : list jsstring) : list jsstring :=
  match l with
  | [] => []
  | x :: r =>
      if existsb (str_eqb x) seen then unique seen r
      else x :: unique (x :: seen) r
  end.

Fixpoint join (sep : jsstring) (l : list jsstring) : jsstring :=
  match l with
  | [] => []
  | [x] => x
  | x :: r => x ++ sep ++ join sep r
  end.

Definition likedAuthor (t : LikedTweet) : jsstring :=
  let name := if nonempty (author_name t) then author_name t else author_username t in
  let username := author_username t in
  if nonempty name && nonempty username && negb (str_eqb name username)
  then name ++ u " (@" ++ username ++ u ")"
  else if nonempty username then username else name.

(** An optional string inside a template literal. *)
Definition shown (x : option jsstring) : jsstring :=
  match x with Some s => s | None => u "undefined" end.

Definition quote_mark : jsstring := [34%N].

(** The three code units that the source has between [about] and [like]. *)
Definition dash : jsstring := [8218%N; 196%N; 236%N].

Section Bridge.
Context `{Json.Numbers}.

(** The call id of the endpoint's URL, and the local hour,
    [new Date().getHours()], at the time the greeting is built. *)
Variable callId : jsstring.
Variable hour : nat.

Definition timeOfDay : jsstring :=
  if hour <? 12 then u "morning"
  else if hour <? 17 then u "afternoon" else u "evening".

Definition greetingPrompt (userContext : option UserContext) : jsstring :=
  let anonymous :=
    u "Greet the caller with " ++ quote_mark ++ u "Good " ++ timeOfDay ++ u "."
    ++ quote_mark ++ u " Introduce yourself briefly as their AI news anchor and ask if they'd like to hear about global trends or a specific topic. Keep it concise." in
  match userContext with
  | None => anonymous
  | Some c =>
      if authenticated (auth c) then
        let circleContext :=
          match liked_tweets (auth c) with
          | Some ((_ :: _) as tweets) =>
              let likedAuthors :=
                take 3 (unique [] (List.filter nonempty (map likedAuthor tweets))) in
              match likedAuthors with
              | [] => []
              | _ :: _ =>
                  u ", or on what your circle's been talking about " ++ dash
                  ++ u " like " ++ join (u ", ") likedAuthors
                  ++ u " from accounts you've been liking"
              end
          | _ => []
          end in
        u "Greet " ++ shown (x_name (auth c)) ++ u " with " ++ quote_mark
        ++ u "Good " ++ timeOfDay ++ u ", " ++ shown (x_name (auth c)) ++ u "."
        ++ quote_mark ++ u " Then say you can brief them on global trends"
        ++ circleContext ++ u ". End with " ++ quote_mark ++ u "What sounds good?"
        ++ quote_mark ++ u " Keep it concise and natural."
      else anonymous
  end.

Definition trySendGreeting : action := fun s =>
  if greetingSent s || negb (sessionReady s) || negb (truthy_str (streamSid s))
  then (s, [])
  else
    (set_greetingSent true s,
     [Log Info "Both XAI session and Twilio ready - sending greeting";
      Log Debug "SEND"; XaiSend (UserMessageItem (greetingPrompt (userContext s)));
      Log Debug "SEND"; XaiSend ResponseCreate;
      Log Info "AI Newscaster greeting requested"]).

(** *** The endpoint, up to the registration of the handlers *)

Definition onTwilioStart (sid : jsstring) : action :=
  modify (fun s => set_pendingTwilioReady true (set_twilioReady true (set_streamSid (Some sid) s)))
  >>> emit [Log Info "Twilio WebSocket ready"].

(** The lookups of the endpoint: the caller's authorization, then the
    conversation that will hold the transcript. *)
Definition lookups (user : token_response) (conversation : create_response) : action :=
  fun s =>
    if truthy_str (callPhoneNumbers s !! callId) then
      let phone := or_empty (callPhoneNumbers s !! callId) in
      let '(context, contexts) := initUserContext user callId phone (activeCallContexts s) in
      let s1 := set_userContext (Some context) (set_activeCallContexts contexts s) in
      let '(conversationId, logs) := createConversation conversation in
      (if truthy_str conversationId
       then set_callConversationIds
              (<[callId := or_empty conversationId]> (callConversationIds s1)) s1
       else s1,
       [Log Info "Looking up user auth";
        Log Info (if authenticated (auth context) then "User authenticated"
                  else "User not authenticated (no X account linked)")] ++ logs)
    else (s, []).

Definition onConnected (user : token_response) (conversation : create_response) : action :=
  lookups user conversation
  >>> emit [Log Info "Connecting to XAI API..."]
  >>> modify (set_readyState OPEN)
  >>> emit [Log Info "x.ai WebSocket connected successfully";
            Log Info "x.ai WebSocket readyState";
            Log Info "Setting up audio event handlers";
            Log Info "Server-side VAD enabled"]
  >>> (fun s =>
         if pendingTwilioReady s
         then (emit [Log Info "Twilio was already ready, checking if we can send greeting..."]
               >>> trySendGreeting) s
         else (s, []))
  >>> modify (set_phase Bridging).

Definition onConnectFailed (user : token_response) (conversation : create_response)
    (timeout : bool) : action :=
  lookups user conversation
  >>> emit [Log Info "Connecting to XAI API..."]
  >>> (if timeout
       then modify (set_readyState CLOSING) >>> emit [XaiCloseCall]
       else modify (set_readyState CLOSED) >>> emit [Log Error "x.ai WebSocket error"])
  >>> modify (set_phase Aborted).

(** *** Tool calls *)

(** The request that a task has just issued, if it awaits one. *)
Definition request (t : Async jsstring) : list effect :=
  match t with
  | Done _ => []
  | AwaitText c _ => [Provider c]
  | AwaitUser token name _ => [ProviderLookup token name]
  end.

Definition startTool (t : Async jsstring) : action := fun s =>
  (set_inflight (inflight s ++ [t]) s, request t).

(** The [.then] and the [.catch] callbacks of [executeToolCall]. *)
Definition onToolSettled (r : completion jsstring) : action := fun s =>
  match r with
  | Normal result =>
      (set_functionCallState no_function_call s,
       [Log Info "Sending tool result back to XAI";
        Log Debug "SEND";
        XaiSend (FunctionCallOutput (fc_callId (functionCallState s)) result);
        Log Debug "SEND"; XaiSend ResponseCreate])
  | Throw e =>
      (set_functionCallState no_function_call s,
       [Log Error "Tool execution failed";
        XaiSend (FunctionCallOutput (fc_callId (functionCallState s))
                   (Json.stringify (JObj [(u "error", JStr (u "Tool failed: " ++ e))])));
        XaiSend ResponseCreate])
  end.

Definition finished (t : Async jsstring) : option (completion jsstring) :=
  match t with Done r => Some r | _ => None end.

Definition pending (t : Async jsstring) : bool :=
  match t with Done _ => false | _ => true end.

Fixpoint settleAll (rs : list (completion jsstring)) : action :=
  match rs with
  | [] => skip
  | r :: rs' => onToolSettled r >>> settleAll rs'
  end.

(** The callbacks of the promises that have settled run once the current
    handler returns, before the next event. *)
Definition microtasks : action := fun s =>
  settleAll (omap finished (inflight s))
    (set_inflight (List.filter pending (inflight s)) s).

Definition onProviderText (i : nat) (reply : completion jsstring) : action := fun s =>
  match inflight s !! i with
  | Some (AwaitText _ k) =>
      (set_inflight (<[i := k reply]> (inflight s)) s, request (k reply))
  | _ => (s, [])
  end.

Definition onProviderUser (i : nat) (reply : completion (option XUser)) : action := fun s =>
  match inflight s !! i with
  | Some (AwaitUser _ _ k) =>
      (set_inflight (<[i := k reply]> (inflight s)) s, request (k reply))
  | _ => (s, [])
  end.

(** [JSON.parse(functionCallState.arguments || '{}')], and [{}] with a log
    line when it throws. *)
Definition toolArguments (arguments : jsstring) : json * list effect :=
  match Json.parse (if nonempty arguments then arguments else u "{}") with
  | Some args => (args, [])
  | None => (JObj [], [Log Error "Failed to parse function args"])
  end.

Definition onResponseDone : action := fun s =>
  let state := functionCallState s in
  if truthy_str (fc_name state) && truthy_str (fc_callId state) then
    let toolName := or_empty (fc_name state) in
    let '(args, logs) := toolArguments (fc_arguments state) in
    (emit (logs ++ [Log Info "Executing tool"])
     >>> startTool (executeToolCall (activeCallContexts s) callId toolName args)) s
  else
    (s, [Log Info "BOT FINISHED SPEAKING - Listening for user..."]).

(** *** Messages of the x.ai socket *)

(** The test on the conversation id and on the text, then the request of
    [sendTranscriptMessage], which nothing awaits. *)
Definition sendTranscriptMessage (r : role) (content : jsstring) : action := fun s =>
  let conversationId := callConversationIds s !! callId in
  if truthy_str conversationId && has_text content
  then (s, [Backend (SaveTranscript (or_empty conversationId) r content)])
  else (s, []).

Definition onSessionUpdated : action :=
  modify (set_sessionReady true)
  >>> emit [Log Info "Session updated - PCMU format confirmed, audio streaming enabled"]
  >>> trySendGreeting
  >>> (fun s =>
         if negb (greetingSent s)
         then (set_pollers (pollers s ++ [true]) s,
               [Log Info "Waiting for Twilio streamSid before sending greeting..."])
         else (s, [])).

(** The first chain of tests on [message.type], after the test for an
    audio delta. *)
Definition firstChain (message : message) : action :=
  let typed t := str_eqb (type message) (u t) in
  if typed "response.output_audio_transcript.delta" then
    emit [Log Info "Bot"]
    >>> modify (fun s =>
          let currentBuffer := or_empty (botTranscriptBuffers s !! callId) in
          set_botTranscriptBuffers
            (<[callId := currentBuffer ++ or_empty (delta message)]> (botTranscriptBuffers s)) s)
  else if typed "response.created" then
    emit [Log Info "BOT STARTED SPEAKING"]
  else if typed "response.function_call_arguments.delta" then
    modify (fun s =>
      let state := functionCallState s in
      set_functionCallState
        {| fc_callId := fc_callId state; fc_name := fc_name state;
           fc_arguments := fc_arguments state ++ or_empty (delta message) |} s)
  else if typed "response.function_call_arguments.done" then
    modify (fun s =>
      set_functionCallState
        {| fc_callId := call_id message; fc_name := name message;
           fc_arguments := fc_arguments (functionCallState s) |} s)
    >>> emit [Log Info "Function call requested"; Log Info "Arguments"]
  else if typed "response.done" then onResponseDone
  else if typed "session.updated" then onSessionUpdated
  else if typed "conversation.created" then
    emit [Log Info "Call connected - Using SERVER-SIDE VAD";
          Log Info "x.ai conversation_id";
          Log Debug "SEND"; XaiSend SessionUpdate;
          Log Info "Server-side VAD configured, waiting for session.updated..."]
  else if typed "input_audio_buffer.speech_started" then
    emit [Log Info "USER STARTED SPEAKING (server VAD)";
          Log Info "VAD triggered at audio_start_ms"]
    >>> (fun s => (s, [TwilioSend (Clear (streamSid s))]))
  else if typed "input_audio_buffer.speech_stopped" then
    emit [Log Info "USER STOPPED SPEAKING";
          Log Info "Server will automatically process speech..."]
  else if typed "input_audio_buffer.committed" then
    emit [Log Info "Audio buffer committed"]
  else if typed "conversation.item.input_audio_transcription.completed" then
    emit [Log Info "User said"]
    >>> sendTranscriptMessage User (or_empty (transcript message))
  else skip.

(** The second chain, which every message reaches that did not return. *)
Definition secondChain (message : message) : action :=
  let typed t := str_eqb (type message) (u t) in
  if typed "ping" then skip
  else if typed "error" then
    emit [Log Error "x.ai API ERROR:"; Log Error "Type"; Log Error "Code";
          Log Error "Message"; Log Error "Event ID"]
  else if typed "conversation.item.added" then skip
  else if typed "response.output_item.added" then skip
  else if typed "response.output_item.done" then skip
  else if typed "response.content_part.added" then skip
  else if typed "response.content_part.done" then skip
  else if typed "response.output_audio.done" then skip
  else if typed "response.output_audio_transcript.done" then
    (fun s => sendTranscriptMessage Assistant (or_empty (botTranscriptBuffers s !! callId)) s)
    >>> modify (fun s => set_botTranscriptBuffers (delete callId (botTranscriptBuffers s)) s)
  else emit [Log Debug "Unknown"].

Definition onXaiMessage (data : option message) : action :=
  match data with
  | None => emit [Log Error "Error processing message from x.ai"]
  | Some message =>
      emit (logWebSocketEvent "RECV" (type message))
      >>> emit (if str_eqb (type message) (u "response.output_audio.delta")
                   || str_eqb (type message) (u "input_audio_buffer.append")
                then [] else [Log Info "message.type"])
      >>> (fun s =>
             if str_eqb (type message) (u "response.output_audio.delta")
                && truthy_str (delta message)
             then
               if negb (truthy_str (streamSid s))
               then (s, [Log Warn "Cannot send audio to Twilio - streamSid not set yet"])
               else (emit [TwilioSend (Media (or_empty (delta message))
                                         (or_empty (streamSid s)))]
                     >>> secondChain message) s
             else (firstChain message >>> secondChain message) s)
  end.

(** *** Audio of the Twilio socket *)

(** [audioPacketCount++] on a double: past 2^53 the sum rounds back. *)
Definition increment (n : N) : N :=
  (if n <? 9007199254740992 then n + 1 else n)%N.

Definition onTwilioMedia (track payload : jsstring) : action := fun s =>
  let count := increment (audioPacketCount s) in
  let s := set_audioPacketCount count s in
  if str_eqb track (u "inbound") then
    if negb (sessionReady s) then
      (s, if (count =? 1)%N
          then [Log Info "Waiting for session.updated before streaming audio..."]
          else [])
    else
      let logs :=
        if ((count =? 1) || (count mod 100 =? 0))%N
        then [Log Info "Audio packet (server-side VAD active)"] else [] in
      match readyState s with
      | OPEN => (s, logs ++ [XaiSend (InputAudioBufferAppend payload)])
      | _ => (s, logs ++ [Log Error "Cannot send audio! x.ai WebSocket not connected"])
      end
  else (s, []).

(** *** The greeting poll *)

Definition onPollTick (i : nat) : action := fun s =>
  match pollers s !! i with
  | Some true =>
      if truthy_str (streamSid s)
      then (modify (fun s => set_pollers (<[i := false]> (pollers s)) s)
            >>> trySendGreeting) s
      else (s, [])
  | _ => (s, [])
  end.

Definition onPollTimeout (i : nat) : action :=
  modify (fun s => set_pollers (<[i := false]> (pollers s)) s).

(** *** Errors and closes of the two sockets *)

Definition cleanup : action := fun s =>
  (set_botTranscriptBuffers (delete callId (botTranscriptBuffers s))
     (set_callConversationIds (delete callId (callConversationIds s))
        (set_callPhoneNumbers (delete callId (callPhoneNumbers s))
           (set_activeCallContexts (cleanupCallContext callId (activeCallContexts s)) s))),
   [Log Info "Call context cleaned up"]).

Definition onTwilioClose : action :=
  emit [Log Info "Twilio WebSocket closed, disconnecting x.ai"; XaiCloseCall]
  >>> modify (fun s =>
        set_readyState (match readyState s with CLOSED => CLOSED | _ => CLOSING end) s)
  >>> (fun s =>
         let conversationId := callConversationIds s !! callId in
         if truthy_str conversationId
         then (set_closing (S (closing s)) s,
               [Backend (EndConversation (or_empty conversationId))])
         else cleanup s).

(** The request of [endConversation] has settled: the close handler that
    awaited it goes on. *)
Definition onConversationEnded (failed : bool) : action := fun s =>
  match closing s with
  | O => (s, [])
  | S n =>
      (emit [if failed then Log Error "Error ending conversation"
             else Log Info "Conversation ended"]
       >>> modify (set_closing n) >>> cleanup) s
  end.

Definition onXaiClose : action :=
  modify (set_readyState CLOSED) >>> emit [Log Error "x.ai WebSocket CLOSED"].

(** *** One event, and a whole call *)

(** An event runs the listeners that are registered when it comes.  The
    [error] listener of the x.ai socket that awaits the connection is
    never removed: once the promise has settled it only logs, on a bridged
    call before the [error] listener of the bridge, and after a failed
    connection alone. *)
Definition handle (e : event) : action := fun s =>
  match e, phase s with
  | TwilioStart sid, _ => onTwilioStart sid s
  | Connected user conversation, Connecting => onConnected user conversation s
  | ConnectFailed user conversation timeout, Connecting =>
      onConnectFailed user conversation timeout s
  | XaiMessage data, Bridging => (onXaiMessage data >>> microtasks) s
  | TwilioMedia track payload, Bridging => onTwilioMedia track payload s
  | PollTick i, Bridging => onPollTick i s
  | PollTimeout i, Bridging => onPollTimeout i s
  | ProviderText i reply, Bridging => (onProviderText i reply >>> microtasks) s
  | ProviderUser i reply, Bridging => (onProviderUser i reply >>> microtasks) s
  | XaiError, Bridging =>
      (s, [Log Error "x.ai WebSocket error"; Log Error "x.ai WebSocket ERROR"])
  | XaiError, Aborted => (s, [Log Error "x.ai WebSocket error"])
  | XaiClose, Bridging => onXaiClose s
  | TwilioError, Bridging => (s, [Log Error "Twilio WebSocket error"])
  | TwilioClose, Bridging => onTwilioClose s
  | ConversationEnded failed, Bridging => onConversationEnded failed s
  | _, _ => (s, [])
  end.

Fixpoint run (events : list event) : action :=
  match events with
  | [] => skip
  | e :: rest => handle e >>> run rest
  end.

End Bridge.

(** The endpoint is entered: the maps are what the other calls and the
    [/twiml] route have made them. *)
Definition enter (phones conversations buffers : gmap jsstring jsstring)
    (contexts : gmap jsstring UserContext) : Session :=
  {| callPhoneNumbers := phones; callConversationIds := conversations;
     botTranscriptBuffers := buffers; activeCallContexts := contexts;
     phase := Connecting; streamSid := None; twilioReady := false;
     pendingTwilioReady := false; userContext := None;
     readyState := CONNECTING; functionCallState := no_function_call;
     sessionReady := false; greetingSent := false; audioPacketCount := 0%N;
     pollers := []; inflight := []; closing := 0 |}.

(** [callPhoneNumbers.set(callId, from)] of the [/twiml] route. *)
Definition twiml (callId from : jsstring) (phones : gmap jsstring jsstring)
    : gmap jsstring jsstring :=
  <[callId := from]> phones.

(** Numbers for the worked examples: exact on the literals that are one to
    fifteen digits without sign, fraction or exponent, which is all that
    the examples contain. *)
Definition digits_value (x : jsstring) : N :=
  fold_left (fun n c => (10 * n + (c - 48))%N) x 0%N.

Definition plain_digits (x : jsstring) : bool :=
  nonempty x && forallb Json.is_digit x.

Definition integer_literals : Json.Numbers := {|
  Json.number_nonzero x := negb (digits_value x =? 0)%N;
  Json.number_finite _ := true;
  Json.number_to_string x := x;
  Json.number_gt_280 x := (280 <? digits_value x)%N;
  Json.string_gt_280 s := plain_digits s && (280 <? digits_value s)%N
|}.

(** ** The vocabulary of the properties *)

(** The names of the type [ToolName]. *)
Definition ToolName : list jsstring :=
  [u "search_news_topic"; u "get_trending_news"; u "get_user_posts";
   u "get_my_following"; u "send_dm"; u "post_tweet"].



(** A caller who has linked an X account, for the worked examples. *)
Definition ann : UserContext :=
  {| phoneNumber := u "+15550100";
     auth := {| authenticated := true; access_token := Some (u "token-ann");
                x_user_id := Some (u "42"); x_username := Some (u "ann");
                x_name := Some (u "Ann"); following := None;
                liked_tweets := None; seeded_at := None |} |}.

(** How many of the effects satisfy [p]. *)
Definition count (p : effect -> bool) (o : list effect) : nat :=
  length (List.filter p o).

(** The scripted opening turn: the user message that asks for the greeting. *)
Definition is_greeting (e : effect) : bool :=
  match e with XaiSend (UserMessageItem _) => true | _ => false end.

(** An inbound audio frame forwarded to the x.ai socket. *)
Definition is_append (e : effect) : bool :=
  match e with XaiSend (InputAudioBufferAppend _) => true | _ => false end.

(** An outbound audio frame sent to the Twilio socket. *)
Definition is_media (e : effect) : bool :=
  match e with TwilioSend (Media _ _) => true | _ => false end.

(** The log line for an inbound frame dropped before the session is ready. *)
Definition is_drop_log (e : effect) : bool :=
  match e with
  | Log Info text => String.eqb text "Waiting for session.updated before streaming audio..."
  | _ => false
  end.

(** The log line that ends the release of the per-call entries. *)
Definition is_cleanup (e : effect) : bool :=
  match e with
  | Log Info text => String.eqb text "Call context cleaned up"
  | _ => false
  end.

Definition is_twilio_close (e : event) : bool :=
  match e with TwilioClose => true | _ => false end.

Definition is_twilio_start (e : event) : bool :=
  match e with TwilioStart _ => true | _ => false end.

Definition is_session_updated (e : event) : bool :=
  match e with
  | XaiMessage (Some m) => str_eqb (type m) (u "session.updated")
  | _ => false
  end.

(** A message that has only a type. *)
Definition bare (t : string) : message :=
  {| type := u t; delta := None; call_id := None; name := None; transcript := None |}.

(** A fragment of the arguments of a tool call. *)
Definition fragment (d : option jsstring) : message :=
  {| type := u "response.function_call_arguments.delta"; delta := d;
     call_id := None; name := None; transcript := None |}.

(** An audio delta of the assistant. *)
Definition audio_delta (d : jsstring) : message :=
  {| type := u "response.output_audio.delta"; delta := Some d;
     call_id := None; name := None; transcript := None |}.

(** The end of the arguments of a tool call. *)
Definition arguments_done (call tool : jsstring) : message :=
  {| type := u "response.function_call_arguments.done"; delta := None;
     call_id := Some call; name := Some tool; transcript := None |}.

(** No promise has settled without its callback having run: so it is
    between two events. *)
Definition quiet (s : Session) : Prop := Forall (fun t => pending t = true) (inflight s).

(** An action keeps a relation between the state before, the effects and
    the state after. *)
Definition respects (R : Session -> list effect -> Session -> Prop) (a : action) : Prop :=
  forall s, R s (a s).2 (a s).1.

Definition b2n (b : bool) : nat := if b then 1 else 0.

(** The relations that the steps of a call keep. *)

(** The greetings sent by a step are the rise of [greetingSent]. *)
Definition greeting_step (s : Session) (o : list effect) (s' : Session) : Prop :=
  count is_greeting o + b2n (greetingSent s) = b2n (greetingSent s').

(** Each release of the per-call entries ends one suspended close handler. *)
Definition teardown_step (s : Session) (o : list effect) (s' : Session) : Prop :=
  count is_cleanup o + closing s' = closing s.

(** While bridging, the entries of the three maps that only the teardown
    deletes stay as they are in a step that does not release them. *)
Definition kept_step (s : Session) (o : list effect) (s' : Session) : Prop :=
  phase s = Bridging ->
  phase s' = Bridging
  /\ (count is_cleanup o = 0 ->
      callPhoneNumbers s' = callPhoneNumbers s
      /\ callConversationIds s' = callConversationIds s
      /\ activeCallContexts s' = activeCallContexts s).

(** A session that is not ready after a step was not ready before it, and
    the step forwarded no audio to the x.ai socket. *)
Definition ready_step (s : Session) (o : list effect) (s' : Session) : Prop :=
  sessionReady s' = false -> sessionReady s = false /\ count is_append o = 0.

(** The drop is logged by the first media message only. *)
Definition drop_log_step (s : Session) (o : list effect) (s' : Session) : Prop :=
  count is_drop_log o + b2n (audioPacketCount s' =? 0)%N
  <= b2n (audioPacketCount s =? 0)%N.

(** Without a stream id, a step that is not a stream start leaves the call
    without one and sends no audio to the Twilio socket. *)
Definition stream_step (s : Session) (o : list effect) (s' : Session) : Prop :=
  truthy_str (streamSid s) = false ->
  truthy_str (streamSid s') = false /\ count is_media o = 0.

(** Until the session is ready, a step that is not [session.updated]
    leaves it so and forwards no audio to the x.ai socket. *)
Definition unready_step (s : Session) (o : list effect) (s' : Session) : Prop :=
  sessionReady s = false -> sessionReady s' = false /\ count is_append o = 0.

(** The two states differ in the pending tool call and the tasks only. *)
Definition tools_step (s : Session) (o : list effect) (s' : Session) : Prop :=
  s' = set_functionCallState (functionCallState s') (set_inflight (inflight s') s).

(** The tasks are the same before and after. *)
Definition inflight_step (s : Session) (o : list effect) (s' : Session) : Prop :=
  inflight s' = inflight s.

(** While bridging with no greeting sent and no poll alive, a step that is
    not [session.updated] sends no greeting and starts no poll. *)
Definition missed (s : Session) : Prop :=
  phase s = Bridging /\ greetingSent s = false /\ Forall (fun p => p = false) (pollers s).

Definition missed_step (s : Session) (o : list effect) (s' : Session) : Prop :=
  missed s -> missed s' /\ count is_greeting o = 0.

(** How many of the events satisfy [p]. *)
Definition occurrences (p : event -> bool) (events : list event) : nat :=
  length (List.filter p events).

(** A message sent on the x.ai socket. *)
Definition is_xai_send (e : effect) : bool :=
  match e with XaiSend _ => true | _ => false end.

(** Every way the task can go ends with a fulfilled promise. *)
Inductive fulfils {A : Type} : Async A -> Prop :=
| fulfils_done (a : A) : fulfils (Done (Normal a))
| fulfils_text c k : (forall r, fulfils (k r)) -> fulfils (AwaitText c k)
| fulfils_user token name k : (forall r, fulfils (k r)) -> fulfils (AwaitUser token name k).

(** The call of the worked examples: the [/twiml] route has stored the
    number of the caller, the endpoint is entered, the lookups answer and
    the x.ai socket opens; the Twilio stream has started, or not yet. *)
Definition call_1 : jsstring := u "call_1".

Definition entered : Session := enter (twiml call_1 (u "+15550100") ∅) ∅ ∅ ∅.

Definition connected : event :=
  Connected (Response true (auth ann)) (CreateResponse true (u "conv_1")).

Definition bridged : Session :=
  (run (H := integer_literals) call_1 9 [TwilioStart (u "MZ1"); connected] entered).1.

Definition bridged_without_stream : Session :=
  (run (H := integer_literals) call_1 9 [connected] entered).1.

(** The first fragment of the example of the arguments, [{"a":1], to
    which the second adds the closing brace. *)
Definition open_object : jsstring := u "{" ++ quote_mark ++ u "a" ++ quote_mark ++ u ":1".

(** The fragments of the arguments among other events. *)

(** The text that a fragment of the arguments carries. *)
Definition fragment_of (e : event) : option jsstring :=
  match e with
  | XaiMessage (Some m) =>
      if str_eqb (type m) (u "response.function_call_arguments.delta")
      then Some (or_empty (delta m)) else None
  | _ => None
  end.

(** The end of a response. *)
Definition is_response_done (e : event) : bool :=
  match e with
  | XaiMessage (Some m) => str_eqb (type m) (u "response.done")
  | _ => false
  end.

(** While bridging with no tool in flight, a step that is neither a
    fragment nor [response.done] leaves the call so and keeps the text of
    the arguments. *)
Definition arguments_step (s : Session) (o : list effect) (s' : Session) : Prop :=
  phase s = Bridging -> inflight s = [] ->
  phase s' = Bridging /\ inflight s' = []
  /\ fc_arguments (functionCallState s') = fc_arguments (functionCallState s).

(** ** x-api.ts

    The searches, the trends and the posts of a user.  A reply of the X API
    is taken to have the shape that the interfaces of the file declare, its
    counts being natural numbers; [xApiRequest] rejects when the request
    fails, times out or the body is not JSON.  The times of a request and
    the encoding of its URL are left out.  The topic of a search is
    whatever the arguments of the tool hold under [topic]; the country and
    the user name are strings, as the signatures say. *)

Module XApi.

Record Metrics := {
  like_count : N;
  retweet_count : N;
  reply_count : N
}.

Record XPost := {
  id : jsstring;
  text : jsstring;
  author_id : option jsstring;
  created_at : option jsstring;
  public_metrics : option Metrics
}.

Record XUser := {
  user_id : jsstring;
  name : jsstring;
  username : jsstring
}.

Record SearchResponse := {
  data : option (list XPost);
  includes_users : option (list XUser);
  next_token : option jsstring;
  errors : option (list jsstring)
}.

Record Trend := {
  trend_name : jsstring;
  tweet_count : option N
}.

Record TrendResponse := {
  trends : option (list Trend);
  trend_errors : option (list jsstring)
}.


(** What a function asks of [xApiRequest]. *)
Inductive api_request : Type :=
| SearchRecent (query : jsstring) (max_results : N) (page : option jsstring)
| TrendsByWoeid (woeid : option N)
| UserByUsername (cleanUsername : jsstring)
| UserTweets (userId : jsstring).

(** A count, as [JSON.stringify] is given it. *)
Definition number (n : N) : json :=
  JNum (u (DecimalString.NilEmpty.string_of_uint (N.to_uint n))).

(** A property whose value may be [undefined]: [JSON.stringify] leaves it
    out then. *)
Definition optional (k : string) (v : option json) : list (jsstring * json) :=
  match v with Some x => [(u k, x)] | None => [] end.

(** [{ success: false, message, <list>: [] }] *)
Definition failure (message : jsstring) (list : string) : json :=
  JObj [(u "success", JBool false); (u "message", JStr message); (u list, JArr [])].

(** [errors && errors.length > 0], and then [errors[0].message] *)
Definition first_error (errors : option (list jsstring)) : option jsstring :=
  match errors with
  | Some (message :: _) => Some message
  | _ => None
  end.

(** [userMap]: each user of the list under its id, a later one replacing
    an earlier one of the same id. *)
Definition add_users (users : option (list XUser)) (userMap : gmap jsstring XUser)
    : gmap jsstring XUser :=
  match users with
  | Some l => foldl (fun m x => <[user_id x := x]> m) userMap l
  | None => userMap
  end.

(** [userMap.get(post.author_id || '')?.name || 'Unknown'] *)
Definition author (userMap : gmap jsstring XUser) (post : XPost) : jsstring :=
  match userMap !! or_empty (author_id post) with
  | Some x => if nonempty (name x) then name x else u "Unknown"
  | None => u "Unknown"
  end.

(** [userMap.get(post.author_id || '')?.username || ''] *)
Definition author_username (userMap : gmap jsstring XUser) (post : XPost) : jsstring :=
  match userMap !! or_empty (author_id post) with
  | Some x => username x
  | None => []
  end.

(** [post.public_metrics?.like_count || 0] *)
Definition likes (post : XPost) : N :=
  match public_metrics post with Some m => like_count m | None => 0%N end.

Definition retweets (post : XPost) : N :=
  match public_metrics post with Some m => retweet_count m | None => 0%N end.

Section Functions.
Context `{Json.Numbers}.

(** *** [searchNewsTopic] *)

Definition search_query (what : jsstring) : jsstring := what ++ u " lang:en -is:retweet".

Definition search_post (userMap : gmap jsstring XUser) (post : XPost) : json :=
  JObj [(u "text", JStr (text post));
        (u "author", JStr (author userMap post));
        (u "username", JStr (author_username userMap post));
        (u "likes", number (likes post));
        (u "retweets", number (retweets post))].

(** The requests made and how the promise settles: rejected, or fulfilled
    with the value that is stringified; given the reply to the request for
    the first page and the reply to the one for the second, should it be
    made.  The query is built before the [try]: a topic that has no text
    rejects the promise, and no request is made.  The messages print the
    topic again, which gives the text that the query has. *)
Definition searchNewsTopic (topic : value)
    (reply1 reply2 : completion SearchResponse) : list api_request * completion json :=
  match to_string topic with
  | Throw error => ([], Throw error)
  | Normal printed =>
      let first := SearchRecent (search_query printed) 20 None in
      match reply1 with
      | Throw error =>
          ([first],
           Normal (failure (u "Error searching for " ++ quote_mark ++ printed ++ quote_mark
                            ++ u ": " ++ error) "posts"))
      | Normal response1 =>
          match first_error (errors response1) with
          | Some message => ([first], Normal (failure message "posts"))
          | None =>
              match data response1 with
              | None | Some [] =>
                  ([first],
                   Normal (failure (u "No recent posts found about " ++ quote_mark ++ printed
                                    ++ quote_mark) "posts"))
              | Some page1 =>
                  let userMap1 := add_users (includes_users response1) ∅ in
                  let '(requests, allPosts, userMap) :=
                    if truthy_str (next_token response1) then
                      let second := SearchRecent (search_query printed) 20
                                      (next_token response1) in
                      match reply2 with
                      | Normal response2 =>
                          ([first; second],
                           page1 ++ match data response2 with
                                    | Some page2 => page2
                                    | None => []
                                    end,
                           add_users (includes_users response2) userMap1)
                      | Throw _ => ([first; second], page1, userMap1)
                      end
                    else ([first], page1, userMap1) in
                  let posts := map (search_post userMap) allPosts in
                  (requests,
                   Normal (JObj ([(u "success", JBool true)] ++ optional "topic" topic
                                 ++ [(u "post_count", number (N.of_nat (length posts)));
                                     (u "posts", JArr posts)])))
              end
          end
      end
  end.

(** *** [getTrendingNews] *)

Definition WOEID_MAP : list (jsstring * N) :=
  [(u "US", 23424977%N); (u "UK", 23424975%N); (u "CA", 23424775%N); (u "AU", 23424748%N)].

Fixpoint own_property {A} (k : jsstring) (l : list (jsstring * A)) : option A :=
  match l with
  | [] => None
  | (k', v) :: r => if str_eqb k k' then Some v else own_property k r
  end.

(** The names that every object literal inherits a property for. *)
Definition inherited : list jsstring :=
  [u "constructor"; u "__defineGetter__"; u "__defineSetter__"; u "hasOwnProperty";
   u "__lookupGetter__"; u "__lookupSetter__"; u "isPrototypeOf";
   u "propertyIsEnumerable"; u "toString"; u "valueOf"; u "__proto__";
   u "toLocaleString"].

(** [WOEID_MAP[country] || WOEID_MAP['US']]: the number of the country, or
    that of the US; [None] stands for the function or the object that
    [WOEID_MAP] inherits under [country]. *)
Definition woeid (country : jsstring) : option N :=
  match own_property country WOEID_MAP with
  | Some n => Some n
  | None => if existsb (str_eqb country) inherited then None
            else own_property (u "US") WOEID_MAP
  end.

(** [trend.tweet_count || 0] *)
Definition volume (trend : Trend) : N :=
  match tweet_count trend with Some n => n | None => 0%N end.

(** [Array.prototype.sort] with the comparator
    [(a, b) => (b.tweet_count || 0) - (a.tweet_count || 0)]: the sort is
    stable, so a trend goes before the first one of a smaller or equal
    volume that came after it. *)
Fixpoint insert_trend (x : Trend) (l : list Trend) : list Trend :=
  match l with
  | [] => [x]
  | y :: r => if (volume x <? volume y)%N then y :: insert_trend x r else x :: y :: r
  end.

Definition sort_trends (l : list Trend) : list Trend := foldr insert_trend [] l.

Definition topTrends (l : list Trend) : list Trend := take 6 (sort_trends l).

Definition trend_post (userMap : gmap jsstring XUser) (post : XPost) : json :=
  JObj [(u "text", JStr (text post));
        (u "author", JStr (author userMap post));
        (u "likes", number (likes post))].

(** What the callback of [topTrends.map] gives for a trend, from the reply
    to its search. *)
Definition trend_with_posts (trend : Trend) (reply : completion SearchResponse) : json :=
  let posts :=
    match reply with
    | Normal searchResponse =>
        let userMap := add_users (includes_users searchResponse) ∅ in
        map (trend_post userMap)
          (take 5 match data searchResponse with Some l => l | None => [] end)
    | Throw _ => []
    end in
  JObj ([(u "trend_name", JStr (trend_name trend))]
        ++ optional "tweet_count" (number <$> tweet_count trend)
        ++ [(u "posts", JArr posts)]).

(** The replies to the searches come by the place of the trend in
    [topTrends]. *)
Definition getTrendingNews (country : jsstring)
    (reply : completion TrendResponse)
    (search : nat -> completion SearchResponse) : list api_request * json :=
  let first := TrendsByWoeid (woeid country) in
  match reply with
  | Throw error => ([first], failure (u "Error fetching trends: " ++ error) "trends")
  | Normal trendsResponse =>
      match first_error (trend_errors trendsResponse) with
      | Some message => ([first], failure message "trends")
      | None =>
          match trends trendsResponse with
          | None | Some [] =>
              ([first], failure (u "No trends found for " ++ country) "trends")
          | Some l =>
              (first :: map (fun trend => SearchRecent (search_query (trend_name trend)) 10 None)
                          (topTrends l),
               JObj [(u "success", JBool true); (u "country", JStr country);
                     (u "trends",
                      JArr (imap (fun i trend => trend_with_posts trend (search i))
                              (topTrends l)))])
          end
      end
  end.

(** *** [getUserPosts] *)

(** [s.replace('@', '')]: the first [@] is taken out. *)
Fixpoint remove_first_at (s : jsstring) : jsstring :=
  match s with
  | [] => []
  | c :: r => if (c =? 64)%N then r else c :: remove_first_at r
  end.

Fixpoint trim_start (s : jsstring) : jsstring :=
  match s with
  | c :: r => if js_space c then trim_start r else s
  | [] => []
  end.

Definition trim (s : jsstring) : jsstring := rev (trim_start (rev (trim_start s))).

Definition cleanUsername (username : jsstring) : jsstring := trim (remove_first_at username).



End Functions.

End XApi.

(** ** index.ts: the [/twiml] route *)








(** ** The vocabulary of the further properties *)

(** The entries of the four maps under another id are the same before and
    after. *)
Definition others_step (other : jsstring) (s : Session) (o : list effect) (s' : Session) : Prop :=
  callPhoneNumbers s' !! other = callPhoneNumbers s !! other
  /\ callConversationIds s' !! other = callConversationIds s !! other
  /\ botTranscriptBuffers s' !! other = botTranscriptBuffers s !! other
  /\ activeCallContexts s' !! other = activeCallContexts s !! other.

(** A request to the backend. *)
Definition is_backend (e : effect) : bool :=
  match e with Backend _ => true | _ => false end.

(** A log line: nothing is sent and nothing is closed. *)
Definition is_log (e : effect) : bool :=
  match e with Log _ _ => true | _ => false end.

(** While bridging without a conversation id, a step leaves the call so
    and makes no request to the backend. *)
Definition unrecorded_step (callId : jsstring) (s : Session) (o : list effect) (s' : Session) : Prop :=
  phase s = Bridging -> truthy_str (callConversationIds s !! callId) = false ->
  phase s' = Bridging /\ truthy_str (callConversationIds s' !! callId) = false
  /\ count is_backend o = 0.

(** While bridging with the x.ai socket not open, a step leaves the call
    so and forwards no audio to it. *)
Definition closed_step (s : Session) (o : list effect) (s' : Session) : Prop :=
  phase s = Bridging -> readyState s <> OPEN ->
  phase s' = Bridging /\ readyState s' <> OPEN /\ count is_append o = 0.

(** Once the endpoint has given up, a step only logs and leaves the four
    maps as they are. *)
Definition aborted_step (s : Session) (o : list effect) (s' : Session) : Prop :=
  phase s = Aborted ->
  phase s' = Aborted
  /\ callPhoneNumbers s' = callPhoneNumbers s
  /\ callConversationIds s' = callConversationIds s
  /\ botTranscriptBuffers s' = botTranscriptBuffers s
  /\ activeCallContexts s' = activeCallContexts s
  /\ forallb is_log o = true.

(** The log line of the [.catch] callback of a dispatch. *)
Definition is_catch (e : effect) : bool :=
  match e with
  | Log Error text => String.eqb text "Tool execution failed"
  | _ => false
  end.

(** A request that is made with the access token of the caller. *)
Definition is_user_context_call (c : provider_call) : bool :=
  match c with
  | GetMyFollowing _ _ | SendDM _ _ _ | PostTweet _ _ => true
  | _ => false
  end.

Definition is_user_context_request (e : effect) : bool :=
  match e with
  | Provider c => is_user_context_call c
  | ProviderLookup _ _ => true
  | _ => false
  end.

(** However the providers reply, the task makes no request with the token
    of a caller. *)
Inductive unprivileged {A : Type} : Async A -> Prop :=
| unprivileged_done r : unprivileged (Done r)
| unprivileged_text c k :
    is_user_context_call c = false -> (forall r, unprivileged (k r)) ->
    unprivileged (AwaitText c k).

(** The tasks in flight all end fulfilled before and after, and the
    [.catch] callback does not run. *)
Definition fulfilled_step (s : Session) (o : list effect) (s' : Session) : Prop :=
  Forall fulfils (inflight s) ->
  Forall fulfils (inflight s') /\ count is_catch o = 0.

(** While bridging for a caller who is not linked, with tasks that make
    no request with a token, a step leaves the call so and makes no such
    request. *)
Definition unlinked_step (callId : jsstring) (s : Session) (o : list effect) (s' : Session) : Prop :=
  phase s = Bridging ->
  not_linked (getCallContext (activeCallContexts s) callId) = true ->
  Forall unprivileged (inflight s) ->
  phase s' = Bridging
  /\ not_linked (getCallContext (activeCallContexts s') callId) = true
  /\ Forall unprivileged (inflight s')
  /\ count is_user_context_request o = 0.

(** The tasks are the same before and after, and no request with a token
    is made. *)
Definition silent_step (s : Session) (o : list effect) (s' : Session) : Prop :=
  inflight s' = inflight s /\ count is_user_context_request o = 0.

(** What the lookups of the endpoint set stays as it is. *)
Definition looked_up_step (s : Session) (o : list effect) (s' : Session) : Prop :=
  userContext s' = userContext s
  /\ activeCallContexts s' = activeCallContexts s
  /\ callConversationIds s' = callConversationIds s
  /\ callPhoneNumbers s' = callPhoneNumbers s.

(** The payload of a frame of the caller's track. *)
Definition inbound (e : event) : option jsstring :=
  match e with
  | TwilioMedia track payload => if str_eqb track (u "inbound") then Some payload else None
  | _ => None
  end.

(** The audio of a frame forwarded to the x.ai socket. *)
Definition appended (e : effect) : option jsstring :=
  match e with XaiSend (InputAudioBufferAppend audio) => Some audio | _ => None end.

(** The audio of a delta of the assistant's speech. *)
Definition outbound (e : event) : option jsstring :=
  match e with
  | XaiMessage (Some m) =>
      if str_eqb (type m) (u "response.output_audio.delta") && truthy_str (delta m)
      then delta m else None
  | _ => None
  end.

(** The payload and the stream id of a [media] message sent to the Twilio
    socket. *)
Definition played (e : effect) : option (jsstring * jsstring) :=
  match e with TwilioSend (Media payload sid) => Some (payload, sid) | _ => None end.

(** The events after which the x.ai socket is no longer open. *)
Definition is_xai_down (e : event) : bool :=
  match e with XaiClose | TwilioClose => true | _ => false end.

(** A step forwards no audio to the x.ai socket. *)
Definition no_append_step (s : Session) (o : list effect) (s' : Session) : Prop :=
  omap appended o = [].

(** A step sends no audio to the Twilio socket. *)
Definition no_media_step (s : Session) (o : list effect) (s' : Session) : Prop :=
  omap played o = [].

(** While bridging with the session ready and the x.ai socket open, a step
    that closes no socket leaves the call so. *)
Definition streaming_step (s : Session) (o : list effect) (s' : Session) : Prop :=
  phase s = Bridging -> sessionReady s = true -> readyState s = OPEN ->
  phase s' = Bridging /\ sessionReady s' = true /\ readyState s' = OPEN.

(** While bridging, a step that is not a stream start keeps the stream id. *)
Definition sid_step (s : Session) (o : list effect) (s' : Session) : Prop :=
  phase s = Bridging -> phase s' = Bridging /\ streamSid s' = streamSid s.

(** [likedAuthors] of [trySendGreeting]: the first three distinct names
    among those that the liked tweets give. *)
Definition likedAuthors (tweets : list LikedTweet) : list jsstring :=
  take 3 (unique [] (List.filter nonempty (map likedAuthor tweets))).

Section ToolVocabulary.
Context `{Json.Numbers}.

(** [{ success: false, error: 'Tool execution failed: ' + error }] *)
Definition execution_failed (error : jsstring) : json :=
  JObj [(u "success", JBool false);
        (u "error", JStr (u "Tool execution failed: " ++ error))].

(** [{ success: false, message: 'Could not find user @...' }] *)
Definition recipient_not_found (recipient_username : jsstring) : json :=
  JObj [(u "success", JBool false);
        (u "message", JStr (u "Could not find user @" ++ recipient_username
                            ++ u ". Please check the username and try again."))].

(** The promise hands on what the providers answer: the text of the last
    reply is its value, and a provider that fails makes it the text of
    [execution_failed]. *)
Inductive hands_on : Async jsstring -> Prop :=
| hands_on_done result : hands_on (Done (Normal result))
| hands_on_text c k :
    (forall result, k (Normal result) = Done (Normal result)) ->
    (forall error, k (Throw error) = Done (Normal (Json.stringify (execution_failed error)))) ->
    hands_on (AwaitText c k)
| hands_on_user token name k :
    (forall found, hands_on (k (Normal found))) ->
    (forall error, k (Throw error) = Done (Normal (Json.stringify (execution_failed error)))) ->
    hands_on (AwaitUser token name k).

End ToolVocabulary.

(** The argument that each of the three tools open to every caller reads. *)
Definition public_argument : list (jsstring * jsstring) :=
  [(u "search_news_topic", u "topic"); (u "get_trending_news", u "country");
   (u "get_user_posts", u "username")].

(** A trend goes before those of a smaller or equal volume. *)
Definition descending : list XApi.Trend -> Prop :=
  StronglySorted (fun x y => (XApi.volume y <= XApi.volume x)%N).


(** The [text] member of a formatted post. *)
Definition post_text (v : json) : option jsstring :=
  match v with
  | JObj ((_, JStr s) :: _) => Some s
  | _ => None
  end.

(** The posts of the second page, when the first page names one and the
    request for it succeeds. *)
Definition second_page (response1 : XApi.SearchResponse)
    (reply2 : completion XApi.SearchResponse) : list XApi.XPost :=
  if truthy_str (XApi.next_token response1) then
    match reply2 with
    | Normal response2 => default [] (XApi.data response2)
    | Throw _ => []
    end
  else [].

(** The states and the messages of the further examples: a second call
    beside the first, a call whose conversation could not be created, a
    delta of the transcript of the assistant. *)
Definition call_2 : jsstring := u "call_2".

Definition two_calls : Session :=
  (run (H := integer_literals) call_1 9 [TwilioStart (u "MZ1"); connected]
     (enter (twiml call_1 (u "+15550100") (twiml call_2 (u "+15550101") ∅))
        {[ call_2 := u "conv_2" ]} {[ call_2 := u "Good evening" ]}
        {[ call_2 := ann ]})).1.

Definition bridged_unrecorded : Session :=
  (run (H := integer_literals) call_1 9
     [TwilioStart (u "MZ1"); Connected (Response true (auth ann)) CreateFailed] entered).1.

Definition transcript_delta (d : jsstring) : message :=
  {| type := u "response.output_audio_transcript.delta"; delta := Some d;
     call_id := None; name := None; transcript := None |}.

Definition said (text : jsstring) : message :=
  {| type := u "conversation.item.input_audio_transcription.completed"; delta := None;
     call_id := None; name := None; transcript := Some text |}.


Definition two_trends : XApi.TrendResponse :=
  {| XApi.trends := Some [ {| XApi.trend_name := u "rust"; XApi.tweet_count := Some 120%N |};
                           {| XApi.trend_name := u "rocq"; XApi.tweet_count := Some 4500%N |} ];
     XApi.trend_errors := None |}.

Definition one_post : XApi.XPost :=
  {| XApi.id := u "1"; XApi.text := u "hello"; XApi.author_id := Some (u "7");
     XApi.created_at := None; XApi.public_metrics := None |}.

Definition first_page : XApi.SearchResponse :=
  {| XApi.data := Some [one_post]; XApi.includes_users := None;
     XApi.next_token := Some (u "page2"); XApi.errors := None |}.

(** * Properties *)

(** ** [JSON.parse] never runs out of fuel *)

Module JsonFacts.
Import Json.

Lemma skip_ws_length l : length (skip_ws l) <= length l.
Proof.
  induction l as [|c r IH]; simpl; [lia|].
  destruct (is_ws c); simpl; lia.
Qed.

Lemma skip_ws_cons l c r : skip_ws l = c :: r -> length r < length l.
Proof.
  intros E. pose proof (skip_ws_length l) as L. rewrite E in L. simpl in L. lia.
Qed.

Lemma parse_chars_length n :
  forall l acc k r, length l <= n -> parse_chars l acc = Some (k, r) -> length r < length l.
Proof.
  induction n as [|n IH]; intros l acc k r Hn; destruct l as [|c l]; simpl in *;
    try discriminate; try lia.
  destruct (c =? 34)%N; [intros [= <- <-]; lia|].
  destruct (c =? 92)%N.
  - destruct l as [|e l]; [discriminate|].
    destruct (e =? 117)%N.
    + destruct l as [|h1 [|h2 [|h3 [|h4 l]]]]; try discriminate.
      destruct (hex4 h1 h2 h3 h4); [|discriminate].
      intros E. apply IH in E; simpl in *; lia.
    + destruct (unescape e); [|discriminate].
      intros E. apply IH in E; simpl in *; lia.
  - destruct (c <? 32)%N; [discriminate|].
    intros E. apply IH in E; simpl in *; lia.
Qed.

Lemma span_digits_length l : length (span_digits l).2 <= length l.
Proof.
  induction l as [|c r IH]; simpl; [lia|].
  destruct (is_digit c); [|simpl; lia].
  destruct (span_digits r); simpl in *; lia.
Qed.

Lemma parse_int_length l x r : parse_int l = Some (x, r) -> length r < length l.
Proof.
  destruct l as [|c l]; simpl; [discriminate|].
  destruct (c =? 48)%N; [intros [= <- <-]; lia|].
  destruct (is_digit c); [|discriminate].
  pose proof (span_digits_length l). destruct (span_digits l).
  intros [= <- <-]. simpl in *. lia.
Qed.

Lemma parse_frac_length l x r : parse_frac l = Some (x, r) -> length r <= length l.
Proof.
  destruct l as [|c l]; simpl; [intros [= <- <-]; simpl; lia|].
  destruct (c =? 46)%N; [|intros [= <- <-]; simpl; lia].
  pose proof (span_digits_length l). destruct (span_digits l) as [[|d ds] r'];
    [discriminate|]. intros [= <- <-]. simpl in *. lia.
Qed.

Lemma parse_exp_length l x r : parse_exp l = Some (x, r) -> length r <= length l.
Proof.
  destruct l as [|c l]; simpl; [intros [= <- <-]; simpl; lia|].
  destruct ((c =? 101) || (c =? 69))%N; [|intros [= <- <-]; simpl; lia].
  destruct l as [|s l].
  - simpl. discriminate.
  - destruct ((s =? 43) || (s =? 45))%N.
    + pose proof (span_digits_length l). destruct (span_digits l) as [[|d ds] r'];
        [discriminate|]. intros [= <- <-]. simpl in *. lia.
    + pose proof (span_digits_length (s :: l)) as L.
      destruct (span_digits (s :: l)) as [[|d ds] r']; [discriminate|].
      intros [= <- <-]. cbn [snd length] in *. lia.
Qed.

Lemma parse_number_length l x r : parse_number l = Some (x, r) -> length r < length l.
Proof.
  unfold parse_number.
  assert (forall sign l1,
    match parse_int l1 with
    | Some (i, l2) =>
        match parse_frac l2 with
        | Some (f, l3) =>
            match parse_exp l3 with
            | Some (e, l4) => Some (sign ++ i ++ f ++ e, l4)
            | None => None
            end
        | None => None
        end
    | None => None
    end = Some (x, r) -> length r < length l1) as A.
  { intros sign l1.
    destruct (parse_int l1) as [[i l2]|] eqn:Ei; [|discriminate].
    destruct (parse_frac l2) as [[f l3]|] eqn:Ef; [|discriminate].
    destruct (parse_exp l3) as [[e l4]|] eqn:Ee; [|discriminate].
    apply parse_int_length in Ei. apply parse_frac_length in Ef.
    apply parse_exp_length in Ee. intros [= _ <-]. lia. }
  destruct l as [|c l']; [discriminate|].
  destruct (c =? 45)%N; intros E; apply A in E; simpl in *; lia.
Qed.

Lemma strip_length k : forall l r, strip k l = Some r -> length r <= length l.
Proof.
  induction k as [|x k IH]; intros [|y l] r; simpl; try discriminate;
    try (intros [= <-]; simpl; lia).
  destruct (x =? y)%N; [|discriminate]. intros E. apply IH in E. lia.
Qed.

Lemma lift_length {A B} (f : A -> B) x n v r :
  (forall a r', x = Some (a, r') -> length r' < n) ->
  lift f x = Ok v r -> length r < n.
Proof.
  intros Hx. destruct x as [[a r']|]; simpl; [|discriminate].
  intros [= _ <-]. eauto.
Qed.

Lemma lift_fuel {A B} (f : A -> B) x : lift f x <> OutOfFuel.
Proof. destruct x as [[a r]|]; discriminate. Qed.

Lemma keyword_length {B} (b : B) k t n v r :
  length t < n ->
  lift (fun _ : unit => b) (option_map (pair tt) (strip k t)) = Ok v r -> length r < n.
Proof.
  intros L. apply lift_length. intros a r' E.
  destruct (strip k t) as [t'|] eqn:S; [|discriminate].
  apply strip_length in S. injection E as _ <-. lia.
Qed.

(** Every value that is parsed takes at least one character. *)
Lemma parse_consumes f :
  (forall l v r, parse_value f l = Ok v r -> length r < length l) /\
  (forall l acc v r, parse_elements f l acc = Ok v r -> length r < length l) /\
  (forall l acc v r, parse_members f l acc = Ok v r -> length r < length l).
Proof.
  induction f as [|f (IHv & IHe & IHm)]; [repeat split; intros; discriminate|].
  split; [|split].
  - intros l v r. cbn [parse_value].
    destruct (skip_ws l) as [|c t] eqn:E; [discriminate|]. apply skip_ws_cons in E.
    destruct (c =? 123)%N.
    { destruct (skip_ws t) as [|d t'] eqn:E'; [discriminate|]. apply skip_ws_cons in E'.
      destruct (d =? 125)%N; [intros [= _ <-]; lia|].
      intros X. apply IHm in X. lia. }
    destruct (c =? 91)%N.
    { destruct (skip_ws t) as [|d t'] eqn:E'; [discriminate|]. apply skip_ws_cons in E'.
      destruct (d =? 93)%N; [intros [= _ <-]; lia|].
      intros X. apply IHe in X. lia. }
    destruct (c =? 34)%N.
    { apply lift_length. intros a r' P.
      apply (parse_chars_length (length t)) in P; lia. }
    destruct (c =? 116)%N; [apply keyword_length; lia|].
    destruct (c =? 102)%N; [apply keyword_length; lia|].
    destruct (c =? 110)%N; [apply keyword_length; lia|].
    apply lift_length. intros a r' P. apply parse_number_length in P. simpl in P. lia.
  - intros l acc v r. cbn [parse_elements].
    destruct (parse_value f l) as [w t| |] eqn:V; try discriminate.
    apply IHv in V.
    destruct (skip_ws t) as [|d t'] eqn:E; [discriminate|]. apply skip_ws_cons in E.
    destruct (d =? 44)%N; [intros X; apply IHe in X; lia|].
    destruct (d =? 93)%N; [intros [= _ <-]; lia|discriminate].
  - intros l acc v r. cbn [parse_members].
    destruct (skip_ws l) as [|q t] eqn:E; [discriminate|]. apply skip_ws_cons in E.
    destruct (q =? 34)%N; [|discriminate].
    destruct (parse_chars t []) as [[k t1]|] eqn:K; [|discriminate].
    apply (parse_chars_length (length t)) in K; [|lia].
    destruct (skip_ws t1) as [|c t2] eqn:E1; [discriminate|]. apply skip_ws_cons in E1.
    destruct (c =? 58)%N; [|discriminate].
    destruct (parse_value f t2) as [w t3| |] eqn:V; try discriminate.
    apply IHv in V.
    destruct (skip_ws t3) as [|d t4] eqn:E3; [discriminate|]. apply skip_ws_cons in E3.
    destruct (d =? 44)%N; [intros X; apply IHm in X; lia|].
    destruct (d =? 125)%N; [intros [= _ <-]; lia|discriminate].
Qed.

(** Fuel twice the length of the text, and two more, is enough. *)
Lemma parse_fuel f :
  (forall l, 2 * length l < f -> parse_value f l <> OutOfFuel) /\
  (forall l acc, 2 * length l + 1 < f -> parse_elements f l acc <> OutOfFuel) /\
  (forall l acc, 2 * length l + 1 < f -> parse_members f l acc <> OutOfFuel).
Proof.
  induction f as [|f (IHv & IHe & IHm)]; [repeat split; intros; lia|].
  destruct (parse_consumes f) as (Cv & _ & _).
  split; [|split].
  - intros l L. cbn [parse_value].
    destruct (skip_ws l) as [|c t] eqn:E; [discriminate|]. apply skip_ws_cons in E.
    destruct (c =? 123)%N.
    { destruct (skip_ws t) as [|d t'] eqn:E'; [discriminate|].
      destruct (d =? 125)%N; [discriminate|]. apply IHm. lia. }
    destruct (c =? 91)%N.
    { destruct (skip_ws t) as [|d t'] eqn:E'; [discriminate|].
      destruct (d =? 93)%N; [discriminate|]. apply IHe. lia. }
    repeat (match goal with |- context [if ?b then _ else _] => destruct b end);
      apply lift_fuel.
  - intros l acc L. cbn [parse_elements].
    destruct (parse_value f l) as [w t| |] eqn:V; [|discriminate|].
    + apply Cv in V.
      destruct (skip_ws t) as [|d t'] eqn:E; [discriminate|]. apply skip_ws_cons in E.
      destruct (d =? 44)%N; [apply IHe; lia|].
      destruct (d =? 93)%N; discriminate.
    + exfalso. revert V. apply IHv. lia.
  - intros l acc L. cbn [parse_members].
    destruct (skip_ws l) as [|q t] eqn:E; [discriminate|]. apply skip_ws_cons in E.
    destruct (q =? 34)%N; [|discriminate].
    destruct (parse_chars t []) as [[k t1]|] eqn:K; [|discriminate].
    apply (parse_chars_length (length t)) in K; [|lia].
    destruct (skip_ws t1) as [|c t2] eqn:E1; [discriminate|]. apply skip_ws_cons in E1.
    destruct (c =? 58)%N; [|discriminate].
    destruct (parse_value f t2) as [w t3| |] eqn:V; [|discriminate|].
    + apply Cv in V.
      destruct (skip_ws t3) as [|d t4] eqn:E3; [discriminate|]. apply skip_ws_cons in E3.
      destruct (d =? 44)%N; [apply IHm; lia|].
      destruct (d =? 125)%N; discriminate.
    + exfalso. revert V. apply IHv. lia.
Qed.

(** [parse] answers [None] only for a text that is not JSON. *)
Lemma parse_never_out_of_fuel s : parse_value (2 * length s + 2) s <> OutOfFuel.
Proof. apply parse_fuel. lia. Qed.

End JsonFacts.

(** ** What [JSON.stringify] writes, [JSON.parse] reads back *)

Module JsonRoundTrip.
Import Json.
Local Open Scope N_scope.

Lemma hex_val_digit d : d < 16 -> hex_val (hex_digit d) = Some d.
Proof.
  intros Hd. unfold hex_val, hex_digit, is_digit.
  destruct (N.ltb_spec d 10).
  - replace ((48 <=? 48 + d) && (48 + d <=? 57)) with true.
    + f_equal. lia.
    + symmetry. apply andb_true_iff. split; apply N.leb_le; lia.
  - replace ((48 <=? 87 + d) && (87 + d <=? 57)) with false.
    + replace ((97 <=? 87 + d) && (87 + d <=? 102)) with true.
      * f_equal. lia.
      * symmetry. apply andb_true_iff. split; apply N.leb_le; lia.
    + symmetry. apply andb_false_iff. right. apply N.leb_gt. lia.
Qed.

Lemma hex_digits_value c :
  c < 65536 ->
  ((c / 4096 mod 16 * 16 + c / 256 mod 16) * 16 + c / 16 mod 16) * 16 + c mod 16 = c.
Proof.
  intros Hc.
  pose proof (N.div_mod c 16 ltac:(lia)) as E0.
  pose proof (N.div_mod (c / 16) 16 ltac:(lia)) as E1.
  pose proof (N.div_mod (c / 16 / 16) 16 ltac:(lia)) as E2.
  rewrite !N.Div0.div_div in E1, E2.
  change (16 * 16) with 256 in *. rewrite N.Div0.div_div in E2.
  change (256 * 16) with 4096 in *.
  assert (c / 4096 < 16) as B by (apply N.Div0.div_lt_upper_bound; lia).
  rewrite (N.mod_small (c / 4096) 16 B). lia.
Qed.

Lemma hex4_escape c :
  c < 65536 ->
  hex4 (hex_digit (c / 4096 mod 16)) (hex_digit (c / 256 mod 16))
       (hex_digit (c / 16 mod 16)) (hex_digit (c mod 16)) = Some c.
Proof.
  intros Hc. unfold hex4.
  rewrite !hex_val_digit by (apply N.mod_lt; lia).
  f_equal. by apply hex_digits_value.
Qed.

Lemma parse_escape_u c rest acc :
  c < 65536 ->
  parse_chars (escape_u c ++ rest) acc = parse_chars rest (c :: acc).
Proof.
  intros Hc. unfold escape_u. cbn [app parse_chars].
  change (92 =? 34) with false. change (92 =? 92) with true.
  change (117 =? 117) with true. cbv iota.
  by rewrite hex4_escape.
Qed.

Lemma parse_raw c rest acc :
  (c =? 34) = false -> (c =? 92) = false -> (c <? 32) = false ->
  parse_chars (c :: rest) acc = parse_chars rest (c :: acc).
Proof. intros E1 E2 E3. cbn [parse_chars]. by rewrite E1, E2, E3. Qed.

Lemma parse_short e x rest acc :
  (e =? 117) = false -> unescape e = Some x ->
  parse_chars (92 :: e :: rest) acc = parse_chars rest (x :: acc).
Proof.
  intros E1 E2. cbn [parse_chars].
  change (92 =? 34) with false. change (92 =? 92) with true. cbv iota.
  by rewrite E1, E2.
Qed.

Lemma parse_quote_chars n :
  forall s acc rest,
    (length s <= n)%nat ->
    parse_chars (quote_chars s ++ 34 :: rest) acc = Some (rev acc ++ s, rest).
Proof.
  induction n as [|n IH]; intros [|c r] acc rest Hn; simpl in Hn; try lia;
    try (cbn [quote_chars app parse_chars]; change (34 =? 34) with true; cbv iota;
         by rewrite app_nil_r).
  assert (forall x, rev (x :: acc) ++ r = rev acc ++ x :: r) as Snoc
    by (intros x; simpl; by rewrite <- app_assoc).
  cbn [quote_chars].
  destruct (N.eqb_spec c 34) as [->|N34].
  { cbn [app]. rewrite (parse_short 34 34) by done. rewrite IH by lia. by rewrite Snoc. }
  destruct (N.eqb_spec c 92) as [->|N92].
  { cbn [app]. rewrite (parse_short 92 92) by done. rewrite IH by lia. by rewrite Snoc. }
  destruct (N.eqb_spec c 8) as [->|N8].
  { cbn [app]. rewrite (parse_short 98 8) by done. rewrite IH by lia. by rewrite Snoc. }
  destruct (N.eqb_spec c 9) as [->|N9].
  { cbn [app]. rewrite (parse_short 116 9) by done. rewrite IH by lia. by rewrite Snoc. }
  destruct (N.eqb_spec c 10) as [->|N10].
  { cbn [app]. rewrite (parse_short 110 10) by done. rewrite IH by lia. by rewrite Snoc. }
  destruct (N.eqb_spec c 12) as [->|N12].
  { cbn [app]. rewrite (parse_short 102 12) by done. rewrite IH by lia. by rewrite Snoc. }
  destruct (N.eqb_spec c 13) as [->|N13].
  { cbn [app]. rewrite (parse_short 114 13) by done. rewrite IH by lia. by rewrite Snoc. }
  destruct (N.ltb_spec c 32) as [L32|G32].
  { rewrite <- app_assoc, parse_escape_u by lia. rewrite IH by lia. by rewrite Snoc. }
  assert ((c =? 34) = false /\ (c =? 92) = false /\ (c <? 32) = false) as (R1 & R2 & R3).
  { repeat split; [by apply N.eqb_neq|by apply N.eqb_neq|by apply N.ltb_ge]. }
  destruct (is_high c) eqn:Hh.
  { assert (c < 65536) as Hc.
    { unfold is_high in Hh. apply andb_true_iff in Hh as [_ Hh]. apply N.leb_le in Hh. lia. }
    destruct r as [|d r'].
    - cbn [app]. rewrite parse_escape_u by done.
      cbn [parse_chars]. change (34 =? 34) with true. cbv iota. reflexivity.
    - destruct (is_low d) eqn:Hl.
      + assert ((d =? 34) = false /\ (d =? 92) = false /\ (d <? 32) = false) as (D1 & D2 & D3).
        { unfold is_low in Hl. apply andb_true_iff in Hl as [Hl _]. apply N.leb_le in Hl.
          repeat split; [apply N.eqb_neq|apply N.eqb_neq|apply N.ltb_ge]; lia. }
        cbn [app]. rewrite parse_raw, parse_raw by done.
        simpl in Hn. rewrite IH by lia. simpl. by rewrite <- !app_assoc.
      + rewrite <- app_assoc, parse_escape_u by done. rewrite IH by (simpl in *; lia).
        by rewrite Snoc. }
  destruct (is_low c) eqn:Hl.
  { assert (c < 65536) as Hc.
    { unfold is_low in Hl. apply andb_true_iff in Hl as [_ Hl]. apply N.leb_le in Hl. lia. }
    rewrite <- app_assoc, parse_escape_u by done. rewrite IH by lia. by rewrite Snoc. }
  cbn [app]. rewrite parse_raw by done. rewrite IH by lia. by rewrite Snoc.
Qed.

(** A quoted string reads back as the string. *)
Lemma parse_quote s acc rest :
  parse_chars (quote_chars s ++ 34 :: rest) acc = Some (rev acc ++ s, rest).
Proof. by apply (parse_quote_chars (length s)). Qed.

Lemma parse_value_quoted f s rest :
  parse_value (S f) (quote s ++ rest) = Ok (JStr s) rest.
Proof.
  unfold quote. rewrite <- !app_assoc. cbn [app parse_value skip_ws].
  change (is_ws 34) with false. cbv iota.
  change (34 =? 123) with false. change (34 =? 91) with false.
  change (34 =? 34) with true. cbv iota.
  by rewrite parse_quote.
Qed.

Lemma parse_value_flag f (b : bool) rest :
  parse_value (S f) ((if b then u "true" else u "false") ++ rest) = Ok (JBool b) rest.
Proof. by destruct b. Qed.

(** An object whose first key is quoted: its members are read. *)
Lemma parse_value_object f k rest :
  parse_value (S f) (123 :: quote k ++ rest) = parse_members f (quote k ++ rest) [].
Proof.
  cbn [parse_value skip_ws]. change (is_ws 123) with false. cbv iota.
  change (123 =? 123) with true. cbv iota.
  unfold quote. cbn [app skip_ws]. change (is_ws 34) with false. cbv iota.
  change (34 =? 125) with false. cbv iota. reflexivity.
Qed.

(** One member: the quoted key, the colon, then the value and what follows
    it. *)
Lemma parse_members_step f k rest acc :
  parse_members (S f) (quote k ++ 58 :: rest) acc
  = match parse_value f rest with
    | Ok v r3 =>
        match skip_ws r3 with
        | d :: r4 =>
            if d =? 44 then parse_members f r4 ((k, v) :: acc)
            else if d =? 125 then Ok (JObj (rev ((k, v) :: acc))) r4
            else SyntaxError
        | [] => SyntaxError
        end
    | SyntaxError => SyntaxError
    | OutOfFuel => OutOfFuel
    end.
Proof.
  unfold quote. rewrite <- !app_assoc. cbn [app parse_members skip_ws].
  change (is_ws 34) with false. cbv iota. change (34 =? 34) with true. cbv iota.
  rewrite parse_quote. cbn [rev app skip_ws].
  change (is_ws 58) with false. cbv iota. change (58 =? 58) with true. cbv iota.
  reflexivity.
Qed.

Section RoundTrip.
Context `{Numbers}.

Lemma object_fuel (body : jsstring) :
  exists f, (2 * length ([123%N] ++ body ++ [125%N]) + 2 = S (S (S (S f))))%nat.
Proof. exists (2 * length (body ++ [125%N]))%nat. cbn [app length]. lia. Qed.

(** The text of an object with one string member reads back as the object. *)
Lemma parse_stringify_string_member k s :
  parse (stringify (JObj [(k, JStr s)])) = Some (JObj [(k, JStr s)]).
Proof.
  unfold parse. cbn [stringify].
  match goal with
  | |- context [length ([123] ++ ?body ++ [125])] =>
      destruct (object_fuel body) as [f ->]
  end.
  rewrite <- !app_assoc. cbn [app].
  rewrite parse_value_object, parse_members_step, parse_value_quoted.
  reflexivity.
Qed.

(** So does the text of an object with a boolean member, then a string
    member. *)
Lemma parse_stringify_flag_and_string k1 (b : bool) k2 s :
  parse (stringify (JObj [(k1, JBool b); (k2, JStr s)]))
  = Some (JObj [(k1, JBool b); (k2, JStr s)]).
Proof.
  unfold parse. cbn [stringify].
  match goal with
  | |- context [length ([123] ++ ?body ++ [125])] =>
      destruct (object_fuel body) as [f ->]
  end.
  rewrite <- !app_assoc. cbn [app].
  rewrite parse_value_object, parse_members_step.
  rewrite (parse_value_flag _ b).
  cbn [skip_ws]. change (is_ws 44) with false. cbv iota.
  change (44 =? 44) with true. cbv iota.
  rewrite parse_members_step, parse_value_quoted.
  reflexivity.
Qed.

End RoundTrip.

End JsonRoundTrip.

(** ** Strings *)

Lemma str_eqb_refl a : str_eqb a a = true.
Proof. induction a as [|x a IH]; simpl; [done|]. by rewrite N.eqb_refl. Qed.

Lemma str_eqb_eq a b : str_eqb a b = true <-> a = b.
Proof.
  split; [|intros ->; apply str_eqb_refl].
  revert b. induction a as [|x a IH]; intros [|y b]; simpl; try done.
  intros [E1 E2]%andb_true_iff. apply N.eqb_eq in E1. apply IH in E2. congruence.
Qed.

Lemma str_eqb_neq a b : a <> b -> str_eqb a b = false.
Proof.
  intros N. destruct (str_eqb a b) eqn:E; [|done]. by apply str_eqb_eq in E.
Qed.

(** Decide the tests between two literals of the source. *)
Ltac literal_tests :=
  repeat match goal with
    | |- context [str_eqb (u ?a) (u ?b)] =>
        let v := eval vm_compute in (str_eqb (u a) (u b)) in
        change (str_eqb (u a) (u b)) with v
    end;
  cbv iota.

(** ** The tool dispatcher *)

Section ToolFacts.
Context `{Json.Numbers}.



End ToolFacts.

Section Dispatcher.
Context `{Json.Numbers}.


(** C8, as the code has it.  A tool name outside [ToolName] is answered
    without an exception and without a request to a provider: the result is
    the text of [{ error: 'Unknown tool: ' + toolName }], which reads back
    as that object. *)
Theorem unknown_tool_is_reported
    (contexts : gmap jsstring UserContext) (callId toolName : jsstring) (args : json) :
  toolName ∉ ToolName ->
  let payload := JObj [(u "error", JStr (u "Unknown tool: " ++ toolName))] in
  executeToolCall contexts callId toolName args = Done (Normal (Json.stringify payload))
  /\ Json.parse (Json.stringify payload) = Some payload.
Proof.
  intros Hnot payload. split; [|apply JsonRoundTrip.parse_stringify_string_member].
  unfold executeToolCall.
  assert (forall t, t ∈ ToolName -> str_eqb toolName t = false) as F.
  { intros t Ht. apply str_eqb_neq. intros ->. by apply Hnot. }
  rewrite !F by (unfold ToolName; set_solver).
  reflexivity.
Qed.

(** C10. For a caller whose identity is authenticated and carries an access
    token, and arguments whose [text] is a string: when the text has more
    than 280 code units, [post_tweet] is done at once with the text of an
    object that has [success] false and a message giving the length of the
    text and the maximum of 280, and no request is made; when the text has at most
    280 code units, the request to post it is made. *)
Theorem post_tweet_checks_length
    (contexts : gmap jsstring UserContext) (callId : jsstring) (c : UserContext)
    (token text : jsstring) (members : list (jsstring * json)) :
  getCallContext contexts callId = Some c ->
  authenticated (auth c) = true ->
  access_token (auth c) = Some token ->
  token <> [] ->
  member (u "text") members = Some (JStr text) ->
  let task := executeToolCall contexts callId (u "post_tweet") (JObj members) in
  let refusal :=
    JObj [(u "success", JBool false);
          (u "message", JStr (u "Your tweet is " ++ decimal (length text)
                              ++ u " characters, but the maximum is 280. Please shorten it."))] in
  (280 < length text ->
     task = Done (Normal (Json.stringify refusal)) /\ request task = []
     /\ Json.parse (Json.stringify refusal) = Some refusal)
  /\ (length text <= 280 ->
        request task = [Provider (PostTweet token (Some (JStr text)))])
  /\ (request task <> [] -> length text <= 280).
Proof.
  intros Hctx Hauth Htoken Hne Htext task refusal.
  assert (not_linked (Some c) = false) as L.
  { unfold not_linked. rewrite Hauth, Htoken. by destruct token. }
  assert (task = if 280 <? length text
                 then Done (Normal (Json.stringify refusal))
                 else try_catch (await_text (PostTweet token (Some (JStr text))))
                        (fun error => Json.stringify
                           (JObj [(u "success", JBool false);
                                  (u "error", JStr (u "Tool execution failed: " ++ error))])))
    as E.
  { unfold task, executeToolCall, handlePostTweet. literal_tests.
    rewrite Hctx, L. cbn [get_prop eval bind]. rewrite Htext.
    cbn [get_length eval bind length_gt_280 length_to_string].
    unfold token_of. rewrite Htoken. cbn [or_empty].
    destruct (280 <? length text); reflexivity. }
  rewrite E. destruct (Nat.ltb_spec 280 (length text)) as [Hlong | Hshort].
  - split; [intros _; split; [done|]; split; [done|];
              apply JsonRoundTrip.parse_stringify_flag_and_string|].
    split; [lia|]. by intros [].
  - split; [lia|]. split; [done|]. lia.
Qed.

End Dispatcher.


(** C8, as stated, fails: the answer to the unknown tool [get_weather] is
    the text of an object whose only member is [error], with the name of
    the tool in it; it is not the text of
    [{ success: false, error: 'unknown tool' }]. *)
Lemma unknown_tool_answer_has_no_success_flag :
  exists result,
    executeToolCall (H := integer_literals) ∅ (u "call_1") (u "get_weather") (JObj [])
    = Done (Normal result)
    /\ Json.parse result = Some (JObj [(u "error", JStr (u "Unknown tool: get_weather"))])
    /\ result <> Json.stringify (H := integer_literals)
                   (JObj [(u "success", JBool false); (u "error", JStr (u "unknown tool"))]).
Proof.
  eexists. split; [reflexivity|]. split; [vm_compute; reflexivity|].
  vm_compute. discriminate.
Qed.

Lemma unknown_tool_is_reported_witness :
  (u "get_weather" ∉ ToolName)
  /\ executeToolCall (H := integer_literals) ∅ (u "call_1") (u "get_weather") (JObj [])
     = Done (Normal (Json.stringify (H := integer_literals)
                       (JObj [(u "error", JStr (u "Unknown tool: " ++ u "get_weather"))]))).
Proof.
  assert (u "get_weather" ∉ ToolName) as Hnot.
  { intros Hin. unfold ToolName in Hin.
    repeat (apply elem_of_cons in Hin as [Hin | Hin]; [vm_compute in Hin; discriminate|]).
    by apply elem_of_nil in Hin. }
  split; [exact Hnot|].
  exact (proj1 (unknown_tool_is_reported (H := integer_literals)
                  ∅ (u "call_1") (u "get_weather") (JObj []) Hnot)).
Defined.

(** An authenticated caller, and a text of 281 code units. *)
Lemma post_tweet_checks_length_witness :
  let contexts : gmap jsstring UserContext := {[ u "call_1" := ann ]} in
  let text := repeat 65%N 281 in
  let task :=
    executeToolCall (H := integer_literals) contexts (u "call_1") (u "post_tweet")
      (JObj [(u "text", JStr text)]) in
  280 < length text
  /\ task = Done (Normal (Json.stringify (H := integer_literals)
       (JObj [(u "success", JBool false);
              (u "message", JStr (u "Your tweet is 281 characters, but the maximum is 280. Please shorten it."))])))
  /\ request task = []
  /\ Json.parse (Json.stringify (H := integer_literals)
       (JObj [(u "success", JBool false);
              (u "message", JStr (u "Your tweet is 281 characters, but the maximum is 280. Please shorten it."))]))
     = Some (JObj [(u "success", JBool false);
              (u "message", JStr (u "Your tweet is 281 characters, but the maximum is 280. Please shorten it."))]).
Proof.
  intros contexts text task.
  assert (280 < length text) as Hlong by (vm_compute; lia).
  split; [exact Hlong|].
  assert (u "token-ann" <> []) as Hne by discriminate.
  exact (proj1 (post_tweet_checks_length (H := integer_literals) contexts (u "call_1")
                  ann (u "token-ann") text [(u "text", JStr text)]
                  eq_refl eq_refl eq_refl Hne eq_refl) Hlong).
Defined.

(** ** Actions and relations *)

Lemma count_app p a b : count p (a ++ b) = count p a + count p b.
Proof. unfold count. by rewrite List.filter_app, length_app. Qed.

Lemma andThen_eq (a b : action) s :
  (a >>> b) s = ((b (a s).1).1, (a s).2 ++ (b (a s).1).2).
Proof. unfold andThen. destruct (a s) as [s1 o1]. simpl. by destruct (b s1). Qed.

Section Respects.
Context `{Json.Numbers}.
Variable R : Session -> list effect -> Session -> Prop.
Hypothesis R_nil : forall s, R s [] s.
Hypothesis R_app : forall s o s' o' s'',
  R s o s' -> R s' o' s'' -> R s (o ++ o') s''.

Lemma respects_skip : respects R skip.
Proof. intros s. apply R_nil. Qed.

Lemma respects_andThen a b : respects R a -> respects R b -> respects R (a >>> b).
Proof.
  intros Ha Hb s. rewrite andThen_eq. simpl. eapply R_app; [apply Ha | apply Hb].
Qed.

Lemma respects_apply a s : respects R a -> R s (a s).2 (a s).1.
Proof. intros Ha. apply Ha. Qed.

(** An action run from a state that an update has changed. *)
Lemma respects_from a s s1 : R s [] s1 -> respects R a -> R s (a s1).2 (a s1).1.
Proof. intros H1 Ha. apply (R_app s [] s1 _ _ H1 (Ha s1)). Qed.

Lemma respects_settleAll rs :
  (forall r, respects R (onToolSettled r)) -> respects R (settleAll rs).
Proof.
  intros Hr. induction rs as [|r rs IH]; simpl.
  - apply respects_skip.
  - by apply respects_andThen.
Qed.

Lemma respects_run callId hour events :
  (forall e, e ∈ events -> respects R (handle callId hour e)) ->
  respects R (run callId hour events).
Proof.
  induction events as [|e events IH]; intros He; simpl.
  - apply respects_skip.
  - apply respects_andThen; [apply He; left|].
    apply IH. intros e' Hin. apply He. by right.
Qed.

End Respects.

Arguments u : simpl never.

(** Take a handler apart: sequences and tests are followed, the named
    handlers are unfolded, and [leaf] is left with the updates and the
    effects. *)
Ltac head_of t := lazymatch t with ?f _ => head_of f | _ => t end.

Ltac respects_go nil app leaf :=
  lazymatch goal with
  | |- respects _ (_ >>> _) =>
      apply (respects_andThen _ app); respects_go nil app leaf
  | |- respects _ skip => apply (respects_skip _ nil)
  | |- respects _ (settleAll _) =>
      apply (respects_settleAll _ nil app); intros ?r; respects_go nil app leaf
  | |- respects _ (if ?b then _ else _) =>
      destruct b eqn:?; respects_go nil app leaf
  | |- respects _ (match ?x with _ => _ end) =>
      destruct x eqn:?; respects_go nil app leaf
  | |- respects _ (emit _) => intros ?s; unfold emit; applied_go nil app leaf
  | |- respects _ (modify _) => intros ?s; unfold modify; applied_go nil app leaf
  | |- respects _ (fun _ => _) => intros ?s; applied_go nil app leaf
  | |- respects _ ?h =>
      let f := head_of h in progress unfold f; respects_go nil app leaf
  end
with applied_go nil app leaf :=
  cbn beta zeta;
  lazymatch goal with
  | |- _ ?s (snd ?X) _ =>
      lazymatch X with
      | (_, _) => cbn [fst snd]; leaf
      | (if ?b then _ else _) => destruct b eqn:?; applied_go nil app leaf
      | (match ?x with _ => _ end) => destruct x eqn:?; applied_go nil app leaf
      | emit _ s => unfold emit; cbn [fst snd]; leaf
      | modify _ s => unfold modify; cbn [fst snd]; leaf
      | (?a >>> ?b) s =>
          rewrite (andThen_eq a b s); cbn [fst snd];
          apply (app s (a s).2 (a s).1 (b (a s).1).2 (b (a s).1).1);
          [applied_go nil app leaf
          | apply (respects_apply _ b); respects_go nil app leaf]
      | ?a s => apply (respects_apply _ a s); respects_go nil app leaf
      | ?a ?s1 =>
          apply (respects_from _ app a s s1); [leaf | respects_go nil app leaf]
      end
  end.

(** The effects that a leaf still computes: the logs of the lookups and of
    the parsing, and the request of a task. *)
Ltac resolve_effects :=
  repeat match goal with
    | H : toolArguments _ = (_, _) |- _ => unfold toolArguments in H
    | H : createConversation ?c = (_, _) |- _ =>
        destruct c as [|[] ?]; simpl in H
    | H : (match ?x with _ => _ end) = (_, _) |- _ => destruct x
    | H : (_, _) = (_, _) |- _ => simplify_eq
    end;
  unfold logWebSocketEvent;
  repeat match goal with
    | |- context [request ?t] => destruct t; cbn [request]
    | |- context [if ?b then _ else _] => destruct b eqn:?
    end.

(** ** The greeting *)

Section Greeting.
Context `{Json.Numbers}.
Variables (callId : jsstring) (hour : nat).

Lemma greeting_step_nil s : greeting_step s [] s.
Proof. reflexivity. Qed.

Lemma greeting_step_app s o s' o' s'' :
  greeting_step s o s' -> greeting_step s' o' s'' -> greeting_step s (o ++ o') s''.
Proof. unfold greeting_step. rewrite count_app. lia. Qed.

Ltac greeting_leaf :=
  resolve_effects; unfold greeting_step; simpl;
  repeat match goal with
    | H : _ || _ = false |- _ => apply orb_false_iff in H as [? ?]
    | H : greetingSent _ = _ |- _ => rewrite H
    end;
  try reflexivity; try (simpl; lia).

Lemma handle_greeting e : respects greeting_step (handle callId hour e).
Proof.
  destruct e; respects_go greeting_step_nil greeting_step_app greeting_leaf.
Qed.

Lemma run_greeting events : respects greeting_step (run callId hour events).
Proof.
  apply (respects_run _ greeting_step_nil greeting_step_app).
  intros e _. apply handle_greeting.
Qed.

End Greeting.

(** ** The teardown *)

Section Teardown.
Context `{Json.Numbers}.
Variables (callId : jsstring) (hour : nat).

Lemma teardown_step_nil s : teardown_step s [] s.
Proof. reflexivity. Qed.

Lemma teardown_step_app s o s' o' s'' :
  teardown_step s o s' -> teardown_step s' o' s'' -> teardown_step s (o ++ o') s''.
Proof. unfold teardown_step. rewrite count_app. lia. Qed.

Ltac teardown_leaf :=
  resolve_effects; unfold teardown_step; simpl;
  try reflexivity; try (simpl; lia); try congruence.

Lemma handle_teardown e :
  is_twilio_close e = false -> respects teardown_step (handle callId hour e).
Proof.
  intros He. destruct e; try discriminate He;
    try (respects_go teardown_step_nil teardown_step_app teardown_leaf; fail).
  intros s. unfold handle, onConversationEnded.
  destruct (phase s); try apply teardown_step_nil.
  destruct (closing s) as [|n] eqn:E; [apply teardown_step_nil|].
  unfold teardown_step. rewrite E. by destruct failed.
Qed.

Lemma kept_step_nil s : kept_step s [] s.
Proof. by intros ?. Qed.

Lemma kept_step_app s o s' o' s'' :
  kept_step s o s' -> kept_step s' o' s'' -> kept_step s (o ++ o') s''.
Proof.
  unfold kept_step. rewrite count_app. intros H1 H2 Hp.
  destruct (H1 Hp) as [Hp' K1]. destruct (H2 Hp') as [Hp'' K2].
  split; [done|]. intros Hc.
  destruct K1 as (A1 & A2 & A3); [lia|]. destruct K2 as (B1 & B2 & B3); [lia|].
  repeat split; congruence.
Qed.

Ltac kept_leaf :=
  resolve_effects; unfold kept_step; simpl;
  try (intros; split; [congruence|]; intros; try done; simpl in *; congruence).

Lemma handle_kept e : respects kept_step (handle callId hour e).
Proof.
  intros s. destruct (phase s) eqn:Hp; try (intros ?; congruence).
  unfold handle. rewrite Hp.
  destruct e; applied_go kept_step_nil kept_step_app kept_leaf.
Qed.

End Teardown.

(** ** Audio *)

Section Audio.
Context `{Json.Numbers}.
Variables (callId : jsstring) (hour : nat).

Lemma ready_step_nil s : ready_step s [] s.
Proof. by intros ?. Qed.

Lemma ready_step_app s o s' o' s'' :
  ready_step s o s' -> ready_step s' o' s'' -> ready_step s (o ++ o') s''.
Proof.
  unfold ready_step. rewrite count_app. intros H1 H2 Hr.
  destruct (H2 Hr) as [Hr' ->]. destruct (H1 Hr') as [Hr'' ->]. done.
Qed.

Ltac ready_leaf :=
  resolve_effects; unfold ready_step; simpl in *;
  try (intros; split; [congruence|reflexivity]);
  try (intros; exfalso; simpl in *;
       match goal with
       | H : negb ?b = false |- _ => apply negb_false_iff in H; congruence
       end).

Lemma handle_ready e : respects ready_step (handle callId hour e).
Proof.
  destruct e; respects_go ready_step_nil ready_step_app ready_leaf.
Qed.

Lemma drop_log_step_nil s : drop_log_step s [] s.
Proof. unfold drop_log_step. simpl. lia. Qed.

Lemma drop_log_step_app s o s' o' s'' :
  drop_log_step s o s' -> drop_log_step s' o' s'' -> drop_log_step s (o ++ o') s''.
Proof. unfold drop_log_step. rewrite count_app. lia. Qed.

Lemma increment_spec n :
  increment n <> 0%N /\ (increment n = 1%N <-> n = 0%N).
Proof.
  unfold increment. destruct (N.ltb_spec n 9007199254740992); lia.
Qed.

Ltac drop_log_leaf :=
  resolve_effects; unfold drop_log_step; simpl;
  repeat match goal with
    | H : (_ =? _)%N = true |- _ => apply N.eqb_eq in H
    | H : (_ =? _)%N = false |- _ => apply N.eqb_neq in H
    | |- context [increment ?n] =>
        lazymatch goal with
        | _ : increment n <> 0%N /\ _ |- _ => fail
        | _ => pose proof (increment_spec n)
        end
    end;
  repeat match goal with
    | |- context [(?a =? ?b)%N] => destruct (N.eqb_spec a b)
    end;
  simpl; try lia.

Lemma handle_drop_log e : respects drop_log_step (handle callId hour e).
Proof.
  destruct e; respects_go drop_log_step_nil drop_log_step_app drop_log_leaf.
Qed.

Lemma stream_step_nil s : stream_step s [] s.
Proof. by intros ?. Qed.

Lemma stream_step_app s o s' o' s'' :
  stream_step s o s' -> stream_step s' o' s'' -> stream_step s (o ++ o') s''.
Proof.
  unfold stream_step. rewrite count_app. intros H1 H2 Hr.
  destruct (H1 Hr) as [Hr' ->]. destruct (H2 Hr') as [Hr'' ->]. done.
Qed.

Ltac stream_leaf :=
  resolve_effects; unfold stream_step; simpl in *;
  try (intros; split; [congruence|reflexivity]);
  try (intros; exfalso; simpl in *;
       match goal with
       | H : negb ?b = false |- _ => apply negb_false_iff in H; congruence
       end).

Lemma handle_stream e :
  is_twilio_start e = false -> respects stream_step (handle callId hour e).
Proof.
  intros He. destruct e; try discriminate He;
    respects_go stream_step_nil stream_step_app stream_leaf.
Qed.

End Audio.

(** ** Runs, and the callbacks of settled promises *)

Section Runs.
Context `{Json.Numbers}.
Variables (callId : jsstring) (hour : nat).

Lemma run_app events later s :
  run callId hour (events ++ later) s
  = (run callId hour events >>> run callId hour later) s.
Proof.
  revert s. induction events as [|e events IH]; intros s; simpl.
  - rewrite andThen_eq. simpl. by destruct (run callId hour later s).
  - rewrite !andThen_eq. simpl. rewrite IH, andThen_eq. simpl. by rewrite app_assoc.
Qed.

Lemma run_app_effects events later s :
  (run callId hour (events ++ later) s).2
  = (run callId hour events s).2
    ++ (run callId hour later (run callId hour events s).1).2.
Proof. by rewrite run_app, andThen_eq. Qed.

Lemma run_app_state events later s :
  (run callId hour (events ++ later) s).1
  = (run callId hour later (run callId hour events s).1).1.
Proof. by rewrite run_app, andThen_eq. Qed.

Lemma filter_pending_id (l : list (Async jsstring)) :
  Forall (fun t => pending t = true) l ->
  List.filter pending l = l /\ omap finished l = [].
Proof.
  induction 1 as [|t l Ht _ [IH1 IH2]]; [done|].
  destruct t; [discriminate| |]; cbn; by rewrite IH1, IH2.
Qed.

Lemma microtasks_quiet s : quiet s -> microtasks s = (s, []).
Proof.
  intros Hq. unfold microtasks. destruct (filter_pending_id _ Hq) as [-> ->].
  simpl. by destruct s.
Qed.

Lemma tools_step_nil s : tools_step s [] s.
Proof. unfold tools_step. by destruct s. Qed.

Lemma tools_step_app s o s' o' s'' :
  tools_step s o s' -> tools_step s' o' s'' -> tools_step s (o ++ o') s''.
Proof.
  unfold tools_step. intros H1 H2. destruct s, s', s''.
  unfold set_functionCallState, set_inflight in *. simpl in *.
  injection H1 as -> -> -> -> -> -> -> -> -> -> -> -> -> -> ->.
  injection H2 as -> -> -> -> -> -> -> -> -> -> -> -> -> -> ->.
  reflexivity.
Qed.

Ltac tools_leaf := unfold tools_step; simpl; try reflexivity.

Lemma microtasks_tools : respects tools_step microtasks.
Proof.
  intros s. unfold microtasks.
  apply (respects_from _ tools_step_app).
  - unfold tools_step. by destruct s.
  - respects_go tools_step_nil tools_step_app tools_leaf.
Qed.

Lemma inflight_step_nil s : inflight_step s [] s.
Proof. reflexivity. Qed.

Lemma inflight_step_app s o s' o' s'' :
  inflight_step s o s' -> inflight_step s' o' s'' -> inflight_step s (o ++ o') s''.
Proof. unfold inflight_step. congruence. Qed.

Lemma settleAll_inflight rs : respects inflight_step (settleAll rs).
Proof.
  respects_go inflight_step_nil inflight_step_app ltac:(unfold inflight_step; reflexivity).
Qed.

(** Between two events no settled promise is left without its callback. *)
Lemma microtasks_leaves_quiet s : quiet (microtasks s).1.
Proof.
  unfold microtasks, quiet. rewrite (settleAll_inflight _ _). simpl.
  apply Forall_forall. intros t Ht.
  apply list_elem_of_In, List.filter_In in Ht. tauto.
Qed.

Lemma handle_quiet e s : quiet s -> quiet (handle callId hour e s).1.
Proof.
  intros Hq. unfold handle.
  destruct e, (phase s); try done;
    try (rewrite andThen_eq; apply microtasks_leaves_quiet);
    unfold quiet;
    match goal with
    | |- Forall _ (inflight (?a s).1) =>
        replace (inflight (a s).1) with (inflight s); [done|];
        symmetry; apply (respects_apply inflight_step a s);
        respects_go inflight_step_nil inflight_step_app
          ltac:(resolve_effects; unfold inflight_step in *; simpl; try reflexivity)
    end.
Qed.

Lemma run_quiet events s : quiet s -> quiet (run callId hour events s).1.
Proof.
  revert s. induction events as [|e events IH]; intros s Hq; simpl; [done|].
  rewrite andThen_eq. simpl. by apply IH, handle_quiet.
Qed.

End Runs.

(** ** What only [session.updated] can do *)

Section OnlySessionUpdated.
Context `{Json.Numbers}.
Variables (callId : jsstring) (hour : nat).

Lemma unready_step_nil s : unready_step s [] s.
Proof. by intros ?. Qed.

Lemma unready_step_app s o s' o' s'' :
  unready_step s o s' -> unready_step s' o' s'' -> unready_step s (o ++ o') s''.
Proof.
  unfold unready_step. rewrite count_app. intros H1 H2 Hr.
  destruct (H1 Hr) as [Hr' ->]. destruct (H2 Hr') as [Hr'' ->]. done.
Qed.

Ltac unready_leaf :=
  try congruence;
  resolve_effects; unfold unready_step; simpl in *;
  try (intros; split; [congruence|reflexivity]);
  try (intros; exfalso; simpl in *;
       match goal with
       | H : negb ?b = false |- _ => apply negb_false_iff in H; congruence
       end).

Lemma handle_unready e :
  is_session_updated e = false -> respects unready_step (handle callId hour e).
Proof.
  intros He. destruct e as [| | |[m|]| | | | | | | | | |]; simpl in He;
    respects_go unready_step_nil unready_step_app unready_leaf.
Qed.

Lemma missed_step_nil s : missed_step s [] s.
Proof. by intros ?. Qed.

Lemma missed_step_app s o s' o' s'' :
  missed_step s o s' -> missed_step s' o' s'' -> missed_step s (o ++ o') s''.
Proof.
  unfold missed_step. rewrite count_app. intros H1 H2 Hr.
  destruct (H1 Hr) as [Hr' ->]. destruct (H2 Hr') as [Hr'' ->]. done.
Qed.

Ltac missed_leaf :=
  try congruence;
  resolve_effects; unfold missed_step, missed; simpl in *;
  try (intros (? & ? & ?); split; [|reflexivity]; repeat split; try congruence;
       try done; try (by apply Forall_insert)).

Lemma handle_missed e :
  is_session_updated e = false -> respects missed_step (handle callId hour e).
Proof.
  intros He s.
  destruct (phase s) eqn:Hp; try (intros (? & _); congruence).
  unfold handle. rewrite Hp.
  destruct e as [| | |[m|]| |i| | | | | | | |]; simpl in He;
    try (applied_go missed_step_nil missed_step_app missed_leaf; fail).
  intros (_ & Hg & Hf). unfold onPollTick.
  destruct (pollers s !! i) as [[]|] eqn:E; try (by repeat split).
  exfalso. apply (Forall_lookup_1 _ _ _ _ Hf) in E. discriminate.
Qed.

End OnlySessionUpdated.

(** ** The call session *)

Section Session.
Context `{Json.Numbers}.
Variables (callId : jsstring) (hour : nat).

(** Rewrite the type of a message and decide the tests of the handler. *)
Ltac by_type Htype :=
  unfold onXaiMessage, logWebSocketEvent, firstChain, secondChain;
  rewrite Htype; literal_tests.

Lemma through_microtasks s :
  let s' := (microtasks s).1 in
  phase s' = phase s /\ greetingSent s' = greetingSent s
  /\ sessionReady s' = sessionReady s /\ pollers s' = pollers s
  /\ streamSid s' = streamSid s.
Proof.
  intros s'. pose proof (microtasks_tools s) as E. fold s' in E.
  unfold tools_step in E. rewrite E. by repeat split.
Qed.

(** C3. No inbound frame reaches the x.ai socket before [session.updated]
    has set [sessionReady]: a call whose session is not ready has forwarded
    nothing; [session.updated], and nothing else, makes the session ready;
    a frame that
    arrives before is dropped, the state keeping nothing of it but the
    count of packets; and the drop is logged at most once in a call. *)
Theorem inbound_audio_waits_for_session_updated :
  (forall events s,
     sessionReady (run callId hour events s).1 = false -> count is_append (run callId hour events s).2 = 0)
  /\ (forall events s,
        Forall (fun e => is_session_updated e = false) events ->
        sessionReady s = false ->
        sessionReady (run callId hour events s).1 = false /\ count is_append (run callId hour events s).2 = 0)
  /\ (forall s m,
        phase s = Bridging -> type m = u "session.updated" ->
        sessionReady (handle callId hour (XaiMessage (Some m)) s).1 = true)
  /\ (forall s track payload,
        phase s = Bridging -> sessionReady s = false ->
        exists logs,
          handle callId hour (TwilioMedia track payload) s
          = (set_audioPacketCount (increment (audioPacketCount s)) s, logs)
          /\ count is_append logs = 0)
  /\ (forall events s, count is_drop_log (run callId hour events s).2 <= 1).
Proof.
  split; [|split; [|split; [|split]]].
  - intros events s Hr.
    apply (respects_run _ (ready_step_nil) (ready_step_app) callId hour events); [|done].
    intros e _. apply handle_ready.
  - intros events s Hev Hr.
    apply (respects_run _ (unready_step_nil) (unready_step_app) callId hour events); [|done].
    intros e He. apply handle_unready. by apply (proj1 (Forall_forall _ _) Hev).
  - intros s m Hp Htype. unfold handle. rewrite Hp, andThen_eq. cbn [fst].
    destruct (through_microtasks (onXaiMessage callId hour (Some m) s).1)
      as (_ & _ & -> & _).
    by_type Htype. unfold onSessionUpdated, trySendGreeting, modify, emit, andThen.
    simpl.
    repeat match goal with
      | |- context [if ?b then _ else _] => destruct b
      end; reflexivity.
  - intros s track payload Hp Hr. unfold handle. rewrite Hp.
    unfold onTwilioMedia. cbn zeta.
    destruct (str_eqb track (u "inbound")); [|by eexists].
    replace (sessionReady (set_audioPacketCount (increment (audioPacketCount s)) s))
      with false by done.
    cbn [negb]. eexists. split; [reflexivity|].
    by destruct (increment (audioPacketCount s) =? 1)%N.
  - intros events s.
    pose proof (respects_run _ (drop_log_step_nil) (drop_log_step_app)
                  callId hour events (fun e _ => handle_drop_log callId hour e) s) as B.
    unfold drop_log_step in B.
    destruct (audioPacketCount s =? 0)%N; simpl in B; lia.
Qed.

(** C4. No outbound frame reaches the Twilio socket before the [start]
    event has set [streamSid]: without a stream id and without a [start]
    event, which sets it, a call sends no [media] message; an audio delta
    that arrives
    then is dropped with the warning that the stream id is not set; with a
    stream id, the delta is passed on, addressed by it. *)
Theorem outbound_audio_waits_for_stream_start :
  (forall events s,
     Forall (fun e => is_twilio_start e = false) events ->
     truthy_str (streamSid s) = false ->
     truthy_str (streamSid (run callId hour events s).1) = false
     /\ count is_media (run callId hour events s).2 = 0)
  /\ (forall s m,
        phase s = Bridging ->
        truthy_str (streamSid s) = false ->
        type m = u "response.output_audio.delta" -> truthy_str (delta m) = true ->
        onXaiMessage callId hour (Some m) s
        = (s, [Log Warn "Cannot send audio to Twilio - streamSid not set yet"])
        /\ Log Warn "Cannot send audio to Twilio - streamSid not set yet"
             ∈ (handle callId hour (XaiMessage (Some m)) s).2
        /\ count is_media (handle callId hour (XaiMessage (Some m)) s).2 = 0)
  /\ (forall s m sid d,
        phase s = Bridging ->
        streamSid s = Some sid -> sid <> [] ->
        type m = u "response.output_audio.delta" -> delta m = Some d -> d <> [] ->
        TwilioSend (Media d sid) ∈ (handle callId hour (XaiMessage (Some m)) s).2)
  /\ (forall s sid, streamSid (handle callId hour (TwilioStart sid) s).1 = Some sid).
Proof.
  split; [|split; [|split]].
  - intros events s Hev Hs.
    apply (respects_run _ (stream_step_nil) (stream_step_app) callId hour events); [|done].
    intros e He. apply handle_stream. by apply (proj1 (Forall_forall _ _) Hev).
  - intros s m Hp Hs Htype Hdelta.
    assert (onXaiMessage callId hour (Some m) s
            = (s, [Log Warn "Cannot send audio to Twilio - streamSid not set yet"])) as E.
    { by_type Htype. unfold andThen, emit. simpl. by rewrite Hdelta, Hs. }
    split; [done|]. split.
    + unfold handle. rewrite Hp, andThen_eq, E. simpl. left.
    + by apply (handle_stream callId hour (XaiMessage (Some m))).
  - intros s m sid d Hp Hs Hsid Htype Hdelta Hd.
    unfold handle. rewrite Hp, andThen_eq. simpl.
    apply elem_of_app. left.
    by_type Htype. unfold andThen, emit. simpl. rewrite Hdelta, Hs.
    destruct sid; [done|]. destruct d; [done|]. simpl. left.
  - intros s sid. unfold handle. by destruct (phase s).
Qed.

(** C2, as the code has it.  In every call the greetings sent are the rise
    of [greetingSent], so there is at most one, and [greetingSent] never
    goes back to false.  The greeting is sent by [session.updated] when the
    stream id is set by then; otherwise [session.updated] starts a poll,
    and a tick of that poll sends the greeting once the stream id is set.
    The greeting is the user message with the prompt, then
    [response.create]. *)
Theorem greeting_sent_at_most_once :
  (forall events s,
     count is_greeting (run callId hour events s).2 + b2n (greetingSent s)
     = b2n (greetingSent (run callId hour events s).1))
  /\ (forall e s,
        greetingSent s = true -> greetingSent (handle callId hour e s).1 = true)
  /\ (forall s m,
        phase s = Bridging -> type m = u "session.updated" ->
        greetingSent s = false -> truthy_str (streamSid s) = true ->
        count is_greeting (handle callId hour (XaiMessage (Some m)) s).2 = 1)
  /\ (forall s m,
        phase s = Bridging -> type m = u "session.updated" ->
        greetingSent s = false -> truthy_str (streamSid s) = false ->
        let s' := (handle callId hour (XaiMessage (Some m)) s).1 in
        sessionReady s' = true /\ greetingSent s' = false
        /\ pollers s' = pollers s ++ [true])
  /\ (forall s i,
        phase s = Bridging -> pollers s !! i = Some true ->
        sessionReady s = true -> greetingSent s = false ->
        truthy_str (streamSid s) = true ->
        count is_greeting (handle callId hour (PollTick i) s).2 = 1)
  /\ (forall s,
        (trySendGreeting hour s).2 = []
        \/ List.filter is_xai_send (trySendGreeting hour s).2
           = [XaiSend (UserMessageItem (greetingPrompt hour (userContext s)));
              XaiSend ResponseCreate]).
Proof.
  assert (forall e s, count is_greeting (handle callId hour e s).2 + b2n (greetingSent s)
                      = b2n (greetingSent (handle callId hour e s).1)) as Step
    by (intros e s; apply handle_greeting).
  split; [|split; [|split; [|split; [|split]]]].
  - intros events s. apply run_greeting.
  - intros e s Hg. specialize (Step e s). rewrite Hg in Step.
    destruct (greetingSent (handle callId hour e s).1); [done|].
    unfold b2n in Step. lia.
  - intros s m Hp Htype Hg Hs.
    specialize (Step (XaiMessage (Some m)) s). rewrite Hg in Step.
    change (b2n false) with 0 in Step. rewrite Nat.add_0_r in Step. rewrite Step.
    unfold handle. rewrite Hp, andThen_eq. cbn [fst].
    destruct (through_microtasks (onXaiMessage callId hour (Some m) s).1) as (_ & -> & _).
    by_type Htype. unfold onSessionUpdated, trySendGreeting, modify, emit, andThen.
    simpl. rewrite Hg, Hs. reflexivity.
  - intros s m Hp Htype Hg Hs s'. unfold s', handle. rewrite Hp, andThen_eq. cbn [fst].
    destruct (through_microtasks (onXaiMessage callId hour (Some m) s).1)
      as (_ & -> & -> & -> & _).
    by_type Htype. unfold onSessionUpdated, trySendGreeting, modify, emit, andThen.
    simpl. rewrite Hg, Hs. simpl. rewrite Hg. simpl. done.
  - intros s i Hp Hi Hr Hg Hs.
    unfold handle. rewrite Hp. unfold onPollTick. rewrite Hi, Hs.
    unfold trySendGreeting, modify, andThen. simpl. rewrite Hg, Hr, Hs. reflexivity.
  - intros s. unfold trySendGreeting.
    destruct (greetingSent s || negb (sessionReady s) || negb (truthy_str (streamSid s)));
      [by left|by right].
Qed.

(** C9. When [input_audio_buffer.speech_started] is handled, the [clear]
    command that carries the stream id goes to the Twilio socket after the
    log lines of the handler and before anything else: all that the later
    events of the call make the bridge send comes after it. *)
Theorem barge_in_clears_before_later_audio :
  forall earlier later s0 m,
    let s := (run callId hour earlier s0).1 in
    phase s = Bridging ->
    type m = u "input_audio_buffer.speech_started" ->
    exists rest,
      (run callId hour (earlier ++ XaiMessage (Some m) :: later) s0).2
      = (run callId hour earlier s0).2
        ++ [Log Debug "RECV"; Log Info "message.type";
            Log Info "USER STARTED SPEAKING (server VAD)";
            Log Info "VAD triggered at audio_start_ms"]
        ++ [TwilioSend (Clear (streamSid s))]
        ++ rest
        ++ (run callId hour later (handle callId hour (XaiMessage (Some m)) s).1).2.
Proof.
  intros earlier later s0 m s Hp Htype.
  rewrite run_app_effects. fold s. cbn [run]. rewrite andThen_eq. cbn [fst snd].
  assert (exists rest,
    (handle callId hour (XaiMessage (Some m)) s).2
    = [Log Debug "RECV"; Log Info "message.type";
       Log Info "USER STARTED SPEAKING (server VAD)";
       Log Info "VAD triggered at audio_start_ms"]
      ++ [TwilioSend (Clear (streamSid s))] ++ rest) as [rest E].
  { unfold handle. rewrite Hp, andThen_eq. cbn [snd].
    exists ([Log Debug "Unknown"] ++ (microtasks (onXaiMessage callId hour (Some m) s).1).2).
    by_type Htype. reflexivity. }
  exists rest. rewrite E, <- !app_assoc. reflexivity.
Qed.

Lemma handle_fragment m s :
  type m = u "response.function_call_arguments.delta" ->
  phase s = Bridging -> quiet s ->
  handle callId hour (XaiMessage (Some m)) s
  = (set_functionCallState
       {| fc_callId := fc_callId (functionCallState s);
          fc_name := fc_name (functionCallState s);
          fc_arguments := fc_arguments (functionCallState s) ++ or_empty (delta m) |} s,
     [Log Debug "RECV"; Log Info "message.type"; Log Debug "Unknown"]).
Proof.
  intros Htype Hp Hq. unfold handle. rewrite Hp, andThen_eq.
  assert (onXaiMessage callId hour (Some m) s
          = (set_functionCallState
               {| fc_callId := fc_callId (functionCallState s);
                  fc_name := fc_name (functionCallState s);
                  fc_arguments := fc_arguments (functionCallState s) ++ or_empty (delta m) |} s,
             [Log Debug "RECV"; Log Info "message.type"; Log Debug "Unknown"])) as ->.
  { by_type Htype. reflexivity. }
  cbn [fst snd]. by rewrite microtasks_quiet.
Qed.

Lemma arguments_step_nil s : arguments_step s [] s.
Proof. by intros ? ?. Qed.

Lemma arguments_step_app s o s' o' s'' :
  arguments_step s o s' -> arguments_step s' o' s'' -> arguments_step s (o ++ o') s''.
Proof.
  intros H1 H2 Hp Hi. destruct (H1 Hp Hi) as (Hp' & Hi' & E).
  destruct (H2 Hp' Hi') as (Hp'' & Hi'' & E'). by rewrite E', E.
Qed.

Ltac arguments_leaf :=
  try congruence;
  resolve_effects; unfold arguments_step; simpl in *;
  try (intros; repeat split; congruence);
  try (intros ? Hi; rewrite Hi in *; simpl in *; discriminate).

Lemma microtasks_arguments : respects arguments_step microtasks.
Proof.
  intros s Hp Hi. unfold microtasks. rewrite Hi. simpl. rewrite <- Hi at 1 2.
  rewrite ?set_inflight_same. by repeat split.
Qed.

Lemma handle_arguments e :
  fragment_of e = None -> is_response_done e = false ->
  respects arguments_step (handle callId hour e).
Proof.
  intros Hf Hd s. destruct (phase s) eqn:Hp; try (intros ?; congruence).
  unfold handle. rewrite Hp.
  destruct e as [| | |[m|]| | | |i reply|i reply| | | | |]; simpl in Hf, Hd;
    try (applied_go arguments_step_nil arguments_step_app arguments_leaf; fail).
  - destruct (str_eqb (type m) (u "response.function_call_arguments.delta")) eqn:Hfr;
      [discriminate|].
    apply (respects_apply _ (onXaiMessage callId hour (Some m) >>> microtasks)),
      (respects_andThen _ arguments_step_app); [|apply microtasks_arguments].
    respects_go arguments_step_nil arguments_step_app arguments_leaf.
  - apply (respects_apply _ (onXaiMessage callId hour None >>> microtasks)),
      (respects_andThen _ arguments_step_app); [|apply microtasks_arguments].
    respects_go arguments_step_nil arguments_step_app arguments_leaf.
  - apply (respects_apply _ (onProviderText i reply >>> microtasks)),
      (respects_andThen _ arguments_step_app); [|apply microtasks_arguments].
    respects_go arguments_step_nil arguments_step_app arguments_leaf.
  - apply (respects_apply _ (onProviderUser i reply >>> microtasks)),
      (respects_andThen _ arguments_step_app); [|apply microtasks_arguments].
    respects_go arguments_step_nil arguments_step_app arguments_leaf.
Qed.

Lemma handle_arguments_done m s :
  type m = u "response.function_call_arguments.done" ->
  phase s = Bridging -> quiet s ->
  handle callId hour (XaiMessage (Some m)) s
  = (set_functionCallState
       {| fc_callId := call_id m; fc_name := name m;
          fc_arguments := fc_arguments (functionCallState s) |} s,
     [Log Debug "RECV"; Log Info "message.type";
      Log Info "Function call requested"; Log Info "Arguments"; Log Debug "Unknown"]).
Proof.
  intros Htype Hp Hq. unfold handle. rewrite Hp, andThen_eq.
  assert (onXaiMessage callId hour (Some m) s
          = (set_functionCallState
               {| fc_callId := call_id m; fc_name := name m;
                  fc_arguments := fc_arguments (functionCallState s) |} s,
             [Log Debug "RECV"; Log Info "message.type";
              Log Info "Function call requested"; Log Info "Arguments";
              Log Debug "Unknown"])) as ->.
  { unfold onXaiMessage, logWebSocketEvent, firstChain, secondChain;
      rewrite Htype; literal_tests. reflexivity. }
  cbn [fst snd]. by rewrite microtasks_quiet.
Qed.

(** Whatever comes between the fragments, as long as no tool is in flight
    and no [response.done] comes, the text of the arguments grows by the
    fragments, in the order of their arrival. *)
Lemma run_arguments events : forall s,
  phase s = Bridging -> inflight s = [] ->
  Forall (fun e => is_response_done e = false) events ->
  let r := run callId hour events s in
  phase r.1 = Bridging /\ inflight r.1 = []
  /\ fc_arguments (functionCallState r.1)
     = fc_arguments (functionCallState s) ++ concat (omap fragment_of events).
Proof.
  induction events as [|e events IH]; intros s Hp Hi Hev.
  { simpl. by rewrite app_nil_r. }
  apply Forall_cons in Hev as [He Hev].
  cbn [run]. rewrite andThen_eq. cbn [fst].
  assert (phase (handle callId hour e s).1 = Bridging
          /\ inflight (handle callId hour e s).1 = []
          /\ fc_arguments (functionCallState (handle callId hour e s).1)
             = fc_arguments (functionCallState s) ++ default [] (fragment_of e))
    as (Hp' & Hi' & E).
  { destruct (fragment_of e) as [d|] eqn:Hf.
    - destruct e as [| | |[m|]| | | | | | | | | |]; try discriminate.
      cbn [fragment_of] in Hf.
      destruct (str_eqb (type m) (u "response.function_call_arguments.delta")) eqn:Ht;
        [|discriminate].
      injection Hf as <-. apply str_eqb_eq in Ht.
      rewrite (handle_fragment m s Ht Hp)
        by (unfold quiet; rewrite Hi; constructor).
      by destruct s.
    - destruct (handle_arguments e Hf He s Hp Hi) as (Hp' & Hi' & E).
      cbn [default]. by rewrite app_nil_r. }
  destruct (IH _ Hp' Hi' Hev) as (Hp'' & Hi'' & E').
  split; [done|]. split; [done|]. rewrite E', E.
  change (omap fragment_of (e :: events))
    with (match fragment_of e with
          | Some d => d :: omap fragment_of events
          | None => omap fragment_of events
          end).
  destruct (fragment_of e); cbn [default concat]; by rewrite <- ?app_assoc, ?app_nil_r.
Qed.

(** [response.done] with a pending call starts the tool on the parsed
    arguments. *)
Lemma onXaiMessage_response_done s m :
  type m = u "response.done" ->
  truthy_str (fc_name (functionCallState s)) = true ->
  truthy_str (fc_callId (functionCallState s)) = true ->
  let task :=
    executeToolCall (activeCallContexts s) callId
      (or_empty (fc_name (functionCallState s)))
      (toolArguments (fc_arguments (functionCallState s))).1 in
  onXaiMessage callId hour (Some m) s
  = (set_inflight (inflight s ++ [task]) s,
     [Log Debug "RECV"; Log Info "message.type"]
     ++ (toolArguments (fc_arguments (functionCallState s))).2
     ++ [Log Info "Executing tool"] ++ request task ++ [Log Debug "Unknown"]).
Proof.
  intros Htype Hn Hc task.
  by_type Htype. unfold onResponseDone, startTool, emit, andThen. cbn beta iota.
  rewrite Hn, Hc. cbn [andb]. subst task.
  destruct (toolArguments (fc_arguments (functionCallState s))) as [args logs].
  simpl. by rewrite <- !app_assoc.
Qed.

(** C6. The fragments of the arguments are appended to
    [functionCallState.arguments] in the order of their arrival, also when
    other events come between them, as long as no tool is in flight and no
    [response.done] comes.  The two fragments of the example make a text
    that parses to the object whose member [a] is 1; without the closing
    brace the text does not parse.  At [response.done] with a pending
    call, the tool is run with the value that the text parses to, whatever
    that value is, with the empty object when there is no text, and with
    the empty object, after an error log line, when the text does not
    parse: the handler goes on to the end either way.  So the tool that
    [response.function_call_arguments.done] names is run, at the next
    [response.done], with what the concatenation of the fragments parses
    to. *)
Theorem tool_arguments_are_concatenated_then_parsed :
  (forall fragments s,
     Forall (fun m => type m = u "response.function_call_arguments.delta") fragments ->
     phase s = Bridging -> quiet s ->
     functionCallState
       (run callId hour (map (fun m => XaiMessage (Some m)) fragments) s).1
     = {| fc_callId := fc_callId (functionCallState s);
          fc_name := fc_name (functionCallState s);
          fc_arguments :=
            fc_arguments (functionCallState s)
            ++ concat (map (fun m => or_empty (delta m)) fragments) |})
  /\ (forall events s,
        phase s = Bridging -> inflight s = [] ->
        Forall (fun e => is_response_done e = false) events ->
        fc_arguments (functionCallState (run callId hour events s).1)
        = fc_arguments (functionCallState s) ++ concat (omap fragment_of events))
  /\ Json.parse (open_object ++ u "}") = Some (JObj [(u "a", JNum (u "1"))])
  /\ Json.parse open_object = None
  /\ (forall arguments args,
        Json.parse (if nonempty arguments then arguments else u "{}") = Some args ->
        toolArguments arguments = (args, []))
  /\ toolArguments [] = (JObj [], [])
  /\ (forall arguments,
        Json.parse (if nonempty arguments then arguments else u "{}") = None ->
        toolArguments arguments = (JObj [], [Log Error "Failed to parse function args"]))
  /\ (forall s m,
        phase s = Bridging -> type m = u "response.done" ->
        truthy_str (fc_name (functionCallState s)) = true ->
        truthy_str (fc_callId (functionCallState s)) = true ->
        let task :=
          executeToolCall (activeCallContexts s) callId
            (or_empty (fc_name (functionCallState s)))
            (toolArguments (fc_arguments (functionCallState s))).1 in
        onXaiMessage callId hour (Some m) s
        = (set_inflight (inflight s ++ [task]) s,
           [Log Debug "RECV"; Log Info "message.type"]
           ++ (toolArguments (fc_arguments (functionCallState s))).2
           ++ [Log Info "Executing tool"] ++ request task ++ [Log Debug "Unknown"]))
  /\ (forall events ended m call tool s,
        phase s = Bridging -> inflight s = [] ->
        Forall (fun e => is_response_done e = false) events ->
        type ended = u "response.function_call_arguments.done" ->
        call_id ended = Some call -> call <> [] ->
        name ended = Some tool -> tool <> [] ->
        type m = u "response.done" ->
        let arguments :=
          fc_arguments (functionCallState s) ++ concat (omap fragment_of events) in
        let s1 := (run callId hour (events ++ [XaiMessage (Some ended)]) s).1 in
        let task :=
          executeToolCall (activeCallContexts s1) callId tool (toolArguments arguments).1 in
        onXaiMessage callId hour (Some m) s1
        = (set_inflight [task] s1,
           [Log Debug "RECV"; Log Info "message.type"]
           ++ (toolArguments arguments).2
           ++ [Log Info "Executing tool"] ++ request task ++ [Log Debug "Unknown"])).
Proof.
  split; [|split; [|split; [|split; [|split; [|split; [|split; [|split]]]]]]].
  - induction fragments as [|m fragments IH]; intros s Hty Hp Hq.
    + simpl. rewrite app_nil_r. by destruct (functionCallState s).
    + apply Forall_cons in Hty as [Hm Hty].
      cbn [map run]. rewrite andThen_eq. cbn [fst].
      rewrite (handle_fragment m s Hm Hp Hq). cbn [fst].
      rewrite IH; [|done|done|done]. simpl. by rewrite <- app_assoc.
  - intros events s Hp Hi Hev. by apply run_arguments.
  - vm_compute. reflexivity.
  - vm_compute. reflexivity.
  - intros arguments args E. unfold toolArguments. by rewrite E.
  - vm_compute. reflexivity.
  - intros arguments E. unfold toolArguments. by rewrite E.
  - intros s m Hp Htype Hn Hc. by apply onXaiMessage_response_done.
  - intros events ended m call tool s Hp Hi Hev Hended Hcall Hc Hname Hn Htype
      arguments s1 task.
    destruct (run_arguments events s Hp Hi Hev) as (Hp' & Hi' & E).
    assert (s1 = set_functionCallState
                   {| fc_callId := Some call; fc_name := Some tool;
                      fc_arguments := arguments |} (run callId hour events s).1) as Es.
    { unfold s1. rewrite run_app_state. cbn [run]. rewrite andThen_eq. cbn [fst skip].
      rewrite (handle_arguments_done ended _ Hended Hp')
        by (unfold quiet; rewrite Hi'; constructor).
      cbn [fst]. by rewrite Hcall, Hname, E. }
    assert (truthy_str (fc_name (functionCallState s1)) = true) as Tn
      by (rewrite Es; by destruct tool).
    assert (truthy_str (fc_callId (functionCallState s1)) = true) as Tc
      by (rewrite Es; by destruct call).
    rewrite (onXaiMessage_response_done s1 m Htype Tn Tc).
    assert (inflight s1 = []) as -> by (rewrite Es; by destruct (run callId hour events s).1).
    assert (fc_arguments (functionCallState s1) = arguments) as ->
      by (rewrite Es; by destruct (run callId hour events s).1).
    assert (fc_name (functionCallState s1) = Some tool) as ->
      by (rewrite Es; by destruct (run callId hour events s).1).
    reflexivity.
Qed.

Lemma handle_teardown_bound e s :
  count is_cleanup (handle callId hour e s).2 + closing (handle callId hour e s).1
  <= closing s + b2n (is_twilio_close e).
Proof.
  destruct (is_twilio_close e) eqn:He.
  - destruct e; try discriminate. unfold handle.
    destruct (phase s); simpl; try lia.
    unfold onTwilioClose, cleanup, andThen, emit, modify. simpl.
    destruct (truthy_str (callConversationIds s !! callId)); simpl; lia.
  - pose proof (handle_teardown callId hour e He s) as E.
    unfold teardown_step in E. simpl. lia.
Qed.

(** As long as the Twilio socket does not close, nothing is released and
    the entries of the call stay in the three maps that only the teardown
    touches. *)
Lemma entries_stay_until_twilio_close events s :
  phase s = Bridging -> closing s = 0 ->
  Forall (fun e => is_twilio_close e = false) events ->
  let r := run callId hour events s in
  count is_cleanup r.2 = 0
  /\ callPhoneNumbers r.1 = callPhoneNumbers s
  /\ callConversationIds r.1 = callConversationIds s
  /\ activeCallContexts r.1 = activeCallContexts s.
Proof.
  intros Hp Hc Hev r. subst r.
  pose proof (respects_run _ teardown_step_nil teardown_step_app callId hour events) as T.
  pose proof (respects_run _ kept_step_nil kept_step_app callId hour events
                (fun e _ => handle_kept callId hour e) s Hp) as [_ K].
  specialize (T (fun e He => handle_teardown callId hour e
                               (proj1 (Forall_forall _ _) Hev e He)) s).
  unfold teardown_step in T.
  assert (count is_cleanup (run callId hour events s).2 = 0) as Z by lia.
  split; [done|]. by apply K.
Qed.

(** C1, as the code has it.  The per-call entries are released by the
    close handler of the Twilio socket, and by nothing else.  In a call
    there are at most as many releases as [close] events of the Twilio
    socket.  That handler first closes the x.ai socket, then asks the
    backend to end the conversation when there is one, and only once that
    request has settled deletes the entries of the call from the four
    maps: until then the four maps are as they were; with no conversation
    it deletes them at once.  The [close] and
    [error] events of the x.ai socket and the [error] event of the Twilio
    socket only log, the [error] of the x.ai socket twice, since the
    listener that awaited the connection is never removed; and as long as
    the Twilio socket does not close, the entries of the call in
    [callPhoneNumbers], [callConversationIds] and [activeCallContexts]
    stay. *)
Theorem teardown_follows_the_twilio_close :
  (forall events s,
     count is_cleanup (run callId hour events s).2 + closing (run callId hour events s).1
     <= closing s + occurrences is_twilio_close events)
  /\ (forall s failed,
        phase s = Bridging -> closing s = 0 ->
        let conversationId := callConversationIds s !! callId in
        let r := run callId hour [TwilioClose; ConversationEnded failed] s in
        r.2 = [Log Info "Twilio WebSocket closed, disconnecting x.ai"; XaiCloseCall]
              ++ (if truthy_str conversationId
                  then [Backend (EndConversation (or_empty conversationId));
                        if failed then Log Error "Error ending conversation"
                        else Log Info "Conversation ended"]
                  else [])
              ++ [Log Info "Call context cleaned up"]
        /\ XaiCloseCall ∈ r.2 /\ count is_cleanup r.2 = 1
        /\ activeCallContexts r.1 !! callId = None
        /\ callPhoneNumbers r.1 !! callId = None
        /\ callConversationIds r.1 !! callId = None
        /\ botTranscriptBuffers r.1 !! callId = None)
  /\ (forall s,
        phase s = Bridging ->
        let conversationId := callConversationIds s !! callId in
        let r := handle callId hour TwilioClose s in
        if truthy_str conversationId then
          r.2 = [Log Info "Twilio WebSocket closed, disconnecting x.ai"; XaiCloseCall;
                 Backend (EndConversation (or_empty conversationId))]
          /\ closing r.1 = S (closing s)
          /\ activeCallContexts r.1 = activeCallContexts s
          /\ callPhoneNumbers r.1 = callPhoneNumbers s
          /\ callConversationIds r.1 = callConversationIds s
          /\ botTranscriptBuffers r.1 = botTranscriptBuffers s
        else
          r.2 = [Log Info "Twilio WebSocket closed, disconnecting x.ai"; XaiCloseCall;
                 Log Info "Call context cleaned up"]
          /\ closing r.1 = closing s
          /\ activeCallContexts r.1 !! callId = None
          /\ callPhoneNumbers r.1 !! callId = None
          /\ callConversationIds r.1 !! callId = None
          /\ botTranscriptBuffers r.1 !! callId = None)
  /\ (forall s failed,
        phase s = Bridging ->
        let r := handle callId hour (ConversationEnded failed) s in
        match closing s with
        | O => r = (s, [])
        | S n =>
            r.2 = [if failed then Log Error "Error ending conversation"
                   else Log Info "Conversation ended";
                   Log Info "Call context cleaned up"]
            /\ closing r.1 = n
            /\ activeCallContexts r.1 !! callId = None
            /\ callPhoneNumbers r.1 !! callId = None
            /\ callConversationIds r.1 !! callId = None
            /\ botTranscriptBuffers r.1 !! callId = None
        end)
  /\ (forall s,
        phase s = Bridging ->
        handle callId hour XaiClose s
        = (set_readyState CLOSED s, [Log Error "x.ai WebSocket CLOSED"])
        /\ handle callId hour XaiError s
           = (s, [Log Error "x.ai WebSocket error"; Log Error "x.ai WebSocket ERROR"])
        /\ handle callId hour TwilioError s = (s, [Log Error "Twilio WebSocket error"]))
  /\ (forall events s,
        phase s = Bridging -> closing s = 0 ->
        Forall (fun e => is_twilio_close e = false) events ->
        let r := run callId hour events s in
        count is_cleanup r.2 = 0
        /\ callPhoneNumbers r.1 = callPhoneNumbers s
        /\ callConversationIds r.1 = callConversationIds s
        /\ activeCallContexts r.1 = activeCallContexts s).
Proof.
  split; [|split; [|split; [|split; [|split]]]].
  - induction events as [|e events IH]; intros s.
    + simpl. unfold occurrences. simpl. lia.
    + cbn [run]. rewrite andThen_eq. cbn [fst snd]. rewrite count_app.
      pose proof (handle_teardown_bound e s) as B.
      specialize (IH (handle callId hour e s).1).
      unfold occurrences in *. cbn [List.filter].
      destruct (is_twilio_close e); simpl in *; lia.
  - intros s failed Hp Hc conversationId r. subst r conversationId.
    unfold run, handle, andThen, skip.
    rewrite Hp. unfold onTwilioClose, onConversationEnded, cleanup, andThen, emit, modify.
    simpl.
    destruct (truthy_str (callConversationIds s !! callId)); simpl; rewrite Hp; simpl;
      rewrite ?Hc; simpl; unfold cleanupCallContext;
      rewrite !lookup_delete_eq;
      (split; [reflexivity|]);
      (split; [destruct failed; set_solver|]); by destruct failed.
  - intros s Hp conversationId r. subst r conversationId. unfold handle. rewrite Hp.
    unfold onTwilioClose, cleanup, cleanupCallContext, andThen, emit, modify. simpl.
    destruct (truthy_str (callConversationIds s !! callId)); simpl;
      rewrite ?lookup_delete_eq; by destruct s.
  - intros s failed Hp r. subst r. unfold handle. rewrite Hp.
    unfold onConversationEnded, cleanup, cleanupCallContext, andThen, emit, modify.
    destruct (closing s) as [|n]; [done|]. simpl.
    rewrite !lookup_delete_eq. by destruct s.
  - intros s Hp. unfold handle. by rewrite Hp.
  - intros events s Hp Hc Hev. by apply entries_stay_until_twilio_close.
Qed.

Lemma set_inflight_same s : set_inflight (inflight s) s = s.
Proof. by destruct s. Qed.

Lemma set_inflight_twice l l' s : set_inflight l (set_inflight l' s) = set_inflight l s.
Proof. by destruct s. Qed.

(** The callbacks after one task has been started, or has gone on, in a
    quiet state: the callback of that task runs if it has finished. *)
Lemma microtasks_one l t s :
  Forall (fun t => pending t = true) l ->
  microtasks (set_inflight (l ++ [t]) s)
  = match finished t with
    | Some r => onToolSettled r (set_inflight l s)
    | None => (set_inflight (l ++ [t]) s, [])
    end.
Proof.
  intros Hl. destruct (filter_pending_id l Hl) as [F O].
  unfold microtasks. cbn [inflight set_inflight].
  rewrite List.filter_app, F, omap_app, O.
  destruct t as [r| |]; simpl; rewrite ?app_nil_r, set_inflight_twice.
  - rewrite andThen_eq. unfold skip. cbn [fst snd]. rewrite app_nil_r.
    by destruct (onToolSettled r (set_inflight l s)).
  - reflexivity.
  - reflexivity.
Qed.

(** X4. A single dispatch.  With the call [call] pending in a quiet state,
    [response.done] starts the tool.  When the tool is done without a
    request, or when the reply to its request comes as the next event and
    ends it, the bridge sends the output for [call], then
    [response.create], and clears [functionCallState]. *)
Lemma single_dispatch_is_answered s m call tool :
  phase s = Bridging -> quiet s ->
  type m = u "response.done" ->
  fc_name (functionCallState s) = Some tool -> tool <> [] ->
  fc_callId (functionCallState s) = Some call -> call <> [] ->
  let task :=
    executeToolCall (activeCallContexts s) callId tool
      (toolArguments (fc_arguments (functionCallState s))).1 in
  (forall result,
     task = Done (Normal result) ->
     let r := handle callId hour (XaiMessage (Some m)) s in
     List.filter is_xai_send r.2
     = [XaiSend (FunctionCallOutput (Some call) result); XaiSend ResponseCreate]
     /\ functionCallState r.1 = no_function_call)
  /\ (forall c k reply result,
        task = AwaitText c k -> k reply = Done (Normal result) ->
        let r := run callId hour
                   [XaiMessage (Some m); ProviderText (length (inflight s)) reply] s in
        List.filter is_xai_send r.2
        = [XaiSend (FunctionCallOutput (Some call) result); XaiSend ResponseCreate]
        /\ functionCallState r.1 = no_function_call).
Proof.
  intros Hp Hq Htype Hn Hne Hc Hce task.
  assert (truthy_str (fc_name (functionCallState s)) = true) as Tn
    by (rewrite Hn; by destruct tool).
  assert (truthy_str (fc_callId (functionCallState s)) = true) as Tc
    by (rewrite Hc; by destruct call).
  pose proof (onXaiMessage_response_done s m Htype Tn Tc) as E.
  rewrite Hn in E. cbn [or_empty] in E. fold task in E. cbv zeta in E.
  assert (forall o, List.filter is_xai_send
            ([Log Debug "RECV"; Log Info "message.type"]
             ++ (toolArguments (fc_arguments (functionCallState s))).2
             ++ [Log Info "Executing tool"] ++ o ++ [Log Debug "Unknown"])
          = List.filter is_xai_send o) as Logs.
  { intros o. unfold toolArguments.
    destruct (Json.parse _); cbn [snd app List.filter is_xai_send];
      rewrite List.filter_app; cbn [List.filter is_xai_send]; by rewrite app_nil_r. }
  split.
  - intros result Ht r. subst r. unfold handle. rewrite Hp, andThen_eq, E.
    cbn [fst snd]. rewrite Ht, (microtasks_one _ _ _ Hq). cbn [finished onToolSettled].
    cbn [fst snd]. rewrite List.filter_app, Logs. cbn [request List.filter is_xai_send app].
    rewrite set_inflight_same, Hc. by destruct s.
  - intros c k reply result Ht Hk r. subst r. cbn [run].
    rewrite !andThen_eq. cbn [skip fst snd].
    assert (handle callId hour (XaiMessage (Some m)) s
            = (set_inflight (inflight s ++ [task]) s,
               [Log Debug "RECV"; Log Info "message.type"]
               ++ (toolArguments (fc_arguments (functionCallState s))).2
               ++ [Log Info "Executing tool"] ++ request task ++ [Log Debug "Unknown"]))
      as ->.
    { unfold handle. rewrite Hp, andThen_eq, E. cbn [fst snd].
      rewrite (microtasks_one _ _ _ Hq), Ht. cbn [finished]. by rewrite app_nil_r. }
    cbn [fst snd]. unfold handle at 1 2. cbn [phase set_inflight]. rewrite Hp.
    rewrite !andThen_eq. unfold onProviderText. cbn [inflight set_inflight].
    rewrite Ht, lookup_app_r, Nat.sub_diag by done. cbn [lookup list_lookup].
    rewrite Hk. cbn [fst snd request].
    replace (<[length (inflight s) := Done (Normal result)]> (inflight s ++ [AwaitText c k]))
      with (inflight s ++ [Done (Normal result) : Async jsstring]).
    2:{ rewrite insert_app_r_alt, Nat.sub_diag by done. reflexivity. }
    rewrite set_inflight_twice, (microtasks_one _ _ _ Hq). cbn [finished onToolSettled].
    cbn [fst snd functionCallState set_inflight].
    rewrite !app_nil_r, List.filter_app, Logs.
    cbn [request List.filter is_xai_send app].
    rewrite set_inflight_same, Hc. by destruct s.
Qed.

End Session.

(** ** The call session at work *)

(** C1, as stated, fails: when the x.ai socket closes, the
    handler logs and nothing more.  No entry of the call is released and
    nothing is sent or closed; and whatever follows, the entries stay until
    the Twilio socket closes. *)
Lemma xai_close_releases_nothing :
  let r := handle (H := integer_literals) call_1 9 XaiClose bridged in
  r.2 = [Log Error "x.ai WebSocket CLOSED"]
  /\ callPhoneNumbers r.1 !! call_1 = Some (u "+15550100")
  /\ callConversationIds r.1 !! call_1 = Some (u "conv_1")
  /\ activeCallContexts r.1 !! call_1 = Some ann
  /\ forall later,
       Forall (fun e => is_twilio_close e = false) later ->
       let r' := run (H := integer_literals) call_1 9 (XaiClose :: later) bridged in
       count is_cleanup r'.2 = 0
       /\ callPhoneNumbers r'.1 !! call_1 = Some (u "+15550100")
       /\ callConversationIds r'.1 !! call_1 = Some (u "conv_1")
       /\ activeCallContexts r'.1 !! call_1 = Some ann.
Proof.
  split; [reflexivity|]. split; [reflexivity|]. split; [reflexivity|].
  split; [reflexivity|].
  intros later Hl r'. subst r'.
  destruct (entries_stay_until_twilio_close (H := integer_literals) call_1 9
              (XaiClose :: later) bridged)
    as (Z & E1 & E2 & E3); try reflexivity.
  - by constructor.
  - cbv zeta. rewrite E1, E2, E3. by repeat split.
Qed.

(** The close of the Twilio socket of a call that has a conversation, and
    the settlement of the request that ends it. *)
Lemma teardown_follows_the_twilio_close_witness :
  phase bridged = Bridging /\ closing bridged = 0
  /\ let r := run (H := integer_literals) call_1 9
                [TwilioClose; ConversationEnded false] bridged in
     r.2 = [Log Info "Twilio WebSocket closed, disconnecting x.ai"; XaiCloseCall;
            Backend (EndConversation (u "conv_1")); Log Info "Conversation ended";
            Log Info "Call context cleaned up"]
     /\ XaiCloseCall ∈ r.2 /\ count is_cleanup r.2 = 1
     /\ activeCallContexts r.1 !! call_1 = None
     /\ callPhoneNumbers r.1 !! call_1 = None
     /\ callConversationIds r.1 !! call_1 = None
     /\ botTranscriptBuffers r.1 !! call_1 = None.
Proof.
  split; [reflexivity|]. split; [reflexivity|].
  exact (proj1 (proj2 (teardown_follows_the_twilio_close (H := integer_literals) call_1 9))
           bridged false eq_refl eq_refl).
Defined.

(** C2, as stated, fails: [session.updated] comes first, the
    poll that it starts times out, and the stream starts after that.  Both
    signals have arrived and no greeting is sent; nor is one sent later,
    whatever follows, unless [session.updated] comes again. *)
Lemma greeting_missed_after_poll_timeout :
  let events :=
    [connected; XaiMessage (Some (bare "session.updated")); PollTimeout 0;
     TwilioStart (u "MZ1")] in
  let r := run (H := integer_literals) call_1 9 events entered in
  sessionReady r.1 = true /\ truthy_str (streamSid r.1) = true
  /\ count is_greeting r.2 = 0
  /\ forall later,
       Forall (fun e => is_session_updated e = false) later ->
       count is_greeting
         (run (H := integer_literals) call_1 9 (events ++ later) entered).2 = 0.
Proof.
  intros events r. split; [reflexivity|]. split; [reflexivity|].
  split; [reflexivity|].
  intros later Hl. rewrite run_app_effects, count_app. fold r.
  replace (count is_greeting r.2) with 0 by reflexivity.
  apply (respects_run _ missed_step_nil missed_step_app call_1 9 later).
  - intros e He. apply handle_missed. by apply (proj1 (Forall_forall _ _) Hl).
  - split; [reflexivity|]. split; [reflexivity|]. by repeat constructor.
Qed.

Lemma greeting_sent_at_most_once_witness :
  (phase bridged = Bridging /\ greetingSent bridged = false
   /\ truthy_str (streamSid bridged) = true
   /\ count is_greeting
        (handle (H := integer_literals) call_1 9
           (XaiMessage (Some (bare "session.updated"))) bridged).2 = 1)
  /\ (let s := (run (H := integer_literals) call_1 9
                  [XaiMessage (Some (bare "session.updated")); TwilioStart (u "MZ1")]
                  bridged_without_stream).1 in
      pollers s !! 0 = Some true
      /\ count is_greeting (handle (H := integer_literals) call_1 9 (PollTick 0) s).2 = 1).
Proof.
  pose proof (greeting_sent_at_most_once (H := integer_literals) call_1 9)
    as (_ & _ & Ready & _ & Tick & _).
  split.
  - split; [reflexivity|]. split; [reflexivity|]. split; [reflexivity|].
    exact (Ready bridged (bare "session.updated") eq_refl eq_refl eq_refl eq_refl).
  - split; [reflexivity|].
    exact (Tick (run (H := integer_literals) call_1 9
                   [XaiMessage (Some (bare "session.updated")); TwilioStart (u "MZ1")]
                   bridged_without_stream).1
             0 eq_refl eq_refl eq_refl eq_refl eq_refl).
Defined.

Lemma inbound_audio_waits_for_session_updated_witness :
  phase bridged = Bridging /\ sessionReady bridged = false
  /\ exists logs,
       handle (H := integer_literals) call_1 9
         (TwilioMedia (u "inbound") (u "AAAA")) bridged
       = (set_audioPacketCount (increment (audioPacketCount bridged)) bridged, logs)
       /\ count is_append logs = 0.
Proof.
  split; [reflexivity|]. split; [reflexivity|].
  exact (proj1 (proj2 (proj2 (proj2 (inbound_audio_waits_for_session_updated
                                       (H := integer_literals) call_1 9))))
           bridged (u "inbound") (u "AAAA") eq_refl eq_refl).
Defined.

Lemma outbound_audio_waits_for_stream_start_witness :
  phase bridged_without_stream = Bridging
  /\ truthy_str (streamSid bridged_without_stream) = false
  /\ onXaiMessage (H := integer_literals) call_1 9
       (Some (audio_delta (u "AAAA"))) bridged_without_stream
     = (bridged_without_stream,
        [Log Warn "Cannot send audio to Twilio - streamSid not set yet"]).
Proof.
  split; [reflexivity|]. split; [reflexivity|].
  exact (proj1 (proj1 (proj2 (outbound_audio_waits_for_stream_start
                                (H := integer_literals) call_1 9))
                  bridged_without_stream (audio_delta (u "AAAA"))
                  eq_refl eq_refl eq_refl eq_refl)).
Defined.

(** The two fragments of the example with an audio delta between them,
    then the end of the arguments and [response.done]: the tool is run with
    the object whose member [a] is 1; without the second fragment it is
    run with the empty object, after the error log line. *)
Lemma tool_arguments_are_concatenated_then_parsed_witness :
  let events :=
    [XaiMessage (Some (fragment (Some open_object)));
     XaiMessage (Some (audio_delta (u "AAAA")));
     XaiMessage (Some (fragment (Some (u "}"))))] in
  let ended := XaiMessage (Some (arguments_done (u "call_7") (u "search_news_topic"))) in
  let s1 := (run (H := integer_literals) call_1 9 (events ++ [ended]) bridged).1 in
  let s2 := (run (H := integer_literals) call_1 9 (take 2 events ++ [ended]) bridged).1 in
  phase bridged = Bridging /\ inflight bridged = []
  /\ fc_arguments (functionCallState (run (H := integer_literals) call_1 9 events bridged).1)
     = open_object ++ u "}"
  /\ inflight (onXaiMessage (H := integer_literals) call_1 9
                 (Some (bare "response.done")) s1).1
     = [executeToolCall (H := integer_literals) (activeCallContexts s1) call_1
          (u "search_news_topic") (JObj [(u "a", JNum (u "1"))])]
  /\ inflight (onXaiMessage (H := integer_literals) call_1 9
                 (Some (bare "response.done")) s2).1
     = [executeToolCall (H := integer_literals) (activeCallContexts s2) call_1
          (u "search_news_topic") (JObj [])]
  /\ Log Error "Failed to parse function args"
     ∈ (onXaiMessage (H := integer_literals) call_1 9 (Some (bare "response.done")) s2).2.
Proof.
  intros events ended s1 s2.
  destruct (tool_arguments_are_concatenated_then_parsed (H := integer_literals) call_1 9)
    as (_ & Interleaved & _ & _ & _ & _ & _ & _ & Dispatch).
  assert (Forall (fun e => is_response_done e = false) events) as Hev
    by (repeat constructor).
  assert (Forall (fun e => is_response_done e = false) (take 2 events)) as Hev2
    by (repeat constructor).
  assert (u "call_7" <> []) as Hc by discriminate.
  assert (u "search_news_topic" <> []) as Hn by discriminate.
  split; [reflexivity|]. split; [reflexivity|].
  split; [exact (Interleaved events bridged eq_refl eq_refl Hev)|].
  pose proof (Dispatch events (arguments_done (u "call_7") (u "search_news_topic"))
                (bare "response.done") (u "call_7") (u "search_news_topic") bridged
                eq_refl eq_refl Hev eq_refl eq_refl Hc eq_refl Hn eq_refl) as E1.
  pose proof (Dispatch (take 2 events) (arguments_done (u "call_7") (u "search_news_topic"))
                (bare "response.done") (u "call_7") (u "search_news_topic") bridged
                eq_refl eq_refl Hev2 eq_refl eq_refl Hc eq_refl Hn eq_refl) as E2.
  cbv zeta in E1, E2. fold ended in E1, E2. fold s1 in E1. fold s2 in E2.
  split; [by rewrite E1|]. split; [by rewrite E2|].
  rewrite E2. cbn [snd]. apply list_elem_of_further, list_elem_of_further, list_elem_of_here.
Defined.

Lemma barge_in_clears_before_later_audio_witness :
  let earlier := [TwilioStart (u "MZ1"); connected] in
  let later := [XaiMessage (Some (audio_delta (u "AAAA")))] in
  let m := bare "input_audio_buffer.speech_started" in
  phase (run (H := integer_literals) call_1 9 earlier entered).1 = Bridging
  /\ exists rest,
       (run (H := integer_literals) call_1 9
          (earlier ++ XaiMessage (Some m) :: later) entered).2
       = (run (H := integer_literals) call_1 9 earlier entered).2
         ++ [Log Debug "RECV"; Log Info "message.type";
             Log Info "USER STARTED SPEAKING (server VAD)";
             Log Info "VAD triggered at audio_start_ms"]
         ++ [TwilioSend (Clear (Some (u "MZ1")))]
         ++ rest
         ++ (run (H := integer_literals) call_1 9 later
               (handle (H := integer_literals) call_1 9 (XaiMessage (Some m))
                  (run (H := integer_literals) call_1 9 earlier entered).1).1).2.
Proof.
  intros earlier later m. split; [reflexivity|].
  exact (barge_in_clears_before_later_audio (H := integer_literals) call_1 9
           earlier later entered m eq_refl eq_refl).
Defined.

(** ** The answer to a tool call *)

Section ToolAnswer.
Context `{Json.Numbers}.

Lemma try_catch_fulfils {A} (m : Async A) handler : fulfils (try_catch m handler).
Proof.
  induction m as [[a|e]|c k IH|token name k IH]; simpl; by constructor.
Qed.

(** The promise of [executeToolCall] is never rejected: the failure of a
    provider, or of a read of the arguments, becomes the text of
    [{ success: false, error }]. *)
Lemma executeToolCall_fulfils contexts callId toolName args :
  fulfils (executeToolCall contexts callId toolName args).
Proof. apply try_catch_fulfils. Qed.

Lemma provider_failure_is_reported contexts callId args failure :
  exists k,
    executeToolCall contexts callId (u "get_user_posts") (JObj args)
    = AwaitText (GetUserPosts (member (u "username") args)) k
    /\ k (Throw failure)
       = Done (Normal (Json.stringify
                         (JObj [(u "success", JBool false);
                                (u "error", JStr (u "Tool execution failed: " ++ failure))]))).
Proof. eexists. split; reflexivity. Qed.

(** The callback of a settled call sends the output for the call id that
    [functionCallState] holds when it runs, asks for a response and clears
    [functionCallState]. *)
Lemma onToolSettled_answers r s :
  (onToolSettled r s).1 = set_functionCallState no_function_call s
  /\ exists output,
       List.filter is_xai_send (onToolSettled r s).2
       = [XaiSend (FunctionCallOutput (fc_callId (functionCallState s)) output);
          XaiSend ResponseCreate].
Proof. destruct r; (split; [reflexivity|]); eexists; reflexivity. Qed.

End ToolAnswer.

(** C5: the code at the failing input.  One [response.done] with the call
    [call_7] pending, then the reply of the provider: the output is sent
    for [call_7], followed by [response.create].  A second [response.done]
    before the reply starts the tool again for the same pending call; the
    first reply is answered for [call_7] and clears the state, and the
    output of the second dispatch is sent for no call at all. *)
Theorem overlapping_dispatch_answers_no_call :
  let pending := XaiMessage (Some (arguments_done (u "call_7") (u "get_trending_news"))) in
  let done := XaiMessage (Some (bare "response.done")) in
  let reply := ProviderText 0 (Normal (u "trends")) in
  List.filter is_xai_send
    (run (H := integer_literals) call_1 9 [pending; done; reply] bridged).2
  = [XaiSend (FunctionCallOutput (Some (u "call_7")) (u "trends")); XaiSend ResponseCreate]
  /\ List.filter is_xai_send
       (run (H := integer_literals) call_1 9 [pending; done; done; reply; reply] bridged).2
     = [XaiSend (FunctionCallOutput (Some (u "call_7")) (u "trends")); XaiSend ResponseCreate;
        XaiSend (FunctionCallOutput None (u "trends")); XaiSend ResponseCreate].
Proof. split; vm_compute; reflexivity. Qed.

(** * Further properties *)


(** ** A call beside the others *)

Section OtherCalls.
Context `{Json.Numbers}.
Variables (callId : jsstring) (hour : nat) (other : jsstring).
Hypothesis apart : callId <> other.

Lemma others_step_nil s : others_step other s [] s.
Proof. by repeat split. Qed.

Lemma others_step_app s o s' o' s'' :
  others_step other s o s' -> others_step other s' o' s'' -> others_step other s (o ++ o') s''.
Proof.
  intros (A1 & A2 & A3 & A4) (B1 & B2 & B3 & B4). repeat split; congruence.
Qed.

Ltac others_leaf :=
  resolve_effects; unfold others_step, initUserContext, cleanupCallContext in *;
  simplify_eq; simpl;
  rewrite ?lookup_insert_ne, ?lookup_delete_ne by exact apart; done.

Lemma handle_others e : respects (others_step other) (handle callId hour e).
Proof.
  destruct e; respects_go others_step_nil others_step_app others_leaf.
Qed.

End OtherCalls.

(** X1. The handlers of a call touch no entry of another call: whatever
    the events, the entries of [callPhoneNumbers], [callConversationIds],
    [botTranscriptBuffers] and [activeCallContexts] under an id other than
    [callId] are after the run what they were before it. *)
Theorem handlers_touch_only_their_call `{Json.Numbers}
    (callId : jsstring) (hour : nat) (events : list event) (s : Session) (other : jsstring) :
  other <> callId ->
  let r := run callId hour events s in
  callPhoneNumbers r.1 !! other = callPhoneNumbers s !! other
  /\ callConversationIds r.1 !! other = callConversationIds s !! other
  /\ botTranscriptBuffers r.1 !! other = botTranscriptBuffers s !! other
  /\ activeCallContexts r.1 !! other = activeCallContexts s !! other.
Proof.
  intros Hne r.
  assert (callId <> other) as apart by congruence.
  exact (respects_run _ (others_step_nil other) (others_step_app other) callId hour events
           (fun e _ => handle_others callId hour other apart e) s).
Qed.

(** ** What a call cannot do any more *)

Section Unrecorded.
Context `{Json.Numbers}.
Variables (callId : jsstring) (hour : nat).

Lemma unrecorded_step_nil s : unrecorded_step callId s [] s.
Proof. by intros ? ?. Qed.

Lemma unrecorded_step_app s o s' o' s'' :
  unrecorded_step callId s o s' -> unrecorded_step callId s' o' s''
  -> unrecorded_step callId s (o ++ o') s''.
Proof.
  unfold unrecorded_step. rewrite count_app. intros H1 H2 Hp Hc.
  destruct (H1 Hp Hc) as (Hp' & Hc' & ->). destruct (H2 Hp' Hc') as (Hp'' & Hc'' & ->).
  done.
Qed.

Ltac unrecorded_leaf :=
  resolve_effects; unfold unrecorded_step, cleanupCallContext in *; simpl in *;
  try (intros ? Hc; rewrite ?Hc in *; simpl in *; rewrite ?lookup_delete_eq;
       try done; try congruence).

Lemma handle_unrecorded e : respects (unrecorded_step callId) (handle callId hour e).
Proof.
  intros s. destruct (phase s) eqn:Hp; try (intros ?; congruence).
  unfold handle. rewrite Hp.
  destruct e; applied_go (unrecorded_step_nil) (unrecorded_step_app) unrecorded_leaf.
Qed.

End Unrecorded.

Section Closed.
Context `{Json.Numbers}.
Variables (callId : jsstring) (hour : nat).

Lemma closed_step_nil s : closed_step s [] s.
Proof. by intros ? ?. Qed.

Lemma closed_step_app s o s' o' s'' :
  closed_step s o s' -> closed_step s' o' s'' -> closed_step s (o ++ o') s''.
Proof.
  unfold closed_step. rewrite count_app. intros H1 H2 Hp Hc.
  destruct (H1 Hp Hc) as (Hp' & Hc' & ->). destruct (H2 Hp' Hc') as (Hp'' & Hc'' & ->).
  done.
Qed.

Ltac closed_leaf :=
  resolve_effects; unfold closed_step in *; simpl in *;
  try (intros ? Hc; repeat split; try done; try congruence;
       try (by destruct (readyState _))).

Lemma handle_closed e : respects closed_step (handle callId hour e).
Proof.
  intros s. destruct (phase s) eqn:Hp; try (intros ?; congruence).
  unfold handle. rewrite Hp.
  destruct e; applied_go closed_step_nil closed_step_app closed_leaf.
Qed.

End Closed.

Section Aborted.
Context `{Json.Numbers}.
Variables (callId : jsstring) (hour : nat).

Lemma aborted_step_nil s : aborted_step s [] s.
Proof. by intros ?. Qed.

Lemma aborted_step_app s o s' o' s'' :
  aborted_step s o s' -> aborted_step s' o' s'' -> aborted_step s (o ++ o') s''.
Proof.
  unfold aborted_step. rewrite forallb_app. intros H1 H2 Hp.
  destruct (H1 Hp) as (Hp' & A1 & A2 & A3 & A4 & ->).
  destruct (H2 Hp') as (Hp'' & B1 & B2 & B3 & B4 & ->).
  repeat split; congruence.
Qed.

Lemma handle_aborted e : respects aborted_step (handle callId hour e).
Proof.
  intros s Hp. unfold handle. rewrite Hp. by destruct e.
Qed.

End Aborted.

(** ** The lookups of the endpoint *)

Section Lookups.
Context `{Json.Numbers}.
Variables (callId : jsstring) (hour : nat).

Lemma looked_up_step_nil s : looked_up_step s [] s.
Proof. done. Qed.

Lemma looked_up_step_app s o s' o' s'' :
  looked_up_step s o s' -> looked_up_step s' o' s'' -> looked_up_step s (o ++ o') s''.
Proof.
  intros (A1 & A2 & A3 & A4) (B1 & B2 & B3 & B4). repeat split; congruence.
Qed.

(** The endpoint, once the lookups are done, leaves their results as they
    are. *)
Lemma onConnected_after_lookups user conversation s :
  phase s = Connecting ->
  let r := handle callId hour (Connected user conversation) s in
  let l := lookups callId user conversation s in
  phase r.1 = Bridging
  /\ userContext r.1 = userContext l.1
  /\ activeCallContexts r.1 = activeCallContexts l.1
  /\ callConversationIds r.1 = callConversationIds l.1
  /\ callPhoneNumbers r.1 = callPhoneNumbers l.1.
Proof.
  intros Hp r l. subst r l. unfold handle. rewrite Hp. unfold onConnected.
  split; [rewrite !andThen_eq; reflexivity|].
  rewrite (andThen_eq (lookups callId user conversation)). cbn [fst].
  match goal with
  | |- userContext (?tail ?s1).1 = _ /\ _ =>
      apply (respects_apply looked_up_step tail s1);
      respects_go looked_up_step_nil looked_up_step_app
        ltac:(unfold looked_up_step; by repeat split)
  end.
Qed.

(** X11. The number that the [/twiml] route stores reaches the context of
    the call.  What [callPhoneNumbers.set] stores under the call id is what
    the endpoint reads; with a number there, the endpoint ends bridging
    with the context made of that number and of the answer of the lookup,
    both in its own variable and in [activeCallContexts], and with the id
    of the conversation recorded when one was created; with no number
    there, the lookups are skipped: no context and no conversation are
    recorded. *)
Theorem caller_number_reaches_the_context
    (user : token_response) (conversation : create_response) (s : Session) :
  phase s = Connecting ->
  let r := handle callId hour (Connected user conversation) s in
  (forall (from : jsstring) phones, twiml callId from phones !! callId = Some from)
  /\ phase r.1 = Bridging
  /\ (forall from : jsstring,
        callPhoneNumbers s !! callId = Some from -> from <> [] ->
        let context := {| phoneNumber := from; auth := getUserAuth user |} in
        userContext r.1 = Some context
        /\ getCallContext (activeCallContexts r.1) callId = Some context
        /\ (forall id, conversation = CreateResponse true id -> id <> [] ->
              callConversationIds r.1 !! callId = Some id)
        /\ ((forall id, conversation <> CreateResponse true id) ->
              callConversationIds r.1 = callConversationIds s))
  /\ (truthy_str (callPhoneNumbers s !! callId) = false ->
      userContext r.1 = userContext s
      /\ activeCallContexts r.1 = activeCallContexts s
      /\ callConversationIds r.1 = callConversationIds s).
Proof.
  intros Hp r. subst r.
  destruct (onConnected_after_lookups user conversation s Hp) as (Hp' & -> & -> & -> & _).
  split; [intros from phones; apply lookup_insert_eq|]. split; [done|]. split.
  - intros from Hfrom Hne context.
    unfold lookups, initUserContext, getCallContext. rewrite Hfrom.
    destruct from as [|c0 from]; [done|]. cbn [truthy_str nonempty or_empty].
    destruct conversation as [|[] id]; cbn [createConversation];
      try (repeat split; try done; simpl; rewrite ?lookup_insert_eq; try done;
           intros; congruence).
    destruct id as [|c1 id]; simpl; rewrite ?lookup_insert_eq.
    + repeat split; try done. intros id' E Hne'. by simplify_eq.
    + repeat split; try done.
      * intros id' E _. by simplify_eq.
      * intros Hno. by destruct (Hno (c1 :: id)).
  - intros Hnone. unfold lookups. by rewrite Hnone.
Qed.

End Lookups.

(** ** Tasks that end fulfilled *)

Lemma Forall_filter_keeps {A} (P : A -> Prop) f (l : list A) :
  Forall P l -> Forall P (List.filter f l).
Proof.
  induction 1 as [|x l Hx _ IH]; simpl; [constructor|].
  destruct (f x); [by constructor|done].
Qed.

Section Fulfilled.
Context `{Json.Numbers}.
Variables (callId : jsstring) (hour : nat).

Lemma fulfilled_step_nil s : fulfilled_step s [] s.
Proof. by intros ?. Qed.

Lemma fulfilled_step_app s o s' o' s'' :
  fulfilled_step s o s' -> fulfilled_step s' o' s'' -> fulfilled_step s (o ++ o') s''.
Proof.
  unfold fulfilled_step. rewrite count_app. intros H1 H2 Hf.
  destruct (H1 Hf) as (Hf' & ->). destruct (H2 Hf') as (Hf'' & ->). done.
Qed.

Ltac fulfilled_leaf :=
  unfold fulfilled_step; intros Hf; split;
  [ simpl;
    repeat match goal with
      | |- context [if ?b then _ else _] => destruct b
      end; simpl;
    first [ exact Hf
          | apply Forall_app; split; [exact Hf|];
            repeat constructor; apply executeToolCall_fulfils ]
  | resolve_effects; reflexivity ].

Lemma onXaiMessage_fulfilled data : respects fulfilled_step (onXaiMessage callId hour data).
Proof.
  respects_go fulfilled_step_nil fulfilled_step_app fulfilled_leaf.
Qed.

Lemma fulfils_cases l :
  Forall fulfils l -> Forall (fun r => exists a : jsstring, r = Normal a) (omap finished l).
Proof.
  induction 1 as [|t l Ht _ IH]; [constructor|].
  destruct Ht; cbn; [constructor; [by eexists|done]|done|done].
Qed.

Lemma settleAll_fulfilled rs s :
  Forall (fun r => exists a : jsstring, r = Normal a) rs ->
  inflight (settleAll rs s).1 = inflight s /\ count is_catch (settleAll rs s).2 = 0.
Proof.
  intros Hrs. revert s. induction Hrs as [|r rs [a ->] _ IH]; intros s; [done|].
  cbn [settleAll]. rewrite andThen_eq. cbn [fst snd onToolSettled].
  rewrite count_app. destruct (IH (set_functionCallState no_function_call s)) as [-> ->].
  done.
Qed.

Lemma microtasks_fulfilled : respects fulfilled_step microtasks.
Proof.
  intros s Hf. unfold microtasks.
  destruct (settleAll_fulfilled (omap finished (inflight s))
              (set_inflight (List.filter pending (inflight s)) s)) as [-> ->];
    [by apply fulfils_cases|].
  split; [|done]. simpl. by apply Forall_filter_keeps.
Qed.

Lemma onProviderText_fulfilled i reply : respects fulfilled_step (onProviderText i reply).
Proof.
  intros s Hf. unfold onProviderText.
  destruct (inflight s !! i) as [[r|c k|token name k]|] eqn:E; try done.
  pose proof (Forall_lookup_1 _ _ _ _ Hf E) as Hk. inversion_clear Hk as [|? ? Hr|].
  cbn [fst snd inflight set_inflight]. split.
  - destruct s; simpl in *. apply Forall_insert; [done|apply Hr].
  - by destruct (k reply).
Qed.

Lemma onProviderUser_fulfilled i reply : respects fulfilled_step (onProviderUser i reply).
Proof.
  intros s Hf. unfold onProviderUser.
  destruct (inflight s !! i) as [[r|c k|token name k]|] eqn:E; try done.
  pose proof (Forall_lookup_1 _ _ _ _ Hf E) as Hk. inversion_clear Hk as [| |? ? ? Hr].
  cbn [fst snd inflight set_inflight]. split.
  - destruct s; simpl in *. apply Forall_insert; [done|apply Hr].
  - by destruct (k reply).
Qed.

Lemma handle_fulfilled e : respects fulfilled_step (handle callId hour e).
Proof.
  destruct e;
    try (respects_go fulfilled_step_nil fulfilled_step_app fulfilled_leaf; fail);
    intros s; unfold handle; destruct (phase s); try apply fulfilled_step_nil;
    apply (respects_andThen _ fulfilled_step_app);
    auto using onXaiMessage_fulfilled, microtasks_fulfilled,
               onProviderText_fulfilled, onProviderUser_fulfilled.
Qed.

End Fulfilled.

(** ** A caller who is not linked *)


Section Unlinked.
Context `{Json.Numbers}.
Variables (callId : jsstring) (hour : nat).

Lemma unlinked_step_nil s : unlinked_step callId s [] s.
Proof. by intros ? ? ?. Qed.

Lemma unlinked_step_app s o s' o' s'' :
  unlinked_step callId s o s' -> unlinked_step callId s' o' s''
  -> unlinked_step callId s (o ++ o') s''.
Proof.
  unfold unlinked_step. rewrite count_app. intros H1 H2 Hp Hn Hf.
  destruct (H1 Hp Hn Hf) as (Hp' & Hn' & Hf' & ->).
  destruct (H2 Hp' Hn' Hf') as (Hp'' & Hn'' & Hf'' & ->). done.
Qed.

Lemma unprivileged_try_catch {A} (m : Async A) handler :
  unprivileged m -> unprivileged (try_catch m handler).
Proof.
  induction 1 as [[a|e]|c k Hc _ IH]; simpl; by constructor.
Qed.

Lemma executeToolCall_unprivileged contexts toolName args :
  not_linked (getCallContext contexts callId) = true ->
  unprivileged (executeToolCall contexts callId toolName args).
Proof.
  intros Hn. unfold executeToolCall, handleGetMyFollowing, handleSendDM, handlePostTweet.
  rewrite Hn. apply unprivileged_try_catch.
  repeat match goal with
    | |- context [if ?b then _ else _] => destruct b
    end;
    try (by constructor);
    match goal with
    | |- unprivileged (bind (eval ?x) _) => destruct x as [?|?]; simpl
    end;
    repeat constructor.
Qed.

Ltac unlinked_leaf :=
  unfold unlinked_step, getCallContext, cleanupCallContext in *;
  let Hp := fresh in let Hn := fresh in let Hf := fresh in
  intros Hp Hn Hf; split; [simpl; congruence|]; split;
  [ simpl; rewrite ?lookup_delete_eq; first [exact Hn | reflexivity] |];
  split;
  [ simpl;
    first [ exact Hf
          | by apply Forall_filter_keeps
          | apply Forall_app; split; [exact Hf|];
            repeat constructor; by apply executeToolCall_unprivileged ]
  | resolve_effects; reflexivity ].

Lemma onProviderText_unlinked i reply : respects (unlinked_step callId) (onProviderText i reply).
Proof.
  intros s Hp Hn Hf. unfold onProviderText.
  destruct (inflight s !! i) as [[r|c k|token name k]|] eqn:E; try done.
  pose proof (Forall_lookup_1 _ _ _ _ Hf E) as Hk. inversion_clear Hk as [|? ? Hc Hr].
  cbn [fst snd]. repeat split; try done.
  - destruct s; simpl in *. apply Forall_insert; [done|apply Hr].
  - specialize (Hr reply). destruct Hr as [|c' k' Hc' _]; [done|].
    unfold count. simpl. by rewrite Hc'.
Qed.

Lemma onProviderUser_unlinked i reply : respects (unlinked_step callId) (onProviderUser i reply).
Proof.
  intros s Hp Hn Hf. unfold onProviderUser.
  destruct (inflight s !! i) as [[r|c k|token name k]|] eqn:E; try done.
  pose proof (Forall_lookup_1 _ _ _ _ Hf E) as Hk. inversion Hk.
Qed.

Lemma startTool_unlinked s toolName args :
  unlinked_step callId s
    (startTool (executeToolCall (activeCallContexts s) callId toolName args) s).2
    (startTool (executeToolCall (activeCallContexts s) callId toolName args) s).1.
Proof.
  intros Hp Hn Hf. unfold startTool. cbn [fst snd].
  pose proof (executeToolCall_unprivileged (activeCallContexts s) toolName args Hn) as Hu.
  repeat split; try done.
  - destruct s; simpl in *. apply Forall_app. split; [done|]. by repeat constructor.
  - destruct Hu as [|c k Hc _]; [done|]. unfold count. simpl. by rewrite Hc.
Qed.

Lemma onResponseDone_unlinked : respects (unlinked_step callId) (onResponseDone callId).
Proof.
  intros s. unfold onResponseDone. cbv zeta.
  destruct (truthy_str (fc_name (functionCallState s))
            && truthy_str (fc_callId (functionCallState s))); [|by intros ? ? ?].
  destruct (toolArguments (fc_arguments (functionCallState s))) as [args logs] eqn:E.
  rewrite andThen_eq. unfold emit. cbn [fst snd].
  apply (unlinked_step_app s _ s); [|apply startTool_unlinked].
  intros Hp Hn Hf. repeat split; try done.
  unfold toolArguments in E. destruct (Json.parse _); by simplify_eq.
Qed.

Lemma firstChain_unlinked m : respects (unlinked_step callId) (firstChain callId hour m).
Proof.
  unfold firstChain. cbv zeta.
  repeat match goal with
    | |- respects _ (if ?b then _ else _) => destruct b
    end;
    first [ apply onResponseDone_unlinked
          | respects_go unlinked_step_nil unlinked_step_app unlinked_leaf ].
Qed.

Lemma onXaiMessage_unlinked data : respects (unlinked_step callId) (onXaiMessage callId hour data).
Proof.
  destruct data as [m|]; unfold onXaiMessage;
    [|respects_go unlinked_step_nil unlinked_step_app unlinked_leaf].
  apply (respects_andThen _ unlinked_step_app);
    [respects_go unlinked_step_nil unlinked_step_app unlinked_leaf|].
  apply (respects_andThen _ unlinked_step_app);
    [respects_go unlinked_step_nil unlinked_step_app unlinked_leaf|].
  intros s.
  destruct (str_eqb (type m) (u "response.output_audio.delta") && truthy_str (delta m)).
  - applied_go unlinked_step_nil unlinked_step_app unlinked_leaf.
  - apply (respects_apply _ (firstChain callId hour m >>> secondChain callId m)).
    apply (respects_andThen _ unlinked_step_app); [apply firstChain_unlinked|].
    respects_go unlinked_step_nil unlinked_step_app unlinked_leaf.
Qed.

Lemma microtasks_unlinked : respects (unlinked_step callId) microtasks.
Proof.
  respects_go unlinked_step_nil unlinked_step_app unlinked_leaf.
Qed.

Lemma handle_unlinked e : respects (unlinked_step callId) (handle callId hour e).
Proof.
  intros s. destruct (phase s) eqn:Hp; try (intros ?; congruence).
  unfold handle. rewrite Hp.
  destruct e;
    try (applied_go unlinked_step_nil unlinked_step_app unlinked_leaf; fail);
    apply (respects_apply _ (_ >>> _)), (respects_andThen _ unlinked_step_app);
    auto using onXaiMessage_unlinked, microtasks_unlinked,
               onProviderText_unlinked, onProviderUser_unlinked.
Qed.

End Unlinked.

Section Dispatches.
Context `{Json.Numbers}.
Variables (callId : jsstring) (hour : nat).

(** X2. The promise of [executeToolCall] is never rejected, so the
    [.catch] callback of a dispatch never runs: every way a task can go
    ends fulfilled, and in every call, from the entry of the endpoint on
    and whatever the events, every task in flight is such a task and the
    log line of that callback is never written.  (A [send] on a socket is
    taken not to throw.) *)
Theorem dispatch_is_never_rejected :
  (forall contexts toolName args,
     fulfils (executeToolCall contexts callId toolName args))
  /\ (forall phones conversations buffers contexts events,
        let r := run callId hour events (enter phones conversations buffers contexts) in
        Forall fulfils (inflight r.1) /\ count is_catch r.2 = 0).
Proof.
  split; [intros; apply executeToolCall_fulfils|].
  intros phones conversations buffers contexts events r.
  exact (respects_run _ fulfilled_step_nil fulfilled_step_app callId hour events
           (fun e _ => handle_fulfilled callId hour e)
           (enter phones conversations buffers contexts) (Forall_nil_2 _)).
Qed.

Lemma silent_step_nil s : silent_step s [] s.
Proof. done. Qed.

Lemma silent_step_app s o s' o' s'' :
  silent_step s o s' -> silent_step s' o' s'' -> silent_step s (o ++ o') s''.
Proof.
  unfold silent_step. rewrite count_app. intros [-> ->] [-> ->]. done.
Qed.

Lemma connected_silent user conversation :
  respects silent_step (handle callId hour (Connected user conversation)).
Proof.
  respects_go silent_step_nil silent_step_app
    ltac:(resolve_effects; unfold silent_step; split; reflexivity).
Qed.

Lemma connected_unlinked user conversation s :
  phase s = Connecting -> inflight s = [] ->
  truthy_str (callPhoneNumbers s !! callId) = true ->
  authenticated (getUserAuth user) = false ->
  let r := handle callId hour (Connected user conversation) s in
  phase r.1 = Bridging
  /\ getCallContext (activeCallContexts r.1) callId
     = Some {| phoneNumber := or_empty (callPhoneNumbers s !! callId);
               auth := getUserAuth user |}
  /\ inflight r.1 = []
  /\ count is_user_context_request r.2 = 0.
Proof.
  intros Hp Hi Hphone Hauth r. subst r.
  destruct (connected_silent user conversation s) as [-> ->].
  split; [|split; [|done]].
  - by destruct (onConnected_after_lookups callId hour user conversation s Hp).
  - destruct (onConnected_after_lookups callId hour user conversation s Hp)
      as (_ & _ & -> & _).
    unfold lookups, initUserContext, getCallContext. rewrite Hphone.
    destruct (createConversation conversation) as [id logs].
    destruct (truthy_str id); simpl; by rewrite lookup_insert_eq.
Qed.

(** X3. A caller whose lookup does not come back authenticated makes no
    request with a caller's token in the whole call: once the endpoint has
    connected, whatever the x.ai socket asks for and whatever the providers
    reply, no [getMyFollowing], [sendDM], [postTweet] or
    [lookupUserByUsername] request is made. *)
Theorem unlinked_call_makes_no_user_context_request
    (user : token_response) (conversation : create_response)
    (events : list event) (s : Session) :
  phase s = Connecting -> inflight s = [] ->
  truthy_str (callPhoneNumbers s !! callId) = true ->
  authenticated (getUserAuth user) = false ->
  count is_user_context_request
    (run callId hour (Connected user conversation :: events) s).2 = 0.
Proof.
  intros Hp Hi Hphone Hauth. cbn [run]. rewrite andThen_eq. cbn [fst snd]. rewrite count_app.
  destruct (connected_unlinked user conversation s Hp Hi Hphone Hauth)
    as (Hp' & Hc & Hi' & ->).
  apply (respects_run _ (unlinked_step_nil callId) (unlinked_step_app callId)
           callId hour events (fun e _ => handle_unlinked callId hour e)); try done.
  - rewrite Hc. unfold not_linked. simpl. by rewrite Hauth.
  - rewrite Hi'. constructor.
Qed.

End Dispatches.

Section Sockets.
Context `{Json.Numbers}.
Variables (callId : jsstring) (hour : nat).

(** X6. A call for which no conversation was created makes no request to
    the backend: whatever the events, no transcript is saved and no end of
    the conversation is notified, and the call stays without a
    conversation. *)
Theorem no_conversation_no_backend_request (events : list event) (s : Session) :
  phase s = Bridging ->
  truthy_str (callConversationIds s !! callId) = false ->
  let r := run callId hour events s in
  count is_backend r.2 = 0
  /\ truthy_str (callConversationIds r.1 !! callId) = false.
Proof.
  intros Hp Hc r.
  destruct (respects_run _ (unrecorded_step_nil callId) (unrecorded_step_app callId)
              callId hour events (fun e _ => handle_unrecorded callId hour e) s Hp Hc)
    as (_ & A & B).
  by split.
Qed.

(** X7. Once the x.ai socket is not open, no inbound frame is forwarded to
    it for the rest of the call, and it does not become open again; the
    [close] of the x.ai socket and the [close] of the Twilio socket both
    leave it so; and a frame that arrives then, the session being ready, is
    answered by the error log line. *)
Theorem closed_xai_socket_gets_no_audio :
  (forall events s,
     phase s = Bridging -> readyState s <> OPEN ->
     count is_append (run callId hour events s).2 = 0
     /\ readyState (run callId hour events s).1 <> OPEN)
  /\ (forall s,
        phase s = Bridging ->
        readyState (handle callId hour XaiClose s).1 = CLOSED
        /\ readyState (handle callId hour TwilioClose s).1 <> OPEN)
  /\ (forall s payload,
        phase s = Bridging -> sessionReady s = true -> readyState s <> OPEN ->
        Log Error "Cannot send audio! x.ai WebSocket not connected"
          ∈ (handle callId hour (TwilioMedia (u "inbound") payload) s).2).
Proof.
  split; [|split].
  - intros events s Hp Hc.
    destruct (respects_run _ closed_step_nil closed_step_app
                callId hour events (fun e _ => handle_closed callId hour e) s Hp Hc)
      as (_ & A & B).
    by split.
  - intros s Hp. unfold handle. rewrite Hp. split; [reflexivity|].
    unfold onTwilioClose. rewrite !andThen_eq. cbn [fst snd emit modify].
    destruct (truthy_str _); cbn [fst cleanup readyState set_closing set_readyState
      set_botTranscriptBuffers set_callConversationIds set_callPhoneNumbers
      set_activeCallContexts]; by destruct (readyState s).
  - intros s payload Hp Hr Hc. unfold handle. rewrite Hp.
    unfold onTwilioMedia. cbv zeta.
    replace (str_eqb (u "inbound") (u "inbound")) with true by reflexivity.
    cbn [sessionReady set_audioPacketCount readyState]. rewrite Hr. cbn [negb].
    destruct (readyState s); [|done|..]; cbn [snd]; apply elem_of_app; right; left.
Qed.

Lemma onConnectFailed_after_lookups user conversation timeout s :
  phase s = Connecting ->
  let r := handle callId hour (ConnectFailed user conversation timeout) s in
  let l := lookups callId user conversation s in
  phase r.1 = Aborted
  /\ userContext r.1 = userContext l.1
  /\ activeCallContexts r.1 = activeCallContexts l.1
  /\ callConversationIds r.1 = callConversationIds l.1
  /\ callPhoneNumbers r.1 = callPhoneNumbers l.1.
Proof.
  intros Hp r l. subst r l. unfold handle. rewrite Hp. unfold onConnectFailed.
  split; [rewrite !andThen_eq; reflexivity|].
  rewrite (andThen_eq (lookups callId user conversation)). cbn [fst].
  match goal with
  | |- userContext (?tail ?s1).1 = _ /\ _ =>
      apply (respects_apply looked_up_step tail s1);
      respects_go looked_up_step_nil looked_up_step_app
        ltac:(unfold looked_up_step; by repeat split)
  end.
Qed.

(** X10. When the x.ai socket fails to open, or does not open in time, the
    endpoint gives up before it registers the handlers of the two closes.
    The context that the lookups stored is then in [activeCallContexts],
    and whatever follows, the [close] of the Twilio socket included, only
    logs: nothing is sent, and the entries of the call stay in the maps. *)
Theorem failed_connection_releases_nothing
    (user : token_response) (conversation : create_response) (timeout : bool)
    (events : list event) (s : Session) :
  phase s = Connecting ->
  truthy_str (callPhoneNumbers s !! callId) = true ->
  let s1 := (handle callId hour (ConnectFailed user conversation timeout) s).1 in
  let r := run callId hour events s1 in
  phase s1 = Aborted
  /\ getCallContext (activeCallContexts s1) callId
     = Some {| phoneNumber := or_empty (callPhoneNumbers s !! callId);
               auth := getUserAuth user |}
  /\ phase r.1 = Aborted
  /\ forallb is_log r.2 = true
  /\ callPhoneNumbers r.1 !! callId = callPhoneNumbers s !! callId
  /\ activeCallContexts r.1 = activeCallContexts s1
  /\ callConversationIds r.1 = callConversationIds s1
  /\ botTranscriptBuffers r.1 = botTranscriptBuffers s1.
Proof.
  intros Hp Hphone s1 r.
  destruct (onConnectFailed_after_lookups user conversation timeout s Hp)
    as (Hp1 & _ & Hc & _ & Hn). fold s1 in Hp1, Hc, Hn.
  destruct (respects_run _ aborted_step_nil aborted_step_app
              callId hour events (fun e _ => handle_aborted callId hour e) s1 Hp1)
    as (A & B & C & D & E & F). fold r in A, B, C, D, E, F.
  split; [done|]. split.
  { rewrite Hc. unfold lookups, initUserContext, getCallContext. rewrite Hphone.
    destruct (createConversation conversation) as [id logs].
    destruct (truthy_str id); simpl; by rewrite lookup_insert_eq. }
  split; [done|]. split; [done|]. split; [|done].
  rewrite B, Hn. unfold lookups, initUserContext. rewrite Hphone.
  destruct (createConversation conversation) as [id logs].
  by destruct (truthy_str id).
Qed.

End Sockets.

(** ** The relay of the audio *)

Section Relay.
Context `{Json.Numbers}.
Variables (callId : jsstring) (hour : nat).

Lemma no_append_step_nil s : no_append_step s [] s.
Proof. done. Qed.

Lemma no_append_step_app s o s' o' s'' :
  no_append_step s o s' -> no_append_step s' o' s'' -> no_append_step s (o ++ o') s''.
Proof. unfold no_append_step. rewrite omap_app. by intros -> ->. Qed.

Lemma handle_no_append e :
  (forall track payload, e <> TwilioMedia track payload) ->
  respects no_append_step (handle callId hour e).
Proof.
  intros He. destruct e; try (by exfalso; eapply He);
    respects_go no_append_step_nil no_append_step_app
      ltac:(resolve_effects; reflexivity).
Qed.

Lemma handle_media_appends track payload s :
  omap appended (handle callId hour (TwilioMedia track payload) s).2 = []
  \/ inbound (TwilioMedia track payload) = Some payload
     /\ omap appended (handle callId hour (TwilioMedia track payload) s).2 = [payload].
Proof.
  unfold handle, onTwilioMedia, inbound.
  destruct (phase s); try (by left). cbv zeta.
  destruct (str_eqb track (u "inbound")); [|by left].
  destruct (negb _); [by destruct (_ =? 1)%N; left|].
  destruct (readyState _); destruct (_ || _); simpl; auto.
Qed.

Lemma handle_appends e s :
  omap appended (handle callId hour e s).2 = []
  \/ exists payload,
       inbound e = Some payload /\ omap appended (handle callId hour e s).2 = [payload].
Proof.
  destruct e as [sid|user conv|user conv t|data|track payload|i|i|i r|i r| | | | |failed];
    try (left; refine (handle_no_append _ _ s); intros; discriminate).
  destruct (handle_media_appends track payload s) as [E|[E1 E2]]; [by left|right; eauto].
Qed.

Lemma streaming_step_nil s : streaming_step s [] s.
Proof. by intros ? ? ?. Qed.

Lemma streaming_step_app s o s' o' s'' :
  streaming_step s o s' -> streaming_step s' o' s'' -> streaming_step s (o ++ o') s''.
Proof.
  unfold streaming_step. intros H1 H2 Hp Hr Ho.
  destruct (H1 Hp Hr Ho) as (Hp' & Hr' & Ho'). by apply H2.
Qed.

Lemma handle_streaming e :
  is_xai_down e = false -> respects streaming_step (handle callId hour e).
Proof.
  intros He s. destruct (phase s) eqn:Hp; try (intros ?; congruence).
  unfold handle. rewrite Hp.
  destruct e; try discriminate He;
    applied_go streaming_step_nil streaming_step_app
      ltac:(resolve_effects; unfold streaming_step; simpl; intros; repeat split; congruence).
Qed.

Lemma handle_frame track payload s :
  phase s = Bridging -> sessionReady s = true -> readyState s = OPEN ->
  omap appended (handle callId hour (TwilioMedia track payload) s).2
  = option_list (inbound (TwilioMedia track payload)).
Proof.
  intros Hp Hr Ho. unfold handle, onTwilioMedia, inbound. rewrite Hp. cbv zeta.
  destruct (str_eqb track (u "inbound")); [|done].
  cbn [sessionReady set_audioPacketCount readyState]. rewrite Hr, Ho. cbn [negb].
  by destruct (_ || _).
Qed.

(** X8. Inbound audio is relayed in order and unchanged.  In every call
    the audio forwarded to the x.ai socket is, in order, audio of frames of
    the caller's track: nothing is made up, repeated or reordered.  And
    while bridging with the session ready and the x.ai socket open, as long
    as no socket closes, every frame of the caller's track is forwarded,
    whatever else happens in between. *)
Theorem inbound_audio_is_relayed_in_order :
  (forall events s,
     omap appended (run callId hour events s).2 `sublist_of` omap inbound events)
  /\ (forall events s,
        phase s = Bridging -> sessionReady s = true -> readyState s = OPEN ->
        Forall (fun e => is_xai_down e = false) events ->
        omap appended (run callId hour events s).2 = omap inbound events).
Proof.
  split.
  - induction events as [|e events IH]; intros s; [done|].
    cbn [run]. rewrite andThen_eq. cbn [snd fst]. rewrite omap_app.
    specialize (IH (handle callId hour e s).1).
    destruct (handle_appends e s) as [-> | (payload & E & ->)]; simpl.
    + destruct (inbound e); [by apply sublist_cons|done].
    + rewrite E. by apply sublist_skip.
  - induction events as [|e events IH]; intros s Hp Hr Ho Hev; [done|].
    apply Forall_cons in Hev as [He Hev].
    cbn [run]. rewrite andThen_eq. cbn [snd fst]. rewrite omap_app.
    destruct (handle_streaming e He s Hp Hr Ho) as (Hp' & Hr' & Ho').
    rewrite (IH _ Hp' Hr' Ho' Hev).
    destruct e as [sid|user conv|user conv t|data|track payload|i|i|i r|i r| | | | |failed];
      try (match goal with
           | |- context [handle _ _ ?e s] =>
               rewrite (handle_no_append e (fun _ _ E => ltac:(discriminate E)) s)
           end; done).
    rewrite (handle_frame _ _ _ Hp Hr Ho). simpl.
    by destruct (str_eqb track (u "inbound")).
Qed.

End Relay.

Lemma omap_head {A B} (f : A -> option B) x l :
  omap f (x :: l) = option_list (f x) ++ omap f l.
Proof.
  change (omap f (x :: l))
    with (match f x with Some y => y :: omap f l | None => omap f l end).
  by destruct (f x).
Qed.

Section Playback.
Context `{Json.Numbers}.
Variables (callId : jsstring) (hour : nat).

Lemma no_media_step_nil s : no_media_step s [] s.
Proof. done. Qed.

Lemma no_media_step_app s o s' o' s'' :
  no_media_step s o s' -> no_media_step s' o' s'' -> no_media_step s (o ++ o') s''.
Proof. unfold no_media_step. rewrite omap_app. by intros -> ->. Qed.

Ltac no_media_leaf := resolve_effects; reflexivity.

Lemma handle_no_media e :
  (forall m, e <> XaiMessage (Some m)) ->
  respects no_media_step (handle callId hour e).
Proof.
  intros He.
  destruct e as [sid|user conv|user conv t|[m|]|track payload|i|i|i r|i r| | | | |failed];
    try (by exfalso; eapply He);
    respects_go no_media_step_nil no_media_step_app no_media_leaf.
Qed.

Lemma chains_no_media m :
  respects no_media_step (firstChain callId hour m >>> secondChain callId m).
Proof. respects_go no_media_step_nil no_media_step_app no_media_leaf. Qed.

Lemma secondChain_no_media m : respects no_media_step (secondChain callId m).
Proof. respects_go no_media_step_nil no_media_step_app no_media_leaf. Qed.

Lemma microtasks_no_media : respects no_media_step microtasks.
Proof. respects_go no_media_step_nil no_media_step_app no_media_leaf. Qed.

(** What a message of the x.ai socket sends to the Twilio socket: the
    audio of a delta, when the stream id is set, and nothing else. *)
Lemma handle_message_plays m s :
  phase s = Bridging ->
  omap played (handle callId hour (XaiMessage (Some m)) s).2
  = if truthy_str (streamSid s)
    then (fun d => (d, or_empty (streamSid s))) <$> option_list (outbound (XaiMessage (Some m)))
    else [].
Proof.
  intros Hp. unfold handle. rewrite Hp, andThen_eq. cbn [fst snd].
  rewrite omap_app, (microtasks_no_media _), app_nil_r.
  assert (forall o1 o2 (a : action) s0,
            omap played o1 = [] -> omap played o2 = [] ->
            omap played ((emit o1 >>> emit o2 >>> a) s0).2 = omap played (a s0).2) as Skip.
  { intros o1 o2 a s0 E1 E2. rewrite !andThen_eq. unfold emit. cbn [fst snd].
    by rewrite !omap_app, E1, E2. }
  unfold onXaiMessage. rewrite Skip;
    [|unfold logWebSocketEvent; by destruct (_ || _)|by destruct (_ || _)].
  unfold outbound.
  destruct (str_eqb (type m) (u "response.output_audio.delta") && truthy_str (delta m)) eqn:C.
  - apply andb_true_iff in C as [_ C].
    destruct (delta m) as [d|]; [|done]. cbn [or_empty].
    destruct (truthy_str (streamSid s)); cbn [negb]; [|done].
    rewrite andThen_eq. unfold emit. cbn [fst snd].
    by rewrite omap_app, (secondChain_no_media m s).
  - rewrite (chains_no_media m s). by destruct (truthy_str (streamSid s)).
Qed.

Lemma handle_plays e s :
  omap played (handle callId hour e s).2 = []
  \/ exists d,
       outbound e = Some d
       /\ omap played (handle callId hour e s).2 = [(d, or_empty (streamSid s))].
Proof.
  destruct e as [sid|user conv|user conv t|[m|]|track payload|i|i|i r|i r| | | | |failed];
    try (left; refine (handle_no_media _ _ s); intros; discriminate).
  destruct (phase s) eqn:Hp; try (left; unfold handle; by rewrite Hp).
  rewrite (handle_message_plays m s Hp).
  destruct (truthy_str (streamSid s)); [|by left].
  destruct (outbound (XaiMessage (Some m))) as [d|]; [right; eauto|by left].
Qed.

Lemma sid_step_nil s : sid_step s [] s.
Proof. by intros ?. Qed.

Lemma sid_step_app s o s' o' s'' :
  sid_step s o s' -> sid_step s' o' s'' -> sid_step s (o ++ o') s''.
Proof.
  unfold sid_step. intros H1 H2 Hp.
  destruct (H1 Hp) as (Hp' & E1). destruct (H2 Hp') as (Hp'' & E2). split; congruence.
Qed.

Lemma handle_sid e :
  is_twilio_start e = false -> respects sid_step (handle callId hour e).
Proof.
  intros He s. destruct (phase s) eqn:Hp; try (intros ?; congruence).
  unfold handle. rewrite Hp.
  destruct e; try discriminate He;
    applied_go sid_step_nil sid_step_app
      ltac:(resolve_effects; unfold sid_step; simpl; intros; split; congruence).
Qed.

(** X9. Outbound audio is relayed in order and unchanged.  In every call
    the payloads of the [media] messages sent to the Twilio socket are, in
    order, audio of deltas of the assistant.  And while bridging with the
    stream id set, as long as no other [start] comes, every such delta is
    sent, addressed by that stream id. *)
Theorem outbound_audio_is_relayed_in_order :
  (forall events s,
     (omap played (run callId hour events s).2).*1 `sublist_of` omap outbound events)
  /\ (forall events s,
        phase s = Bridging -> truthy_str (streamSid s) = true ->
        Forall (fun e => is_twilio_start e = false) events ->
        omap played (run callId hour events s).2
        = (fun d => (d, or_empty (streamSid s))) <$> omap outbound events).
Proof.
  split.
  - induction events as [|e events IH]; intros s; [done|].
    cbn [run]. rewrite andThen_eq. cbn [snd fst]. rewrite omap_app, fmap_app.
    specialize (IH (handle callId hour e s).1).
    destruct (handle_plays e s) as [-> | (d & E & ->)]; simpl.
    + destruct (outbound e); [by apply sublist_cons|done].
    + rewrite E. by apply sublist_skip.
  - induction events as [|e events IH]; intros s Hp Hs Hev; [done|].
    apply Forall_cons in Hev as [He Hev].
    cbn [run]. rewrite andThen_eq. cbn [snd fst]. rewrite omap_app.
    destruct (handle_sid e He s Hp) as (Hp' & Hs').
    assert (truthy_str (streamSid (handle callId hour e s).1) = true) as Hs''
      by (by rewrite Hs').
    rewrite (IH _ Hp' Hs'' Hev), Hs'. clear IH.
    destruct e as [sid|user conv|user conv t|[m|]|track payload|i|i|i r|i r| | | | |failed];
      try (match goal with
           | |- context [handle _ _ ?e s] =>
               rewrite (handle_no_media e (fun _ E => ltac:(discriminate E)) s)
           end; done).
    rewrite (handle_message_plays m s Hp), Hs.
    by rewrite omap_head, fmap_app.
Qed.

End Playback.

(** ** The transcript of the assistant *)

Ltac typed_message Htype :=
  unfold onXaiMessage, logWebSocketEvent, firstChain, secondChain;
  rewrite Htype; literal_tests.

Section Transcript.
Context `{Json.Numbers}.
Variables (callId : jsstring) (hour : nat).

Lemma handle_transcript_delta m s :
  type m = u "response.output_audio_transcript.delta" ->
  phase s = Bridging -> quiet s ->
  handle callId hour (XaiMessage (Some m)) s
  = (set_botTranscriptBuffers
       (<[callId := or_empty (botTranscriptBuffers s !! callId) ++ or_empty (delta m)]>
          (botTranscriptBuffers s)) s,
     [Log Debug "RECV"; Log Info "message.type"; Log Info "Bot"; Log Debug "Unknown"]).
Proof.
  intros Htype Hp Hq. unfold handle. rewrite Hp, andThen_eq.
  assert (onXaiMessage callId hour (Some m) s
          = (set_botTranscriptBuffers
               (<[callId := or_empty (botTranscriptBuffers s !! callId) ++ or_empty (delta m)]>
                  (botTranscriptBuffers s)) s,
             [Log Debug "RECV"; Log Info "message.type"; Log Info "Bot"; Log Debug "Unknown"]))
    as ->.
  { typed_message Htype. reflexivity. }
  cbn [fst snd]. by rewrite microtasks_quiet.
Qed.

Lemma handle_transcript_done m s :
  type m = u "response.output_audio_transcript.done" ->
  phase s = Bridging -> quiet s ->
  handle callId hour (XaiMessage (Some m)) s
  = (set_botTranscriptBuffers (delete callId (botTranscriptBuffers s)) s,
     [Log Debug "RECV"; Log Info "message.type"]
     ++ (sendTranscriptMessage callId Assistant
           (or_empty (botTranscriptBuffers s !! callId)) s).2).
Proof.
  intros Htype Hp Hq. unfold handle. rewrite Hp, andThen_eq.
  assert (onXaiMessage callId hour (Some m) s
          = (set_botTranscriptBuffers (delete callId (botTranscriptBuffers s)) s,
             [Log Debug "RECV"; Log Info "message.type"]
             ++ (sendTranscriptMessage callId Assistant
                   (or_empty (botTranscriptBuffers s !! callId)) s).2))
    as ->.
  { typed_message Htype. unfold andThen, emit, skip, modify, sendTranscriptMessage.
    cbn beta iota zeta.
    by destruct (truthy_str (callConversationIds s !! callId) && has_text _). }
  cbn [fst snd]. rewrite microtasks_quiet by done. by rewrite app_nil_r.
Qed.

Lemma run_transcript_deltas deltas s :
  Forall (fun m => type m = u "response.output_audio_transcript.delta") deltas ->
  phase s = Bridging -> quiet s ->
  let r := run callId hour (map (fun m => XaiMessage (Some m)) deltas) s in
  phase r.1 = Bridging /\ quiet r.1
  /\ callConversationIds r.1 = callConversationIds s
  /\ or_empty (botTranscriptBuffers r.1 !! callId)
     = or_empty (botTranscriptBuffers s !! callId)
       ++ concat (map (fun m => or_empty (delta m)) deltas)
  /\ List.filter is_backend r.2 = [].
Proof.
  intros Hty. revert s. induction Hty as [|m deltas Hm _ IH]; intros s Hp Hq r; subst r.
  - simpl. by rewrite app_nil_r.
  - cbn [map run]. rewrite andThen_eq. cbn [fst snd].
    rewrite (handle_transcript_delta m s Hm Hp Hq). cbn [fst snd].
    match goal with |- context [run _ _ _ ?s1] => destruct (IH s1) as (A & B & C & D & E) end;
      [done|done|].
    rewrite A, C, D. cbn [botTranscriptBuffers set_botTranscriptBuffers callConversationIds].
    rewrite lookup_insert_eq. cbn [or_empty concat map].
    rewrite List.filter_app, E, <- app_assoc. done.
Qed.

(** X5. The transcript of the assistant is saved whole.  After the
    transcript deltas of a response and its
    [response.output_audio_transcript.done], the buffer of the call is
    deleted; when the call has a conversation and the text is not blank,
    one request to the backend saves, for the assistant, what the buffer
    held before followed by the deltas in the order of their arrival; and
    otherwise no request is made. *)
Theorem bot_transcript_is_saved_whole deltas m s :
  Forall (fun m => type m = u "response.output_audio_transcript.delta") deltas ->
  type m = u "response.output_audio_transcript.done" ->
  phase s = Bridging -> quiet s ->
  let r := run callId hour (map (fun m => XaiMessage (Some m)) (deltas ++ [m])) s in
  let text := or_empty (botTranscriptBuffers s !! callId)
              ++ concat (map (fun m => or_empty (delta m)) deltas) in
  let conversationId := callConversationIds s !! callId in
  botTranscriptBuffers r.1 !! callId = None
  /\ List.filter is_backend r.2
     = if truthy_str conversationId && has_text text
       then [Backend (SaveTranscript (or_empty conversationId) Assistant text)]
       else [].
Proof.
  intros Hty Hm Hp Hq r text conversationId. subst r.
  rewrite map_app, run_app_state, run_app_effects. cbn [map run].
  destruct (run_transcript_deltas deltas s Hty Hp Hq) as (A & B & C & D & E).
  rewrite !andThen_eq. cbn [fst snd skip]. rewrite app_nil_r.
  rewrite (handle_transcript_done m _ Hm A B). cbn [fst snd].
  split; [cbn [botTranscriptBuffers set_botTranscriptBuffers]; by rewrite lookup_delete_eq|].
  rewrite List.filter_app, E. cbn [app List.filter is_backend].
  unfold sendTranscriptMessage. rewrite C, D. fold text conversationId.
  by destruct (truthy_str conversationId && has_text text).
Qed.

End Transcript.

(** ** The authors that the greeting names *)

Section Authors.

Lemma existsb_str_eqb x seen : existsb (str_eqb x) seen = true <-> x ∈ seen.
Proof.
  rewrite List.existsb_exists. split.
  - intros (y & Hy & E). apply str_eqb_eq in E as ->. by apply list_elem_of_In.
  - intros Hx. exists x. split; [by apply list_elem_of_In|apply str_eqb_refl].
Qed.

Lemma unique_spec l : forall seen,
  NoDup (unique seen l)
  /\ (forall x, x ∈ unique seen l <-> x ∈ l /\ x ∉ seen)
  /\ unique seen l `sublist_of` l.
Proof.
  induction l as [|x l IH]; intros seen; simpl.
  - split; [constructor|]. split; [|done]. intros x. split; [by intros ?%elem_of_nil|].
    by intros [?%elem_of_nil _].
  - destruct (existsb (str_eqb x) seen) eqn:E.
    + apply existsb_str_eqb in E. destruct (IH seen) as (N & M & S).
      split; [done|]. split; [|by apply sublist_cons].
      intros y. rewrite M, elem_of_cons. split; [tauto|].
      intros [[-> | Hy] Hn]; [done|tauto].
    + assert (x ∉ seen) as Hx by (intros Hin%existsb_str_eqb; congruence).
      destruct (IH (x :: seen)) as (N & M & S).
      split; [|split; [|by apply sublist_skip]].
      * constructor; [|done]. rewrite M. intros [_ Hn]. apply Hn. left.
      * intros y. rewrite !elem_of_cons, M, elem_of_cons.
        destruct (decide (y = x)) as [->|Hne]; [tauto|]. tauto.
Qed.

(** X12. The personal greeting names at most three authors of liked
    tweets: they are distinct, none is empty, each is what [likedAuthor]
    gives for one of the tweets, and they come in the order of the tweets;
    the prompt for an authenticated caller mentions them only when there
    is one. *)
Theorem greeting_names_three_distinct_authors (tweets : list LikedTweet) :
  length (likedAuthors tweets) <= 3
  /\ NoDup (likedAuthors tweets)
  /\ likedAuthors tweets `sublist_of` map likedAuthor tweets
  /\ (forall a, a ∈ likedAuthors tweets ->
        a <> [] /\ exists t, t ∈ tweets /\ a = likedAuthor t)
  /\ (forall `{Json.Numbers} hour c,
        authenticated (auth c) = true -> liked_tweets (auth c) = Some tweets ->
        greetingPrompt hour (Some c)
        = u "Greet " ++ shown (x_name (auth c)) ++ u " with " ++ quote_mark
          ++ u "Good " ++ timeOfDay hour ++ u ", " ++ shown (x_name (auth c)) ++ u "."
          ++ quote_mark ++ u " Then say you can brief them on global trends"
          ++ match likedAuthors tweets with
             | [] => []
             | _ :: _ =>
                 u ", or on what your circle's been talking about " ++ dash
                 ++ u " like " ++ join (u ", ") (likedAuthors tweets)
                 ++ u " from accounts you've been liking"
             end
          ++ u ". End with " ++ quote_mark ++ u "What sounds good?"
          ++ quote_mark ++ u " Keep it concise and natural.").
Proof.
  unfold likedAuthors.
  destruct (unique_spec (List.filter nonempty (map likedAuthor tweets)) []) as (N & M & S).
  split; [rewrite length_take; lia|].
  split; [eapply sublist_NoDup; [exact N|apply sublist_take]|].
  split.
  { etrans; [apply sublist_take|]. etrans; [exact S|].
    clear. induction (map likedAuthor tweets) as [|a l IH]; simpl; [done|].
    destruct (nonempty a); [by apply sublist_skip|by apply sublist_cons]. }
  split.
  { intros a Ha. apply elem_of_take in Ha as (i & Ha & _).
    apply list_elem_of_lookup_2 in Ha. apply M in Ha as [Ha _].
    apply list_elem_of_In, List.filter_In in Ha as [Ha Hne].
    split; [by intros ->|].
    apply list_elem_of_In, list_elem_of_fmap in Ha as (t & -> & Ht). eauto. }
  intros HN hour c Ha Ht. unfold greetingPrompt. rewrite Ha, Ht.
  destruct tweets as [|t tweets]; reflexivity.
Qed.

End Authors.

(** ** The flows of the dispatcher *)

Section ToolFlows.
Context `{Json.Numbers}.

Lemma linked_is_not_not_linked c token :
  authenticated (auth c) = true -> access_token (auth c) = Some token -> token <> [] ->
  not_linked (Some c) = false /\ token_of (Some c) = token.
Proof.
  intros Ha Ht Hne. unfold not_linked, token_of. rewrite Ha, Ht. by destruct token.
Qed.

(** X13. [send_dm] for a linked caller looks the recipient up first, with
    the token of the caller.  When nobody is found, the result is the text
    of [{ success: false, message: 'Could not find user @...' }] with the
    name as a template literal prints it, which reads back as that object,
    and no message is sent; a name that has no text, as an object with a
    member [toString] has none, makes the result the text of
    [execution_failed] with the [TypeError] in it.  When somebody is found,
    the message of the arguments is sent to the id that the lookup gave;
    and a lookup or a sending that fails becomes the text of
    [execution_failed]. *)
Theorem send_dm_goes_to_the_looked_up_user
    (contexts : gmap jsstring UserContext) (callId : jsstring) (c : UserContext)
    (token : jsstring) (members : list (jsstring * json)) :
  getCallContext contexts callId = Some c ->
  authenticated (auth c) = true ->
  access_token (auth c) = Some token -> token <> [] ->
  let recipient_username := member (u "recipient_username") members in
  let message := member (u "message") members in
  exists k,
    executeToolCall contexts callId (u "send_dm") (JObj members)
    = AwaitUser token recipient_username k
    /\ (forall printed,
          to_string recipient_username = Normal printed ->
          k (Normal None) = Done (Normal (Json.stringify (recipient_not_found printed)))
          /\ Json.parse (Json.stringify (recipient_not_found printed))
             = Some (recipient_not_found printed))
    /\ (forall error,
          to_string recipient_username = Throw error ->
          k (Normal None) = Done (Normal (Json.stringify (execution_failed error))))
    /\ (forall name,
          recipient_username = Some (JStr name) ->
          k (Normal None) = Done (Normal (Json.stringify (recipient_not_found name))))
    /\ (forall fields,
          recipient_username = Some (JObj fields) ->
          member (u "toString") fields <> None ->
          k (Normal None)
          = Done (Normal (Json.stringify (execution_failed cannot_convert))))
    /\ (forall recipient,
          exists k',
            k (Normal (Some recipient))
            = AwaitText (SendDM token (user_id recipient) message) k'
            /\ (forall result, k' (Normal result) = Done (Normal result))
            /\ (forall error,
                  k' (Throw error)
                  = Done (Normal (Json.stringify (execution_failed error)))))
    /\ (forall error,
          k (Throw error) = Done (Normal (Json.stringify (execution_failed error)))).
Proof.
  intros Hctx Ha Ht Hne recipient_username message.
  destruct (linked_is_not_not_linked c token Ha Ht Hne) as [L T].
  unfold executeToolCall, handleSendDM. literal_tests. rewrite Hctx, L, T.
  cbn [get_prop eval bind try_catch await_user]. fold recipient_username.
  eexists. split; [reflexivity|]. cbn beta.
  split.
  { intros printed E. rewrite E. cbn [bind eval try_catch ret].
    split; [reflexivity|apply JsonRoundTrip.parse_stringify_flag_and_string]. }
  split.
  { intros error E. rewrite E. reflexivity. }
  split.
  { intros name E. rewrite E. reflexivity. }
  split.
  { intros fields E Hm. rewrite E. cbn [to_string json_to_string].
    destruct (member (u "toString") fields); [reflexivity|exfalso; exact (Hm eq_refl)]. }
  split; [|reflexivity].
  intros recipient. eexists. split; [reflexivity|]. split; reflexivity.
Qed.

Lemma hands_on_try_catch_text c :
  hands_on (try_catch (await_text c)
              (fun error => Json.stringify (execution_failed error))).
Proof. by constructor. Qed.

Lemma hands_on_try_catch_read (x : completion value) (c : value -> provider_call) :
  hands_on (try_catch (let! a := eval x in await_text (c a))
              (fun error => Json.stringify (execution_failed error))).
Proof. destruct x; cbn [bind eval try_catch await_text]; by constructor. Qed.

(** X14. Whatever the tool and the arguments, the dispatcher hands on what
    the provider answers: the text of the last reply is the result as it
    is, and a provider that fails at any step makes the result the text of
    [{ success: false, error: 'Tool execution failed: ...' }], which reads
    back as that object whatever the text of the error. *)
Theorem provider_replies_are_handed_on
    (contexts : gmap jsstring UserContext) (callId toolName : jsstring) (args : json) :
  hands_on (executeToolCall contexts callId toolName args)
  /\ forall error,
       Json.parse (Json.stringify (execution_failed error)) = Some (execution_failed error).
Proof.
  split; [|intros error; apply JsonRoundTrip.parse_stringify_flag_and_string].
  unfold executeToolCall, handleGetMyFollowing, handleSendDM, handlePostTweet.
  fold execution_failed.
  change (fun error => Json.stringify
            (JObj [(u "success", JBool false);
                   (u "error", JStr (u "Tool execution failed: " ++ error))]))
    with (fun error => Json.stringify (execution_failed error)).
  repeat match goal with
    | |- hands_on (try_catch (if ?b then _ else _) _) => destruct b
    end;
    try apply hands_on_try_catch_read; try apply hands_on_try_catch_text;
    try (by constructor).
  - (* send_dm *)
    destruct (get_prop (Some args) (u "recipient_username")) as [name|e];
      cbn [bind eval try_catch await_user]; [|by constructor].
    constructor; [|done]. intros [r|]; cbn [bind eval try_catch].
    + destruct (get_prop (Some args) (u "message"));
        cbn [bind eval try_catch await_text]; by constructor.
    + destruct (to_string name); cbn [ret try_catch]; by constructor.
  - (* post_tweet *)
    destruct (get_prop (Some args) (u "text")) as [text|e];
      cbn [bind eval try_catch]; [|by constructor].
    destruct (get_length text) as [len|e]; cbn [bind eval try_catch]; [|by constructor].
    destruct (length_gt_280 len) as [[|]|e]; cbn [bind eval try_catch await_text];
      [|by constructor..].
    destruct (length_to_string len); cbn [ret try_catch]; by constructor.
Qed.

(** X15. The arguments [null].  The text [null] parses, so the tool is run
    with [null]; each of the three tools open to every caller then fails
    on reading its argument, and the result is at once, with no request to
    a provider, the text of [execution_failed] with the [TypeError] in
    it. *)
Theorem null_arguments_are_reported
    (contexts : gmap jsstring UserContext) (callId toolName key : jsstring) :
  (toolName, key) ∈ public_argument ->
  toolArguments (u "null") = (JNull, [])
  /\ executeToolCall contexts callId toolName JNull
     = Done (Normal (Json.stringify (execution_failed (cannot_read (u "null") key))))
  /\ request (executeToolCall contexts callId toolName JNull) = []
  /\ Json.parse (Json.stringify (execution_failed (cannot_read (u "null") key)))
     = Some (execution_failed (cannot_read (u "null") key)).
Proof.
  intros Hin. split; [vm_compute; reflexivity|].
  assert (executeToolCall contexts callId toolName JNull
          = Done (Normal (Json.stringify (execution_failed (cannot_read (u "null") key)))))
    as E.
  { unfold public_argument in Hin.
    repeat (apply elem_of_cons in Hin as [Hin | Hin]; [simplify_eq; reflexivity|]).
    by apply elem_of_nil in Hin. }
  rewrite E. split; [done|]. split; [done|].
  apply JsonRoundTrip.parse_stringify_flag_and_string.
Qed.

End ToolFlows.

(** ** The ids of the calls *)

Section CallIds.
Local Open Scope N_scope.





End CallIds.

(** ** The X API *)

Section Trends.
Local Open Scope N_scope.


Lemma insert_trend_perm x l : XApi.insert_trend x l ≡ₚ x :: l.
Proof.
  induction l as [|y l IH]; simpl; [done|].
  destruct (XApi.volume x <? XApi.volume y); [|done].
  rewrite IH. apply Permutation_swap.
Qed.

Lemma sort_trends_perm l : XApi.sort_trends l ≡ₚ l.
Proof.
  induction l as [|x l IH]; simpl; [done|].
  by rewrite insert_trend_perm, IH.
Qed.

Lemma insert_trend_descending x l :
  descending l -> descending (XApi.insert_trend x l).
Proof.
  induction 1 as [|y l Hl IH Hy]; simpl; [by repeat constructor|].
  destruct (N.ltb_spec (XApi.volume x) (XApi.volume y)) as [Hlt|Hge].
  - constructor; [done|].
    rewrite insert_trend_perm. constructor; [lia|done].
  - constructor; [by constructor|].
    constructor; [done|]. eapply Forall_impl; [exact Hy|]. simpl. intros z Hz. lia.
Qed.

Lemma sort_trends_descending l : descending (XApi.sort_trends l).
Proof.
  induction l as [|x l IH]; simpl; [constructor|]. by apply insert_trend_descending.
Qed.

Lemma insert_trend_stable v x l :
  List.filter (fun y => XApi.volume y =? v) (XApi.insert_trend x l)
  = List.filter (fun y => XApi.volume y =? v) (x :: l).
Proof.
  induction l as [|y l IH]; [done|]. cbn [XApi.insert_trend].
  destruct (N.ltb_spec (XApi.volume x) (XApi.volume y)) as [Hlt|Hge]; [|done].
  cbn [List.filter] in *. rewrite IH.
  destruct (N.eqb_spec (XApi.volume x) v) as [Hx|Hx]; [|done].
  destruct (N.eqb_spec (XApi.volume y) v) as [Hy|Hy]; [lia|done].
Qed.

Lemma sort_trends_stable v l :
  List.filter (fun y => XApi.volume y =? v) (XApi.sort_trends l)
  = List.filter (fun y => XApi.volume y =? v) l.
Proof.
  induction l as [|x l IH]; [done|]. cbn [XApi.sort_trends foldr].
  rewrite insert_trend_stable. cbn [List.filter]. fold (XApi.sort_trends l).
  by rewrite IH.
Qed.

Lemma descending_app l1 l2 :
  descending (l1 ++ l2) ->
  descending l1
  /\ forall x y, x ∈ l1 -> y ∈ l2 -> XApi.volume y <= XApi.volume x.
Proof.
  induction l1 as [|a l1 IH]; simpl; intros Hs.
  - split; [constructor|]. by intros x y ?%elem_of_nil.
  - inversion_clear Hs as [|? ? Hs' Ha]. destruct (IH Hs') as [S1 C].
    apply Forall_app in Ha as [Ha1 Ha2].
    split; [by constructor|].
    intros x y [->|Hx]%elem_of_cons Hy; [|by apply C].
    by apply (proj1 (Forall_forall _ _) Ha2).
Qed.

Lemma descending_lookup l i j x y :
  descending l -> (i <= j)%nat -> l !! i = Some x -> l !! j = Some y ->
  XApi.volume y <= XApi.volume x.
Proof.
  intros Hs. revert i j. induction Hs as [|a l Hs IH Ha]; intros i j Hij Hi Hj; [done|].
  destruct i as [|i], j as [|j]; simpl in *; try lia.
  - simplify_eq. lia.
  - simplify_eq. apply (proj1 (Forall_forall _ _) Ha). by eapply list_elem_of_lookup_2.
  - apply (IH i j); [lia|done|done].
Qed.

(** X17. [topTrends] are the six largest trends.  There are six of them,
    or all the trends when there are fewer; they are trends of the reply,
    each as often as there; every trend left out has a volume that is at
    most that of every trend kept; they come by descending volume; and
    trends of the same volume keep the order of the reply. *)
Theorem top_trends_are_the_largest (l : list XApi.Trend) :
  let top := XApi.topTrends l in
  length top = min 6 (length l)
  /\ (exists rest,
        l ≡ₚ top ++ rest
        /\ forall x y, x ∈ top -> y ∈ rest -> XApi.volume y <= XApi.volume x)
  /\ (forall i j x y,
        (i <= j)%nat -> top !! i = Some x -> top !! j = Some y -> XApi.volume y <= XApi.volume x)
  /\ (forall v,
        List.filter (fun x => XApi.volume x =? v) top
        `prefix_of` List.filter (fun x => XApi.volume x =? v) l).
Proof.
  intros top. subst top. unfold XApi.topTrends.
  pose proof (sort_trends_descending l) as Hs.
  rewrite <- (take_drop 6 (XApi.sort_trends l)) in Hs.
  destruct (descending_app _ _ Hs) as [Hs1 Hc].
  split; [by rewrite length_take, (Permutation_length (sort_trends_perm l))|].
  split; [exists (drop 6 (XApi.sort_trends l)); split; [|done];
          by rewrite take_drop, sort_trends_perm|].
  split; [intros i j x y; by apply descending_lookup|].
  intros v. rewrite <- (sort_trends_stable v l).
  rewrite <- (take_drop 6 (XApi.sort_trends l)) at 2.
  rewrite List.filter_app. by eexists.
Qed.

End Trends.

Section XApiFacts.
Context `{Json.Numbers}.

(** X18. [getTrendingNews] survives the failure of its searches.  When
    the reply for the trends has no error and at least one trend, the
    answer has [success] true and one entry for each of [topTrends], in
    their order, whatever the searches reply; a search is made for each
    of them; each entry has at most five posts, and none when its search
    failed. *)
Theorem trending_survives_failed_searches
    (country : jsstring) (response : XApi.TrendResponse)
    (search : nat -> completion XApi.SearchResponse) (l : list XApi.Trend) :
  XApi.first_error (XApi.trend_errors response) = None ->
  XApi.trends response = Some l -> l <> [] ->
  let r := XApi.getTrendingNews country (Normal response) search in
  exists entries,
    r.2 = JObj [(u "success", JBool true); (u "country", JStr country);
                (u "trends", JArr entries)]
    /\ length entries = min 6 (length l)
    /\ r.1 = XApi.TrendsByWoeid (XApi.woeid country)
             :: map (fun trend => XApi.SearchRecent
                                    (XApi.search_query (XApi.trend_name trend)) 10 None)
                  (XApi.topTrends l)
    /\ forall i trend,
         XApi.topTrends l !! i = Some trend ->
         exists posts,
           entries !! i
           = Some (JObj ([(u "trend_name", JStr (XApi.trend_name trend))]
                         ++ XApi.optional "tweet_count"
                              (XApi.number <$> XApi.tweet_count trend)
                         ++ [(u "posts", JArr posts)]))
           /\ length posts <= 5
           /\ (forall error, search i = Throw error -> posts = []).
Proof.
  intros He Hl Hne r. subst r. unfold XApi.getTrendingNews. rewrite He, Hl.
  destruct l as [|t l]; [done|]. cbn [fst snd].
  eexists. split; [reflexivity|].
  split.
  { rewrite length_imap. unfold XApi.topTrends.
    by rewrite length_take, (Permutation_length (sort_trends_perm (t :: l))). }
  split; [reflexivity|].
  intros i trend Hi. rewrite list_lookup_imap, Hi. cbn [fmap option_fmap option_map].
  unfold XApi.trend_with_posts. eexists. split; [reflexivity|]. split.
  - destruct (search i) as [response'|e]; [|simpl; lia].
    rewrite length_map, length_take. lia.
  - by intros error ->.
Qed.



(** X19. [searchNewsTopic] merges its two pages.  The query is built from
    the topic as a template literal prints it; a topic that has no text
    rejects the promise before any request.  Otherwise, when the first
    page has no error and at least one post, the answer has [success]
    true; its posts are those of the first page followed by those of the
    second, in order, and [post_count] is their number; the second page is
    asked for when, and only when, the first names one; and when that
    request fails the answer is made of the first page alone. *)
Theorem search_merges_the_pages
    (topic : value) (response1 : XApi.SearchResponse)
    (reply2 : completion XApi.SearchResponse) (page1 : list XApi.XPost) :
  XApi.first_error (XApi.errors response1) = None ->
  XApi.data response1 = Some page1 -> page1 <> [] ->
  let r := XApi.searchNewsTopic topic (Normal response1) reply2 in
  let all := page1 ++ second_page response1 reply2 in
  (forall error, to_string topic = Throw error -> r = ([], Throw error))
  /\ (forall printed,
        to_string topic = Normal printed ->
        exists posts,
          r.2 = Normal (JObj ([(u "success", JBool true)] ++ XApi.optional "topic" topic
                              ++ [(u "post_count", XApi.number (N.of_nat (length all)));
                                  (u "posts", JArr posts)]))
          /\ omap post_text posts = map XApi.text all
          /\ length posts = length all
          /\ r.1 = XApi.SearchRecent (XApi.search_query printed) 20 None
                   :: if truthy_str (XApi.next_token response1)
                      then [XApi.SearchRecent (XApi.search_query printed) 20
                              (XApi.next_token response1)]
                      else []).
Proof.
  intros He Hd Hne r all. subst r all. unfold XApi.searchNewsTopic, second_page.
  split; [intros error E; by rewrite E|].
  intros printed E. rewrite E, He, Hd. destruct page1 as [|p page1]; [done|].
  assert (forall userMap l,
            omap post_text (map (XApi.search_post userMap) l) = map XApi.text l) as T.
  { intros userMap l. induction l as [|x l IH]; [done|].
    cbn [map]. rewrite omap_head, IH. reflexivity. }
  destruct (truthy_str (XApi.next_token response1));
    [destruct reply2 as [response2|e]|];
    cbv beta iota zeta; cbn [fst snd]; rewrite ?app_nil_r, length_map;
    (eexists; split; [reflexivity|]); rewrite T, length_map; done.
Qed.


End XApiFacts.

Section UserPosts.
Context `{Json.Numbers}.








End UserPosts.

(** ** The further examples *)

Lemma handlers_touch_only_their_call_witness :
  call_2 <> call_1
  /\ let r := run (H := integer_literals) call_1 9
                [TwilioClose; ConversationEnded false] two_calls in
     callPhoneNumbers r.1 !! call_2 = callPhoneNumbers two_calls !! call_2
     /\ callConversationIds r.1 !! call_2 = callConversationIds two_calls !! call_2
     /\ botTranscriptBuffers r.1 !! call_2 = botTranscriptBuffers two_calls !! call_2
     /\ activeCallContexts r.1 !! call_2 = activeCallContexts two_calls !! call_2.
Proof.
  assert (call_2 <> call_1) as Hne by (intros E; vm_compute in E; discriminate E).
  split; [exact Hne|].
  exact (handlers_touch_only_their_call (H := integer_literals) call_1 9
           [TwilioClose; ConversationEnded false] two_calls call_2 Hne).
Defined.

Lemma unlinked_call_makes_no_user_context_request_witness :
  let s := (run (H := integer_literals) call_1 9 [TwilioStart (u "MZ1")] entered).1 in
  phase s = Connecting /\ inflight s = []
  /\ truthy_str (callPhoneNumbers s !! call_1) = true
  /\ authenticated (getUserAuth FetchFailed) = false
  /\ count is_user_context_request
       (run (H := integer_literals) call_1 9
          (Connected FetchFailed (CreateResponse true (u "conv_1"))
           :: [XaiMessage (Some (arguments_done (u "call_7") (u "send_dm")));
               XaiMessage (Some (bare "response.done"))]) s).2 = 0.
Proof.
  intros s. split; [reflexivity|]. split; [reflexivity|]. split; [reflexivity|].
  split; [reflexivity|].
  exact (unlinked_call_makes_no_user_context_request (H := integer_literals) call_1 9
           FetchFailed (CreateResponse true (u "conv_1")) _ s
           eq_refl eq_refl eq_refl eq_refl).
Defined.

Lemma bot_transcript_is_saved_whole_witness :
  let deltas := [transcript_delta (u "Good "); transcript_delta (u "evening.")] in
  let m := bare "response.output_audio_transcript.done" in
  let r := run (H := integer_literals) call_1 9
             (map (fun m => XaiMessage (Some m)) (deltas ++ [m])) bridged in
  phase bridged = Bridging /\ quiet bridged
  /\ botTranscriptBuffers r.1 !! call_1 = None
  /\ List.filter is_backend r.2
     = [Backend (SaveTranscript (u "conv_1") Assistant (u "Good evening."))].
Proof.
  intros deltas m r.
  assert (quiet bridged) as Hq by apply Forall_nil_2.
  assert (Forall (fun m => type m = u "response.output_audio_transcript.delta") deltas)
    as Hty by (repeat constructor).
  split; [reflexivity|]. split; [exact Hq|].
  exact (bot_transcript_is_saved_whole (H := integer_literals) call_1 9 deltas m bridged
           Hty eq_refl eq_refl Hq).
Defined.

Lemma no_conversation_no_backend_request_witness :
  phase bridged_unrecorded = Bridging
  /\ truthy_str (callConversationIds bridged_unrecorded !! call_1) = false
  /\ let r := run (H := integer_literals) call_1 9
                [XaiMessage (Some (said (u "hello"))); TwilioClose] bridged_unrecorded in
     count is_backend r.2 = 0
     /\ truthy_str (callConversationIds r.1 !! call_1) = false.
Proof.
  split; [reflexivity|]. split; [reflexivity|].
  exact (no_conversation_no_backend_request (H := integer_literals) call_1 9
           [XaiMessage (Some (said (u "hello"))); TwilioClose] bridged_unrecorded
           eq_refl eq_refl).
Defined.

Lemma failed_connection_releases_nothing_witness :
  phase entered = Connecting
  /\ truthy_str (callPhoneNumbers entered !! call_1) = true
  /\ let s1 := (handle (H := integer_literals) call_1 9
                  (ConnectFailed (Response true (auth ann)) (CreateResponse true (u "conv_1"))
                     true) entered).1 in
     let r := run (H := integer_literals) call_1 9
                [TwilioClose; ConversationEnded false] s1 in
     phase s1 = Aborted
     /\ getCallContext (activeCallContexts s1) call_1
        = Some {| phoneNumber := or_empty (callPhoneNumbers entered !! call_1);
                  auth := getUserAuth (Response true (auth ann)) |}
     /\ phase r.1 = Aborted
     /\ forallb is_log r.2 = true
     /\ callPhoneNumbers r.1 !! call_1 = callPhoneNumbers entered !! call_1
     /\ activeCallContexts r.1 = activeCallContexts s1
     /\ callConversationIds r.1 = callConversationIds s1
     /\ botTranscriptBuffers r.1 = botTranscriptBuffers s1.
Proof.
  split; [reflexivity|]. split; [reflexivity|].
  exact (failed_connection_releases_nothing (H := integer_literals) call_1 9
           (Response true (auth ann)) (CreateResponse true (u "conv_1")) true
           [TwilioClose; ConversationEnded false] entered eq_refl eq_refl).
Defined.

Lemma caller_number_reaches_the_context_witness :
  phase entered = Connecting
  /\ let r := handle (H := integer_literals) call_1 9 connected entered in
     phase r.1 = Bridging
     /\ userContext r.1 = Some ann
     /\ getCallContext (activeCallContexts r.1) call_1 = Some ann
     /\ callConversationIds r.1 !! call_1 = Some (u "conv_1").
Proof.
  split; [reflexivity|].
  destruct (caller_number_reaches_the_context (H := integer_literals) call_1 9
              (Response true (auth ann)) (CreateResponse true (u "conv_1")) entered eq_refl)
    as (_ & Hp & Known & _).
  assert (u "+15550100" <> []) as Hne by discriminate.
  destruct (Known (u "+15550100") eq_refl Hne) as (A & B & C & _).
  assert (u "conv_1" <> []) as Hid by discriminate.
  split; [exact Hp|]. split; [exact A|]. split; [exact B|].
  exact (C (u "conv_1") eq_refl Hid).
Defined.

Lemma send_dm_goes_to_the_looked_up_user_witness :
  let contexts : gmap jsstring UserContext := {[ call_1 := ann ]} in
  let members := [(u "recipient_username", JStr (u "bob")); (u "message", JStr (u "hi"))] in
  getCallContext contexts call_1 = Some ann
  /\ exists k,
       executeToolCall (H := integer_literals) contexts call_1 (u "send_dm") (JObj members)
       = AwaitUser (u "token-ann") (Some (JStr (u "bob"))) k
       /\ k (Normal None)
          = Done (Normal (Json.stringify (H := integer_literals)
                            (recipient_not_found (u "bob"))))
       /\ exists k',
            k (Normal (Some {| user_id := u "99"; username := u "bob" |}))
            = AwaitText (SendDM (u "token-ann") (u "99") (Some (JStr (u "hi")))) k'.
Proof.
  intros contexts members. split; [reflexivity|].
  assert (u "token-ann" <> []) as Hne by discriminate.
  destruct (send_dm_goes_to_the_looked_up_user (H := integer_literals) contexts call_1
              ann (u "token-ann") members eq_refl eq_refl eq_refl Hne)
    as (k & E & _ & _ & NotFound & _ & Found & _).
  exists k. split; [exact E|]. split; [exact (NotFound (u "bob") eq_refl)|].
  destruct (Found {| user_id := u "99"; username := u "bob" |}) as (k' & E' & _).
  exists k'. exact E'.
Defined.

Lemma null_arguments_are_reported_witness :
  (u "search_news_topic", u "topic") ∈ public_argument
  /\ executeToolCall (H := integer_literals) ∅ call_1 (u "search_news_topic") JNull
     = Done (Normal (Json.stringify (H := integer_literals)
                       (execution_failed
                          (u "TypeError: Cannot read properties of null (reading 'topic')")))).
Proof.
  assert ((u "search_news_topic", u "topic") ∈ public_argument) as Hin
    by apply list_elem_of_here.
  split; [exact Hin|].
  exact (proj1 (proj2 (null_arguments_are_reported (H := integer_literals) ∅ call_1
                         (u "search_news_topic") (u "topic") Hin))).
Defined.


Lemma trending_survives_failed_searches_witness :
  let search := fun _ : nat =>
    Throw (A := XApi.SearchResponse) (u "Error: Request timeout") in
  let r := XApi.getTrendingNews (u "UK") (Normal two_trends) search in
  exists entries,
    r.2 = JObj [(u "success", JBool true); (u "country", JStr (u "UK"));
                (u "trends", JArr entries)]
    /\ length entries = 2
    /\ r.1 = [XApi.TrendsByWoeid (Some 23424975%N);
              XApi.SearchRecent (u "rocq lang:en -is:retweet") 10 None;
              XApi.SearchRecent (u "rust lang:en -is:retweet") 10 None].
Proof.
  intros search r.
  assert (XApi.trends two_trends <> Some []) as Hne by discriminate.
  destruct (trending_survives_failed_searches (u "UK") two_trends
              search _ eq_refl eq_refl ltac:(discriminate))
    as (entries & E & L & R & _).
  exists entries. split; [exact E|]. split; [exact L|]. exact R.
Defined.

Lemma search_merges_the_pages_witness :
  let r := XApi.searchNewsTopic (H := integer_literals) (Some (JStr (u "rocq")))
             (Normal first_page) (Throw (u "Error: Request timeout")) in
  exists posts,
    r.2 = Normal (JObj [(u "success", JBool true); (u "topic", JStr (u "rocq"));
                        (u "post_count", XApi.number 1); (u "posts", JArr posts)])
    /\ omap post_text posts = [u "hello"]
    /\ r.1 = [XApi.SearchRecent (u "rocq lang:en -is:retweet") 20 None;
              XApi.SearchRecent (u "rocq lang:en -is:retweet") 20 (Some (u "page2"))].
Proof.
  intros r.
  destruct (search_merges_the_pages (H := integer_literals) (Some (JStr (u "rocq")))
              first_page (Throw (u "Error: Request timeout")) [one_post]
              eq_refl eq_refl ltac:(discriminate))
    as [_ Answered].
  destruct (Answered (u "rocq") eq_refl) as (posts & E & T & _ & R).
  exists posts. split; [exact E|]. split; [exact T|exact R].
Defined.

Lemma single_dispatch_is_answered_witness :
  let s := (run (H := integer_literals) call_1 9
              [XaiMessage (Some (arguments_done (u "call_7") (u "get_trending_news")))]
              bridged).1 in
  phase s = Bridging /\ quiet s
  /\ List.filter is_xai_send
       (run (H := integer_literals) call_1 9
          [XaiMessage (Some (bare "response.done")); ProviderText 0 (Normal (u "trends"))]
          s).2
     = [XaiSend (FunctionCallOutput (Some (u "call_7")) (u "trends")); XaiSend ResponseCreate].
Proof.
  intros s.
  assert (quiet s) as Hq by apply Forall_nil_2.
  assert (u "get_trending_news" <> []) as Htool by discriminate.
  assert (u "call_7" <> []) as Hcall by discriminate.
  split; [reflexivity|]. split; [exact Hq|].
  destruct (single_dispatch_is_answered (H := integer_literals) call_1 9 s
              (bare "response.done") (u "call_7") (u "get_trending_news")
              eq_refl Hq eq_refl eq_refl Htool eq_refl Hcall) as [_ Later].
  exact (proj1 (Later _ _ (Normal (u "trends")) (u "trends") eq_refl eq_refl)).
Defined.
